(** * React_Wordpress: a verification development

    Shallow embedding of the storefront's bookkeeping code (sort-option
    mapping, cursor-stack pagination, price display, client-side filters,
    auth storage, cart badge, request handlers), of the password-reset
    link builders and of the container bootstrap script, followed by the
    properties proved about them. *)

From Stdlib Require Import ZArith QArith Lia List Ascii String Bool.
From stdpp Require Import base option list strings gmap fin_maps pretty.

#[local] Set Warnings "-register-all".

Local Open Scope Z_scope.
Local Open Scope string_scope.

(* ===================================================================== *)
(** * Part I: the embedding                                               *)
(* ===================================================================== *)

(** ** JavaScript values that the pagination code stores and reads *)

Module JS.

(** What an array slot of [endCursorStack] (or the [endCursor] field of
    a GraphQL page) can hold: [undefined] (a hole or a missing field),
    [null], or a string. *)
Inductive cursor : Type :=
| Undefined
| Null
| Cursor (s : string).

#[global] Instance cursor_eq_dec : EqDecision cursor.
Proof. solve_decision. Defined.

(** [v || null] *)
Definition or_null (v : cursor) : cursor :=
  match v with
  | Cursor s => if decide (s = "") then Null else Cursor s
  | _ => Null
  end.

(** [arr[i]] for a numeric index: [undefined] outside the array. *)
Definition get (arr : list cursor) (i : Z) : cursor :=
  if decide (i < 0) then Undefined
  else default Undefined (arr !! Z.to_nat i).

(** [arr[i] = v] on a copy: inside the array the slot is overwritten,
    past its end the array grows and the skipped slots are holes.  A
    negative index would create a property and leave the elements as
    they are. *)
Definition set (arr : list cursor) (i : Z) (v : cursor) : list cursor :=
  if decide (i < 0) then arr
  else
    let n := Z.to_nat i in
    if decide (n < length arr)%nat then <[n := v]> arr
    else arr ++ replicate (n - length arr) Undefined ++ [v].

End JS.

(** ** Values of GraphQL responses and of parsed JSON *)

(** A possibly missing field (JavaScript's [undefined]) is an [option json]
    with [None].  Numbers are the integers; fractions, [NaN] and the
    infinities are outside the model. *)
Inductive json : Type :=
| JNull
| JBool (b : bool)
| JNum (n : Z)
| JStr (s : string)
| JArr (items : list json)
| JObj (fields : list (string * json)).

Module Value.

(** Truthiness of a defined value. *)
Definition truthy (v : json) : bool :=
  match v with
  | JNull => false
  | JBool b => b
  | JNum n => negb (n =? 0)%Z
  | JStr s => negb (String.eqb s "")
  | JArr _ | JObj _ => true
  end.

(** Truthiness of a possibly undefined value. *)
Definition truthy_opt (v : option json) : bool :=
  match v with Some x => truthy x | None => false end.

(** [a || b] *)
Definition or (a b : option json) : option json :=
  if truthy_opt a then a else b.

(** [v == null] *)
Definition nullish (v : option json) : bool :=
  match v with None | Some JNull => true | _ => false end.

(** [String(v)] and [`${v}`] *)
Fixpoint to_string (v : json) : string :=
  match v with
  | JNull => "null"
  | JBool true => "true"
  | JBool false => "false"
  | JNum n => pretty n
  | JStr s => s
  | JArr items =>
      String.concat ","
        (List.map (fun x => match x with JNull => "" | _ => to_string x end)
                  items)
  | JObj _ => "[object Object]"
  end.

Definition to_string_opt (v : option json) : string :=
  match v with Some x => to_string x | None => "undefined" end.

(** [v.k] on a defined value: the last field of that name of an object,
    [undefined] on everything else (no such own property on strings,
    numbers, booleans and arrays; [v?.k] covers [null]). *)
Fixpoint assoc (k : string) (fields : list (string * json)) : option json :=
  match fields with
  | [] => None
  | (k', x) :: rest =>
      match assoc k rest with
      | Some y => Some y
      | None => if String.eqb k k' then Some x else None
      end
  end.

Definition prop (k : string) (v : json) : option json :=
  match v with JObj fields => assoc k fields | _ => None end.

End Value.

(** ** Strings: case mapping and search *)

Module Str.

Definition is_upper (c : ascii) : bool :=
  let n := nat_of_ascii c in (65 <=? n)%nat && (n <=? 90)%nat.

Definition is_lower (c : ascii) : bool :=
  let n := nat_of_ascii c in (97 <=? n)%nat && (n <=? 122)%nat.

Definition lower_char (c : ascii) : ascii :=
  if is_upper c then ascii_of_nat (nat_of_ascii c + 32) else c.

Definition upper_char (c : ascii) : ascii :=
  if is_lower c then ascii_of_nat (nat_of_ascii c - 32) else c.

Fixpoint map (f : ascii -> ascii) (s : string) : string :=
  match s with
  | EmptyString => EmptyString
  | String c s' => String (f c) (map f s')
  end.

(** [s.toLowerCase()] and [s.toUpperCase()]; letters outside A-Z and a-z
    are left as they are. *)
Definition toLowerCase (s : string) : string := map lower_char s.
Definition toUpperCase (s : string) : string := map upper_char s.

Fixpoint startsWith (s t : string) : bool :=
  match t with
  | EmptyString => true
  | String b t' =>
      match s with
      | EmptyString => false
      | String a s' => Ascii.eqb a b && startsWith s' t'
      end
  end.

(** [s.includes(t)] *)
Fixpoint includes (s t : string) : bool :=
  startsWith s t ||
  match s with
  | EmptyString => false
  | String _ s' => includes s' t
  end.

Fixpoint filter (p : ascii -> bool) (s : string) : string :=
  match s with
  | EmptyString => EmptyString
  | String c s' => if p c then String c (filter p s') else filter p s'
  end.

Definition is_digit (c : ascii) : bool :=
  let n := nat_of_ascii c in (48 <=? n)%nat && (n <=? 57)%nat.

(** Every character of [s] satisfies [p]. *)
Fixpoint all (p : ascii -> bool) (s : string) : bool :=
  match s with
  | EmptyString => true
  | String c s' => p c && all p s'
  end.

End Str.

(** ** Numbers read from price strings *)

Module Num.

Definition is_digit_or_dot (c : ascii) : bool :=
  Str.is_digit c || Ascii.eqb c ".".

(** [s.replace(/[^\d.]/g, "")] *)
Definition strip (s : string) : string := Str.filter is_digit_or_dot s.

Definition digit_value (c : ascii) : Z := Z.of_nat (nat_of_ascii c) - 48.

(** The digits before the first dot, read as a number, and what follows
    that dot ([None] when there is no dot). *)
Fixpoint split_dot (acc : Z) (s : string) : Z * option string :=
  match s with
  | EmptyString => (acc, None)
  | String c s' =>
      if Ascii.eqb c "." then (acc, Some s')
      else split_dot (10 * acc + digit_value c) s'
  end.

(** A run of digits only, as numerator and number of digits; [None] when
    another character (a second dot) occurs. *)
Fixpoint fraction (num : Z) (len : nat) (s : string) : option (Z * nat) :=
  match s with
  | EmptyString => Some (num, len)
  | String c s' =>
      if Str.is_digit c then fraction (10 * num + digit_value c) (S len) s'
      else None
  end.

(** [Number(s)] for a string of digits and dots: the empty string is 0,
    ["12"], ["12."], [".5"] and ["12.5"] are numerals, a lone dot and
    anything with two dots are [NaN] (here [None]).  The value is the
    exact rational, in lowest terms. *)
Definition of_stripped (s : string) : option Q :=
  match split_dot 0 s with
  | (n, None) => Some (inject_Z n)
  | (n, Some rest) =>
      if String.eqb s "." then None
      else
        match fraction 0 0 rest with
        | Some (f, len) =>
            Some (Qred (inject_Z n + Qmake f (Pos.of_nat (10 ^ len))))
        | None => None
        end
  end.

End Num.

(** ** mapOrdering (NewIphones and BudgetSmartphoneDeals) *)

Record orderby : Type := Orderby { field : string; order : string }.

#[global] Instance orderby_eq_dec : EqDecision orderby.
Proof. solve_decision. Defined.

Module NewIphones.

(** The [switch] of the NewIphones page: four case labels. *)
Definition mapOrdering (ordering : string) : orderby :=
  let field := "DATE" in
  let order := "DESC" in
  if String.eqb ordering "-created_at" then Orderby "DATE" "DESC"
  else if String.eqb ordering "new_price_ksh" then Orderby "PRICE" "ASC"
  else if String.eqb ordering "-new_price_ksh" then Orderby "PRICE" "DESC"
  else if String.eqb ordering "name" then Orderby "TITLE" "ASC"
  else Orderby field order.

Definition case_labels : list string :=
  ["-created_at"; "new_price_ksh"; "-new_price_ksh"; "name"].

End NewIphones.

Module BudgetSmartphoneDeals.

(** The [switch] of the BudgetSmartphoneDeals page: six case labels. *)
Definition mapOrdering (ordering : string) : orderby :=
  let field := "DATE" in
  let order := "DESC" in
  if String.eqb ordering "created_at" then Orderby "DATE" "ASC"
  else if String.eqb ordering "-created_at" then Orderby "DATE" "DESC"
  else if String.eqb ordering "name" then Orderby "TITLE" "ASC"
  else if String.eqb ordering "-name" then Orderby "TITLE" "DESC"
  else if String.eqb ordering "price_min_ksh" then Orderby "PRICE" "ASC"
  else if String.eqb ordering "-price_min_ksh" then Orderby "PRICE" "DESC"
  else Orderby field order.

Definition case_labels : list string :=
  ["created_at"; "-created_at"; "name"; "-name";
   "price_min_ksh"; "-price_min_ksh"].

(** [money]: [null] (here [None]) for a missing or empty price,
    otherwise the number followed by the currency, or the raw text. *)
Definition money (toLocaleString : Q -> string) (raw : option json)
  : option string :=
  match raw with
  | None | Some JNull => None
  | Some v =>
      match v with
      | JStr EmptyString => None
      | _ =>
          match Num.of_stripped (Num.strip (Value.to_string v)) with
          | None => Some (Value.to_string v)
          | Some n => Some (toLocaleString n ++ " KSh")
          end
      end
  end.

(** An element of [items], as the filters read it. *)
Record item : Type := Item {
  name : option string;     (* [n.name], [null] as [None] *)
  brand : string;
  category : string;
  badge : string
}.

(** [[p.name, p.brand, p.category].filter(Boolean)] *)
Definition search_texts (p : item) : list string :=
  List.filter (fun t => negb (String.eqb t ""))
    (match name p with Some n => [n] | None => [] end
     ++ [brand p; category p])%list.

Definition brandOk (brand_sel : string) (p : item) : bool :=
  String.eqb brand_sel "All" ||
  String.eqb (Str.toLowerCase (brand p)) (Str.toLowerCase brand_sel).

Definition badgeOk (badge_sel : string) (p : item) : bool :=
  String.eqb badge_sel "All" ||
  String.eqb (Str.toUpperCase (badge p)) (Str.toUpperCase badge_sel).

Definition searchOk (search : string) (p : item) : bool :=
  String.eqb search "" ||
  existsb (fun t => Str.includes (Str.toLowerCase t) (Str.toLowerCase search))
          (search_texts p).

(** The [filtered] memo. *)
Definition filtered (brand_sel badge_sel search : string)
                    (items : list item) : list item :=
  List.filter
    (fun p => brandOk brand_sel p && badgeOk badge_sel p && searchOk search p)
    items.

End BudgetSmartphoneDeals.

(** ** The laptops section: price display *)

Module Laptops.

(** The price fields of a product node. *)
Record node : Type := Node {
  salePrice : option json;
  price : option json;
  regularPrice : option json;
  onSale : option json
}.

(** The price fields of a normalized product; [oldPrice] is [null]
    ([None]) when nothing is crossed out. *)
Record product : Type := Product {
  product_price : string;
  product_oldPrice : option string
}.

Section WithLocale.
(** [n.toLocaleString()], which depends on the host's locale. *)
Variable toLocaleString : Q -> string.

Definition money (raw : option json) : string :=
  if negb (Value.truthy_opt raw)
     && negb (match raw with Some (JNum 0) => true | _ => false end)
  then ""
  else
    match Num.of_stripped (Num.strip (Value.to_string_opt raw)) with
    | None => Value.to_string_opt raw
    | Some n => "Ksh " ++ toLocaleString n
    end.

Definition normalize (n : node) : product :=
  let current :=
    Value.or (Value.or (Value.or (salePrice n) (price n)) (regularPrice n))
             (Some JNull) in
  let old :=
    if Value.truthy_opt (onSale n) && Value.truthy_opt (regularPrice n)
    then regularPrice n else Some JNull in
  Product (money current)
          (if Value.truthy_opt old then Some (money old) else None).

End WithLocale.

End Laptops.

(** ** Cursor-stack pagination of a listing page *)

Module Listing.
Import JS.

(** The two listing pages share the pagination code; they differ in the
    dependency list of the reset effect: NewIphones lists [badgeFilter],
    BudgetSmartphoneDeals lists neither [brand] nor [badge]. *)
Inductive component : Type := NewIphonesPage | BudgetSmartphoneDealsPage.

(** [data?.products?.pageInfo] *)
Record pageInfo : Type := PageInfo {
  hasNextPage : bool;       (* truthiness of the field *)
  endCursor : cursor
}.

Record state : Type := State {
  page : Z;
  endCursorStack : list cursor;
  search : string;
  ordering : string;
  select_filter : string;   (* badgeFilter, resp. brand/badge selects *)
  data : option pageInfo    (* None: no data (yet) *)
}.

(** A products request and the [after] variable it carries. *)
Inductive request : Type :=
| FetchMore (after : cursor)
| Refetch (after : cursor).

Definition after_of (r : request) : cursor :=
  match r with FetchMore a | Refetch a => a end.

(** [useState(1)], [useState([null])], ... *)
Definition init : state :=
  State 1 [Null] "" "" "All" None.

(** [after: endCursorStack[page - 1] || null] of the [useQuery] hook. *)
Definition query_after (s : state) : cursor :=
  or_null (get (endCursorStack s) (page s - 1)).

(** [!!data?.products?.pageInfo?.hasNextPage] *)
Definition hasNext (s : state) : bool :=
  match data s with Some pi => hasNextPage pi | None => false end.

(** [page > 1] *)
Definition hasPrev (s : state) : bool := bool_decide (1 < page s).

(** [data?.products?.pageInfo?.endCursor || null] *)
Definition current_after (s : state) : cursor :=
  or_null (match data s with Some pi => endCursor pi | None => Undefined end).

Definition goNext (s : state) : state * list request :=
  if negb (hasNext s) then (s, [])
  else
    let after := current_after s in
    let nextStack := set (endCursorStack s) (page s) after in
    (State (page s + 1) nextStack (search s) (ordering s)
           (select_filter s) (data s),
     [FetchMore after]).

Definition goPrev (s : state) : state * list request :=
  if negb (hasPrev s) then (s, [])
  else
    let prevIndex := Z.max 0 (page s - 2) in
    let after := or_null (get (endCursorStack s) prevIndex) in
    (State (Z.max 1 (page s - 1)) (endCursorStack s) (search s)
           (ordering s) (select_filter s) (data s),
     [Refetch after]).

(** The body of the reset effect: [setPage(1)], [setEndCursorStack([null])]
    and a refetch with [after: null]. *)
Definition reset (s : state) : state * list request :=
  (State 1 [Null] (search s) (ordering s) (select_filter s) (data s),
   [Refetch Null]).

(** [setSearch(v)]: a state update to the same value does not re-render;
    a changed [search] is a changed dependency of the reset effect. *)
Definition setSearch (v : string) (s : state) : state * list request :=
  if decide (v = search s) then (s, [])
  else reset (State (page s) (endCursorStack s) v (ordering s)
                    (select_filter s) (data s)).

Definition setOrdering (v : string) (s : state) : state * list request :=
  if decide (v = ordering s) then (s, [])
  else reset (State (page s) (endCursorStack s) (search s) v
                    (select_filter s) (data s)).

(** The badge select of NewIphones resets the pagination as well; the
    brand and badge selects of BudgetSmartphoneDeals only re-filter. *)
Definition setFilter (c : component) (v : string) (s : state)
  : state * list request :=
  if decide (v = select_filter s) then (s, [])
  else
    let s' := State (page s) (endCursorStack s) (search s) (ordering s)
                    v (data s) in
    match c with
    | NewIphonesPage => reset s'
    | BudgetSmartphoneDealsPage => (s', [])
    end.

(** A response of the server replaces [data]. *)
Definition receive (d : option pageInfo) (s : state) : state :=
  State (page s) (endCursorStack s) (search s) (ordering s)
        (select_filter s) d.

Inductive event : Type :=
| GoNext
| GoPrev
| SetSearch (v : string)
| SetOrdering (v : string)
| SetFilter (v : string)
| Receive (d : option pageInfo).

Definition step (c : component) (e : event) (s : state)
  : state * list request :=
  match e with
  | GoNext => goNext s
  | GoPrev => goPrev s
  | SetSearch v => setSearch v s
  | SetOrdering v => setOrdering v s
  | SetFilter v => setFilter c v s
  | Receive d => (receive d s, [])
  end.

(** The state after mounting: the reset effect runs once. *)
Definition mounted : state := fst (reset init).

(** All the state a handler sees is that of the render it was created
    in, and a handler runs to completion before the next event. *)
Definition run (c : component) (es : list event) (s : state) : state :=
  fold_left (fun s e => fst (step c e s)) es s.

Inductive reachable (c : component) : state -> Prop :=
| reach_init : reachable c init
| reach_step e s : reachable c s -> reachable c (fst (step c e s)).

End Listing.

(** ** The cart badge of the header *)

Module CartBadge.

(** A field of a cart item, by what [Number(...)] makes of it: missing
    or [null], a number, or something that converts to [NaN]. *)
Inductive field : Type :=
| Nullish
| Numeric (n : Z)
| NotANumber.

Record item : Type := Item { quantity : field; qty : field }.

(** [a ?? b] *)
Definition coalesce (a b : field) : field :=
  match a with Nullish => b | _ => a end.

(** [Number(it?.quantity ?? it?.qty ?? 0) || 0]; [it] itself may be
    [null] or [undefined] ([None]). *)
Definition item_quantity (it : option item) : Z :=
  let chosen :=
    match it with
    | Some i => coalesce (coalesce (quantity i) (qty i)) (Numeric 0)
    | None => Numeric 0
    end in
  match chosen with
  | Numeric n => n
  | Nullish | NotANumber => 0
  end.

(** [detail.items.reduce((acc, it) => acc + ..., 0)] *)
Definition derived (items : list (option item)) : Z :=
  fold_left (fun acc it => acc + item_quantity it) items 0.

(** [e?.detail ?? {}]: [count] and [delta] are [Some] when their
    [typeof] is "number", [items] when it is an array. *)
Record detail : Type := Detail {
  count : option Z;
  items : option (list (option item));
  delta : option Z
}.

(** The listener: the new badge and whether a live refetch of the cart
    count is asked for ([authed] stands for
    [isAuthed && typeof refetchCartCount === "function"]). *)
Definition onCartUpdated (authed : bool) (d : detail) (cartCount : Z)
  : Z * bool :=
  match count d with
  | Some n => (n, false)
  | None =>
      match items d with
      | Some its => (derived its, false)
      | None =>
          match delta d with
          | Some dl => (Z.max 0 (cartCount + dl), false)
          | None => (cartCount, authed)
          end
      end
  end.

(** [handleLogout]: [setCartCount(0)] *)
Definition handleLogout (cartCount : Z) : Z := 0.

Inductive event : Type :=
| CartUpdated (d : detail)
| Logout.

Definition step (authed : bool) (cartCount : Z) (e : event) : Z :=
  match e with
  | CartUpdated d => fst (onCartUpdated authed d cartCount)
  | Logout => handleLogout cartCount
  end.

(** The badge after a sequence of events, from [useState(0)]. *)
Definition badge (authed : bool) (es : list event) : Z :=
  fold_left (step authed) es 0.

End CartBadge.

(** ** Handlers: a monad of logged effects over the browser's storage *)

Module Eff.

(** An error as the catch blocks read it: [e?.graphQLErrors?.[0]?.message]
and [e?.message] ([None] when missing). *)
Record error : Type := Error {
  graphQLErrors_message : option string;
  message : option string
}.

(** How an awaited request ends. *)
Inductive response : Type :=
| Resolved (result : json)
| Rejected (e : error).

Inductive effect : Type :=
| Request (operation : string) (variables : list (string * json))
| ToastError (msg : string)
| ToastSuccess (msg : string)
| ConsoleError (e : error)
| SetState (setter : string) (args : list json)
| CartUpdatedEvent (d : CartBadge.detail)
| AuthChangedEvent (user : option json)
| OnSuccess (payload : json)
| Navigate (to : string).

(** The world a handler runs in: [localStorage], the answers the server
will give to the requests still to come (the k-th request gets
[answers k]), how many were asked, and the effects so far. *)
Record world : Type := World {
  storage : gmap string string;
  answers : nat -> response;
  asked : nat;
  log : list effect
}.

Inductive outcome (A : Type) : Type :=
| Returned (a : A)
| Thrown (e : error).
Arguments Returned {A} a.
Arguments Thrown {A} e.

Definition M (A : Type) : Type := world -> outcome A * world.

Definition ret {A} (a : A) : M A := fun w => (Returned a, w).

Definition bind {A B} (m : M A) (k : A -> M B) : M B :=
  fun w =>
    match m w with
    | (Returned a, w') => k a w'
    | (Thrown e, w') => (Thrown e, w')
    end.

#[global] Instance M_ret : MRet M := @ret.
#[global] Instance M_bind : MBind M := fun A B k m => bind m k.

Definition throw {A} (e : error) : M A := fun w => (Thrown e, w).

(** [try { m } catch (e) { h e }] *)
Definition try_catch {A} (m : M A) (h : error -> M A) : M A :=
  fun w =>
    match m w with
    | (Returned a, w') => (Returned a, w')
    | (Thrown e, w') => h e w'
    end.

(** [try { m } finally { f }] *)
Definition finally {A} (m : M A) (f : M unit) : M A :=
  fun w =>
    match m w with
    | (r, w') =>
        match f w' with
        | (Returned _, w'') => (r, w'')
        | (Thrown e, w'') => (Thrown e, w'')
        end
    end.

Definition emit (e : effect) : M unit :=
  fun w => (Returned tt,
            World (storage w) (answers w) (asked w) (log w ++ [e])%list).

(** [await op({ variables })]: the request goes out once and its answer
either is the result or is thrown. *)
Definition await (operation : string) (variables : list (string * json))
  : M json :=
  fun w =>
    let w' := World (storage w) (answers w) (S (asked w))
                    (log w ++ [Request operation variables])%list in
    match answers w (asked w) with
    | Resolved r => (Returned r, w')
    | Rejected e => (Thrown e, w')
    end.

(** [localStorage.setItem(k, v)] and [localStorage.removeItem(k)] *)
Definition setItem (k v : string) : M unit :=
  fun w => (Returned tt,
            World (<[k := v]> (storage w)) (answers w) (asked w) (log w)).

Definition removeItem (k : string) : M unit :=
  fun w => (Returned tt,
            World (delete k (storage w)) (answers w) (asked w) (log w)).

Definition getStorage : M (gmap string string) :=
  fun w => (Returned (storage w), w).

(** [a || b || fallback] over possibly missing texts. *)
Definition first_text (candidates : list (option string)) (fallback : string)
  : string :=
  default fallback
    (List.find (fun s => negb (String.eqb s "")) (omap id candidates)).

(** [v?.k1?.k2...] *)
Definition path (ks : list string) (v : option json) : option json :=
  fold_left (fun acc k => match acc with
                          | Some x => Value.prop k x
                          | None => None
                          end) ks v.

(** What a run has asked of the server and what it has shown as toasts. *)
Definition is_request (e : effect) : bool :=
  match e with Request _ _ => true | _ => false end.

Definition is_toast (e : effect) : bool :=
  match e with ToastError _ | ToastSuccess _ => true | _ => false end.

Definition requests (w : world) : list effect := List.filter is_request (log w).
Definition toasts (w : world) : list effect := List.filter is_toast (log w).

Definition start (ls : gmap string string) (answers : nat -> response) : world :=
  World ls answers 0 [].

End Eff.


(** ** Auth state in [localStorage] *)

Module Auth.
Section WithJSON.

(** [JSON.parse] ([None] when it throws) and [JSON.stringify]. *)
Variable JSON_parse : string -> option json.
Variable JSON_stringify : json -> string.

(** An object literal: properties whose value is [undefined] are the ones
    [JSON.stringify] leaves out. *)
Definition object_literal (props : list (string * option json)) : json :=
  JObj (omap (fun kv => match snd kv with
                        | Some v => Some (fst kv, v)
                        | None => None
                        end) props).

(** apolloClient.js: [getAuthToken]; [null] is [None]. *)
Definition getAuthToken (ls : gmap string string) : option json :=
  match ls !! "wpjwt" with
  | None => None
  | Some raw =>
      if String.eqb raw "" then None
      else
        match JSON_parse raw with
        | None => None
        | Some v =>
            let token := Value.prop "authToken" v in
            if Value.truthy_opt token then token else None
        end
  end.

(** apolloClient.js: the headers that [authLink] returns; the previous
    context may have no headers ([None]). *)
Definition authLink (ls : gmap string string)
                    (headers : option (gmap string string))
  : gmap string string :=
  let token := getAuthToken ls in
  let spread := default ∅ headers in
  match token with
  | Some t => <["Authorization" := "Bearer " ++ Value.to_string t]> spread
  | None => spread
  end.

(** Header.jsx: [readJWT], [getAccessToken], [getUser]. *)
Definition readJWT (ls : gmap string string) : json :=
  let raw := match ls !! "wpjwt" with
             | Some r => if String.eqb r "" then "null" else r
             | None => "null"
             end in
  match JSON_parse raw with
  | Some v => v
  | None => JNull
  end.

Definition getAccessToken (ls : gmap string string) : option json :=
  let t := Value.prop "authToken" (readJWT ls) in
  if Value.truthy_opt t then t else None.

Definition getUser (ls : gmap string string) : option json :=
  let u := Value.prop "user" (readJWT ls) in
  if Value.truthy_opt u then u else None.

(** Header.jsx: [clearAuth]. *)
Definition clearAuth : Eff.M unit :=
  Eff.removeItem "wpjwt" ;;
  Eff.emit (Eff.AuthChangedEvent None).

(** LoginForm.jsx: [handleSubmit]. *)
Definition handleSubmit (identifier password : string) : Eff.M unit :=
  if String.eqb identifier "" || String.eqb password "" then
    let msg := "Please enter your username/email and password." in
    Eff.emit (Eff.SetState "setError" [JStr msg]) ;;
    Eff.emit (Eff.ToastError msg)
  else
    Eff.emit (Eff.SetState "setError" [JStr ""]) ;;
    Eff.try_catch
      (result ← Eff.await "login"
                  [("username", JStr identifier); ("password", JStr password)];
       let payload := Eff.path ["data"; "login"] (Some result) in
       if negb (Value.truthy_opt (Eff.path ["authToken"] payload)) then
         Eff.throw (Eff.Error None (Some "Login failed. No token returned."))
       else
         Eff.setItem "wpjwt"
           (JSON_stringify
              (object_literal
                 [("authToken", Eff.path ["authToken"] payload);
                  ("refreshToken", Eff.path ["refreshToken"] payload);
                  ("user", Eff.path ["user"] payload)])) ;;
         Eff.emit (Eff.AuthChangedEvent (Eff.path ["user"] payload)) ;;
         Eff.emit (Eff.ToastSuccess "Login successful!") ;;
         Eff.emit (Eff.OnSuccess (default JNull payload)) ;;
         Eff.emit (Eff.Navigate "/"))
      (fun err =>
         let graphQLError :=
           Eff.first_text [Eff.graphQLErrors_message err; Eff.message err]
                          "Invalid credentials. Please try again." in
         Eff.emit (Eff.SetState "setError" [JStr graphQLError]) ;;
         Eff.emit (Eff.ToastError graphQLError)).

End WithJSON.
End Auth.

(** ** Add-to-cart of the laptops section and the cart page's handlers *)

Module CartHandlers.

(** [a ?? b] *)
Definition coalesce (a : option json) (b : json) : json :=
  match a with
  | None | Some JNull => b
  | Some v => v
  end.

(** The detail [{ count: v }], as the header's listener will read it:
[typeof count === "number"] or not. *)
Definition count_detail (v : json) : CartBadge.detail :=
  CartBadge.Detail (match v with JNum n => Some n | _ => None end) None None.

Definition delta_detail (d : Z) : CartBadge.detail :=
  CartBadge.Detail None None (Some d).

Definition itemCount_path (mutation : string) : list string :=
  ["data"; mutation; "cart"; "contents"; "itemCount"].

(** Laptops: [handleAddToCart]. *)
Definition handleAddToCart (productId : json) (productName : string)
  : Eff.M unit :=
  Eff.finally
    (Eff.try_catch
       (Eff.emit (Eff.SetState "setAddingMap" [productId; JBool true]) ;;
        res ← Eff.await "addToCart"
                [("productId", productId); ("quantity", JNum 1)];
        let newCount := Eff.path (itemCount_path "addToCart") (Some res) in
        match newCount with
        | Some (JNum n) => Eff.emit (Eff.CartUpdatedEvent (count_detail (JNum n)))
        | _ => Eff.emit (Eff.CartUpdatedEvent (delta_detail 1))
        end ;;
        Eff.emit (Eff.ToastSuccess (productName ++ " added to cart")))
       (fun err =>
          Eff.emit (Eff.ToastError
                      (Eff.first_text [Eff.message err] "Failed to add to cart"))))
    (Eff.emit (Eff.SetState "setAddingMap" [productId])).

(** Cart: [broadcastCount]. *)
Definition broadcastCount (itemCount : option json) : Eff.M unit :=
  Eff.emit (Eff.CartUpdatedEvent (count_detail (coalesce itemCount (JNum 0)))).

Definition setBusy (key : string) (v : bool) : Eff.M unit :=
  Eff.emit (Eff.SetState "setBusyKeys" [JStr key; JBool v]).

Definition refetch : Eff.M unit :=
  _ ← Eff.await "GetCart" []; mret tt.

Definition updateQty (key : string) (quantity : Z) : Eff.M json :=
  Eff.await "updateItemQuantities"
    [("items", JArr [JObj [("key", JStr key); ("quantity", JNum quantity)]])].

Definition removeItems (key : string) : Eff.M json :=
  Eff.await "removeItemsFromCart" [("keys", JArr [JStr key])].

(** Cart: [onInc], [onDec], [onRemove]; [itemCount] is the count of the
cart as last fetched. *)
Definition onInc (itemCount : json) (key : string) (qty : Z) : Eff.M unit :=
  setBusy key true ;;
  Eff.finally
    (Eff.try_catch
       (res ← updateQty key (qty + 1);
        let count :=
          coalesce (Eff.path (itemCount_path "updateItemQuantities") (Some res))
                   itemCount in
        broadcastCount (Some count) ;;
        refetch)
       (fun e => Eff.emit (Eff.ConsoleError e) ;; refetch))
    (setBusy key false).

Definition onDec (itemCount : json) (key : string) (qty : Z) : Eff.M unit :=
  setBusy key true ;;
  Eff.finally
    (Eff.try_catch
       ((if bool_decide (qty - 1 <= 0) then
           res ← removeItems key;
           let count :=
             coalesce (Eff.path (itemCount_path "removeItemsFromCart") (Some res))
                      itemCount in
           broadcastCount (Some count)
         else
           res ← updateQty key (qty - 1);
           let count :=
             coalesce (Eff.path (itemCount_path "updateItemQuantities") (Some res))
                      itemCount in
           broadcastCount (Some count)) ;;
        refetch)
       (fun e => Eff.emit (Eff.ConsoleError e) ;; refetch))
    (setBusy key false).

Definition onRemove (itemCount : json) (key : string) : Eff.M unit :=
  setBusy key true ;;
  Eff.finally
    (Eff.try_catch
       (res ← removeItems key;
        let count :=
          coalesce (Eff.path (itemCount_path "removeItemsFromCart") (Some res))
                   itemCount in
        broadcastCount (Some count) ;;
        refetch)
       (fun e => Eff.emit (Eff.ConsoleError e) ;; refetch))
    (setBusy key false).

End CartHandlers.

(** ** URLs: percent-encoding, query strings, search parameters *)

(** Texts are strings of bytes (the UTF-8 form of what PHP and the browser
handle); how the browser reads bytes that are not UTF-8 is outside the
model. *)
Module Url.

Definition is_alnum (c : ascii) : bool :=
  Str.is_digit c || Str.is_upper c || Str.is_lower c.

Definition one_of (chars : string) (c : ascii) : bool :=
  existsb (Ascii.eqb c) (list_ascii_of_string chars).

(** The characters PHP's [rawurlencode] leaves as they are (RFC 3986). *)
Definition unreserved (c : ascii) : bool := is_alnum c || one_of "-_.~" c.

(** The characters [encodeURIComponent] leaves as they are. *)
Definition uri_component_unescaped (c : ascii) : bool :=
  is_alnum c || one_of "-_.!~*'()" c.

Definition hex_digit (n : nat) : ascii :=
  if (n <? 10)%nat then ascii_of_nat (48 + n) else ascii_of_nat (55 + n).

Definition hex_value (c : ascii) : option nat :=
  let n := nat_of_ascii c in
  if Str.is_digit c then Some (n - 48)%nat
  else if (65 <=? n)%nat && (n <=? 70)%nat then Some (n - 55)%nat
  else if (97 <=? n)%nat && (n <=? 102)%nat then Some (n - 87)%nat
  else None.

Definition percent_encode_char (keep : ascii -> bool) (c : ascii) : string :=
  if keep c then String c EmptyString
  else
    let n := nat_of_ascii c in
    String "%" (String (hex_digit (n / 16)) (String (hex_digit (n mod 16))
                                                    EmptyString)).

Fixpoint percent_encode (keep : ascii -> bool) (s : string) : string :=
  match s with
  | EmptyString => EmptyString
  | String c s' => percent_encode_char keep c ++ percent_encode keep s'
  end.

(** PHP: [rawurlencode($s)] *)
Definition rawurlencode (s : string) : string := percent_encode unreserved s.

(** JavaScript: [encodeURIComponent(s)], on the UTF-8 bytes of [s]. *)
Definition encodeURIComponent (s : string) : string :=
  percent_encode uri_component_unescaped s.

(** PHP: [http_build_query($args, '', '&', PHP_QUERY_RFC3986)] for an
array of texts. *)
Definition http_build_query (args : list (string * string)) : string :=
  String.concat "&"
    (List.map (fun kv => rawurlencode (fst kv) ++ "=" ++ rawurlencode (snd kv))
              args).

(** PHP: [ltrim], [rtrim] and [trim] with a set of characters. *)
Fixpoint ltrim (strip : ascii -> bool) (s : string) : string :=
  match s with
  | EmptyString => EmptyString
  | String c s' => if strip c then ltrim strip s' else s
  end.

Fixpoint rtrim (strip : ascii -> bool) (s : string) : string :=
  match s with
  | EmptyString => EmptyString
  | String c s' =>
      match rtrim strip s' with
      | EmptyString => if strip c then EmptyString else String c EmptyString
      | r => String c r
      end
  end.

Definition trim (strip : ascii -> bool) (s : string) : string :=
  rtrim strip (ltrim strip s).

(** The characters PHP's [trim($s)] strips by default:
space, tab, newline, carriage return, NUL and vertical tab. *)
Definition php_blank (c : ascii) : bool :=
  existsb (Nat.eqb (nat_of_ascii c)) [32; 9; 10; 13; 0; 11]%nat.

(** Percent-decoding of the URL standard: [%XY] with two hexadecimal
digits is one byte, any other byte stands for itself. *)
Fixpoint percent_decode (s : string) : string :=
  match s with
  | EmptyString => EmptyString
  | String c rest =>
      if Ascii.eqb c "%" then
        match rest with
        | String h1 (String h2 rest') =>
            match hex_value h1, hex_value h2 with
            | Some a, Some b =>
                String (ascii_of_nat (16 * a + b)) (percent_decode rest')
            | _, _ => String c (percent_decode rest)
            end
        | _ => String c (percent_decode rest)
        end
      else String c (percent_decode rest)
  end.

Definition plus_to_space (s : string) : string :=
  Str.map (fun c => if Ascii.eqb c "+" then " "%char else c) s.

(** [split_on sep s]: the pieces of [s] between the separators. *)
Fixpoint split_on (sep : ascii) (s : string) : list string :=
  match s with
  | EmptyString => [EmptyString]
  | String c s' =>
      if Ascii.eqb c sep then EmptyString :: split_on sep s'
      else
        match split_on sep s' with
        | piece :: pieces => String c piece :: pieces
        | [] => [String c EmptyString]
        end
  end.

(** What is before the first [sep], and what is after it when there is
one. *)
Fixpoint split_first (sep : ascii) (s : string) : string * option string :=
  match s with
  | EmptyString => (EmptyString, None)
  | String c s' =>
      if Ascii.eqb c sep then (EmptyString, Some s')
      else
        let (before, after) := split_first sep s' in
        (String c before, after)
  end.

(** [new URLSearchParams(search)]: a leading "?" is dropped, the pieces
between "&" that are not empty are split at their first "=", and names
and values are decoded ("+" is a space, then percent-decoding). *)
Definition URLSearchParams (search : string) : list (string * string) :=
  let input := match search with
               | String "?" rest => rest
               | _ => search
               end in
  List.map
    (fun piece =>
       let (name, value) := split_first "=" piece in
       (percent_decode (plus_to_space name),
        percent_decode (plus_to_space (default EmptyString value))))
    (List.filter (fun piece => negb (String.eqb piece ""))
                 (split_on "&" input)).

(** [params.get(name)]: the first value of that name, [null] as [None]. *)
Fixpoint get (name : string) (params : list (string * string)) : option string :=
  match params with
  | [] => None
  | (n, v) :: rest => if String.eqb n name then Some v else get name rest
  end.

(** [location.search] once the browser has opened [url]: the query with
its leading "?" (nothing when the query is empty), the fragment left
out. *)
Definition location_search (url : string) : string :=
  let (before_fragment, _) := split_first "#" url in
  match split_first "?" before_fragment with
  | (_, Some query) =>
      if String.eqb query "" then "" else String "?" query
  | (_, None) => ""
  end.

End Url.

(** ** The WordPress side: where the reset link points *)

Module ResetLink.

(** A PHP string is true unless it is empty or "0". *)
Definition php_truthy (s : string) : bool :=
  negb (String.eqb s "") && negb (String.eqb s "0").

(** What [hrl_get_frontend_url] reads: the constant [FRONTEND_APP_URL]
when it is defined, the option 'hrl_frontend_url' (empty by default) and
[home_url()]. *)
Record settings : Type := Settings {
  FRONTEND_APP_URL : option string;
  hrl_frontend_url : string;
  home_url : string
}.

(** The URL that is configured, before it is normalized. *)
Definition configured_url (cfg : settings) : string :=
  let url :=
    match FRONTEND_APP_URL cfg with
    | Some u => if php_truthy u then u else hrl_frontend_url cfg
    | None => hrl_frontend_url cfg
    end in
  if php_truthy url then url else home_url cfg.

Definition hrl_get_frontend_url (cfg : settings) : string :=
  let url := configured_url cfg in
  let url := Url.trim Url.php_blank url in
  Url.rtrim (Ascii.eqb "/") url.

Definition hrl_build_frontend_reset_url (cfg : settings)
                                        (key user_login : string) : string :=
  let base := hrl_get_frontend_url cfg in
  let path := "/reset-password" in
  let args := [("key", key); ("login", user_login)] in
  base ++ path ++ "?" ++ Url.http_build_query args.

(** WordPress's [add_query_arg($args, $url)] for an http URL without
query and fragment: the pairs are joined as they are, without encoding;
an "=" in front of "&" or at the end is dropped, and so are "?" at the
ends of the query and a "?" in front of a "#". *)
Fixpoint drop_empty_eq (s : string) : string :=
  match s with
  | EmptyString => EmptyString
  | String c rest =>
      if Ascii.eqb c "=" then
        match rest with
        | EmptyString => EmptyString
        | String d _ =>
            if Ascii.eqb d "&" then drop_empty_eq rest
            else String c (drop_empty_eq rest)
        end
      else String c (drop_empty_eq rest)
  end.

(** [str_replace('?#', '#', $s)] *)
Fixpoint drop_question_before_hash (s : string) : string :=
  match s with
  | EmptyString => EmptyString
  | String c rest =>
      if Ascii.eqb c "?" then
        match rest with
        | String "#" _ => drop_question_before_hash rest
        | _ => String c (drop_question_before_hash rest)
        end
      else String c (drop_question_before_hash rest)
  end.

Definition add_query_arg (args : list (string * string)) (url : string)
  : string :=
  let ret := String.concat "&"
               (List.map (fun kv => fst kv ++ "=" ++ snd kv) args) in
  let ret := Url.trim (Ascii.eqb "?") ret in
  let ret := drop_empty_eq ret in
  let ret := url ++ "?" ++ ret in
  let ret := Url.rtrim (Ascii.eqb "?") ret in
  drop_question_before_hash ret.

(** The customer-reset-password email template: [$reset_link]. *)
Definition frontend_url : string := "http://localhost:5173/reset-password".

Definition reset_link (reset_key user_login : string) : string :=
  add_query_arg [("key", reset_key); ("login", Url.rawurlencode user_login)]
                frontend_url.

End ResetLink.

(** ** The ResetPassword page *)

Module ResetPassword.

(** [params.get("key") || ""] and [params.get("login") || ""], from the
page's [location.search]. *)
Definition key (search : string) : string :=
  default "" (Url.get "key" (Url.URLSearchParams search)).

Definition login (search : string) : string :=
  default "" (Url.get "login" (Url.URLSearchParams search)).

Definition submit (search pwd confirm : string) : Eff.M unit :=
  if negb (String.eqb pwd confirm) then
    Eff.emit (Eff.ToastError "Passwords do not match")
  else
    Eff.try_catch
      (_ ← Eff.await "resetUserPassword"
             [("key", JStr (key search)); ("login", JStr (login search));
              ("password", JStr pwd)];
       Eff.emit (Eff.ToastSuccess "Password reset successful. Please log in.") ;;
       Eff.emit (Eff.Navigate
                   ("/login?username=" ++ Url.encodeURIComponent (login search))))
      (fun e =>
         let msg :=
           Eff.first_text [Eff.graphQLErrors_message e; Eff.message e]
                          "Reset link is invalid or expired." in
         Eff.emit (Eff.ToastError msg)).

End ResetPassword.

(** ** The container's bootstrap script *)

Module Bootstrap.

(** The commands the script runs, in the order it runs them. *)
Inductive cmd : Type :=
| Echo (text : string)
| PhpProbe (db_host : option string)   (* the [php -r] of the wait loop *)
| Sleep (seconds : nat)
| Chown (path : string)
| FindChmod (kind mode : string)
| Wp (args : list string)              (* [$WP args...] *)
| ExecEntrypoint (argv : list string).

(** How a run of the script ends: it is replaced by the original
entrypoint, it exits on a failed command ([set -e]) or an unset variable
([set -u]), or it is still in the wait loop when the observation stops. *)
Inductive ending : Type :=
| Exec
| Aborted
| Waiting.

(** The world outside: whether the k-th connection attempt to a host and
port succeeds, and the exit status of [chown] (first and last call) and
of each [wp] command. *)
Record world : Type := World {
  tcp_connect : string -> string -> nat -> bool;
  chown_first : bool;
  chown_last : bool;
  wp_status : list string -> bool
}.

Definition Sh (A : Type) : Type := list cmd * (A + ending).

#[global] Instance Sh_ret : MRet Sh := fun A a => ([], inl a).
#[global] Instance Sh_bind : MBind Sh := fun A B k m =>
  match m with
  | (l, inl a) => let (l', r) := k a in ((l ++ l')%list, r)
  | (l, inr e) => (l, inr e)
  end.

(** A command whose status does not matter ([|| true], [echo]). *)
Definition run (c : cmd) : Sh unit := ([c], inl tt).

(** A command under [set -e]. *)
Definition checked (c : cmd) (ok : bool) : Sh unit :=
  ([c], if ok then inl tt else inr Aborted).

Definition stop {A} (e : ending) : Sh A := ([], inr e).

(** ["${VAR}"] under [set -u], and ["${VAR:-default}"]. *)
Definition expand (env : gmap string string) (var : string) : Sh string :=
  match env !! var with
  | Some v => mret v
  | None => stop Aborted
  end.

Definition expand_default (env : gmap string string) (var default_ : string)
  : string :=
  match env !! var with
  | Some v => if String.eqb v "" then default_ else v
  | None => default_
  end.

Definition ORIG_ENTRYPOINT : string := "/usr/local/bin/docker-entrypoint.sh".
Definition WP_PATH : string := "/var/www/html".

(** The [php -r] probe: exit status 0 exactly when WORDPRESS_DB_HOST is a
true PHP string and the connection to its host and port (3306 when
there is no ":") opens. *)
Definition probe (env : gmap string string) (w : world) (attempt : nat) : bool :=
  match env !! "WORDPRESS_DB_HOST" with
  | Some h =>
      if ResetLink.php_truthy h then
        let (host, port) := Url.split_first ":" h in
        tcp_connect w host (default "3306" port) attempt
      else false
  | None => false
  end.

(** [until php -r '...'; do sleep 2; done], observed for [fuel] attempts
starting with attempt number [k]. *)
Fixpoint wait_for_db (env : gmap string string) (w : world)
                     (fuel k : nat) : Sh unit :=
  match fuel with
  | O => stop Waiting
  | S fuel' =>
      run (PhpProbe (env !! "WORDPRESS_DB_HOST")) ;;
      if probe env w k then mret tt
      else run (Sleep 2) ;; wait_for_db env w fuel' (S k)
  end.

Definition is_blank (c : ascii) : bool :=
  existsb (Nat.eqb (nat_of_ascii c)) [32; 9; 10]%nat.

(** The words of an unquoted expansion (split at spaces, tabs and
newlines); pathname expansion is not modelled. *)
Fixpoint words_from (current : string) (s : string) : list string :=
  match s with
  | EmptyString =>
      if String.eqb current "" then [] else [current]
  | String c s' =>
      if is_blank c then
        if String.eqb current "" then words_from "" s'
        else current :: words_from "" s'
      else words_from (current ++ String c EmptyString) s'
  end.

Definition words (s : string) : list string := words_from "" s.

Definition install (env : gmap string string) (w : world) : Sh unit :=
  if negb (wp_status w ["core"; "is-installed"]) then
    run (Echo "[bootstrap] No WordPress install detected. Creating wp-config...") ;;
    dbname ← expand env "WORDPRESS_DB_NAME";
    dbuser ← expand env "WORDPRESS_DB_USER";
    dbpass ← expand env "WORDPRESS_DB_PASSWORD";
    dbhost ← expand env "WORDPRESS_DB_HOST";
    let create := ["config"; "create"; "--dbname=" ++ dbname;
                   "--dbuser=" ++ dbuser; "--dbpass=" ++ dbpass;
                   "--dbhost=" ++ dbhost; "--skip-check"] in
    checked (Wp create) (wp_status w create) ;;
    let SITE_URL := expand_default env "WP_HOME" "http://localhost:8000" in
    run (Echo ("[bootstrap] Installing core at " ++ SITE_URL ++ "...")) ;;
    let core_install :=
      ["core"; "install"; "--url=" ++ SITE_URL;
       "--title=" ++ expand_default env "WP_TITLE" "My Site";
       "--admin_user=" ++ expand_default env "WP_ADMIN_USER" "admin";
       "--admin_password=" ++ expand_default env "WP_ADMIN_PASSWORD" "admin";
       "--admin_email="
         ++ expand_default env "WP_ADMIN_EMAIL" "admin@example.com"] in
    checked (Wp core_install) (wp_status w core_install)
  else
    run (Echo "[bootstrap] WordPress already installed. Skipping core install.").

Definition sync_option (env : gmap string string) (var option_ : string)
  : Sh unit :=
  let v := expand_default env var "" in
  if negb (String.eqb v "") then run (Wp ["option"; "update"; option_; v])
  else mret tt.

Fixpoint activate_each (w : world) (slugs : list string) : Sh unit :=
  match slugs with
  | [] => mret tt
  | slug :: rest =>
      run (Wp ["plugin"; "is-installed"; slug]) ;;
      (if wp_status w ["plugin"; "is-installed"; slug] then
         run (Wp ["plugin"; "activate"; slug]) ;;
         run (Echo ("[bootstrap] Activated: " ++ slug))
       else
         run (Echo ("[bootstrap][WARN] Not found: " ++ slug
                    ++ " (check folder name under wp-content/plugins)"))) ;;
      activate_each w rest
  end.

Definition activate_plugins (env : gmap string string) (w : world) : Sh unit :=
  let plugins := expand_default env "WP_PLUGINS" "" in
  if negb (String.eqb plugins "") then
    run (Echo ("[bootstrap] Activating plugins: " ++ plugins)) ;;
    activate_each w (words plugins)
  else run (Echo "[bootstrap] No WP_PLUGINS specified.").

(** The whole script, with the wait loop observed for [fuel] attempts. *)
Definition script (env : gmap string string) (w : world) (fuel : nat)
  : Sh unit :=
  run (Echo "[bootstrap] Waiting for DB...") ;;
  wait_for_db env w fuel 0 ;;
  run (Echo "[bootstrap] Fixing permissions...") ;;
  checked (Chown WP_PATH) (chown_first w) ;;
  run (FindChmod "d" "755") ;;
  run (FindChmod "f" "644") ;;
  run (Wp ["core"; "is-installed"]) ;;
  install env w ;;
  sync_option env "WP_HOME" "home" ;;
  sync_option env "WP_SITEURL" "siteurl" ;;
  activate_plugins env w ;;
  run (Wp ["rewrite"; "structure"; "/%postname%/"; "--hard"]) ;;
  run (Wp ["rewrite"; "flush"; "--hard"]) ;;
  checked (Chown WP_PATH) (chown_last w) ;;
  run (Echo "[bootstrap] Handing off to original entrypoint...") ;;
  run (ExecEntrypoint [ORIG_ENTRYPOINT; "apache2-foreground"]) ;;
  stop Exec.

(** The commands run and how the run ended. *)
Definition trace (env : gmap string string) (w : world) (fuel : nat) : list cmd :=
  fst (script env w fuel).

Definition outcome (env : gmap string string) (w : world) (fuel : nat) : ending :=
  match snd (script env w fuel) with
  | inl _ => Exec
  | inr e => e
  end.

End Bootstrap.

(** ** A JSON reader and printer for the values of the model *)

(** It covers the JSON texts whose numbers are integers and whose [\u]
escapes stay below 0080; it serves to run the auth code on concrete
storage contents. *)
Module MiniJSON.

Definition dquote : ascii := ascii_of_nat 34.
Definition backslash : ascii := ascii_of_nat 92.

Definition is_ws (c : ascii) : bool :=
  existsb (Nat.eqb (nat_of_ascii c)) [32; 9; 10; 13]%nat.

Fixpoint skip_ws (s : string) : string :=
  match s with
  | String c rest => if is_ws c then skip_ws rest else s
  | EmptyString => EmptyString
  end.

Definition escape_char (c : ascii) : string :=
  let n := nat_of_ascii c in
  if Ascii.eqb c dquote then String backslash (String dquote "")
  else if Ascii.eqb c backslash then String backslash (String backslash "")
  else if (n =? 10)%nat then String backslash "n"
  else if (n =? 13)%nat then String backslash "r"
  else if (n =? 9)%nat then String backslash "t"
  else if (n =? 8)%nat then String backslash "b"
  else if (n =? 12)%nat then String backslash "f"
  else if (n <? 32)%nat then
    String backslash
      ("u00" ++ String (Str.lower_char (Url.hex_digit (n / 16)))
                  (String (Str.lower_char (Url.hex_digit (n mod 16))) ""))
  else String c "".

Fixpoint escape (s : string) : string :=
  match s with
  | EmptyString => EmptyString
  | String c rest => escape_char c ++ escape rest
  end.

Definition quote (s : string) : string :=
  String dquote (escape s ++ String dquote "").

(** [JSON.stringify(v)] *)
Fixpoint stringify (v : json) : string :=
  match v with
  | JNull => "null"
  | JBool true => "true"
  | JBool false => "false"
  | JNum n => pretty n
  | JStr s => quote s
  | JArr items => "[" ++ String.concat "," (List.map stringify items) ++ "]"
  | JObj fields =>
      "{" ++ String.concat ","
               (List.map (fun kv => match kv with
                                    | (k, x) => quote k ++ ":" ++ stringify x
                                    end) fields)
          ++ "}"
  end.

Definition unescape (c : ascii) : option ascii :=
  if Ascii.eqb c dquote then Some dquote
  else if Ascii.eqb c backslash then Some backslash
  else if Ascii.eqb c "/" then Some "/"%char
  else if Ascii.eqb c "n" then Some (ascii_of_nat 10)
  else if Ascii.eqb c "r" then Some (ascii_of_nat 13)
  else if Ascii.eqb c "t" then Some (ascii_of_nat 9)
  else if Ascii.eqb c "b" then Some (ascii_of_nat 8)
  else if Ascii.eqb c "f" then Some (ascii_of_nat 12)
  else None.

Definition cons_char (c : ascii) (r : option (string * string))
  : option (string * string) :=
  match r with
  | Some (text, rest) => Some (String c text, rest)
  | None => None
  end.

(** The text of a string literal whose opening quote has been read, and
what follows its closing quote. *)
Fixpoint read_string (s : string) : option (string * string) :=
  match s with
  | EmptyString => None
  | String c rest =>
      if Ascii.eqb c dquote then Some (EmptyString, rest)
      else if Ascii.eqb c backslash then
        match rest with
        | String e rest' =>
            match unescape e with
            | Some ch => cons_char ch (read_string rest')
            | None =>
                if Ascii.eqb e "u" then
                  match rest' with
                  | String "0" (String "0" (String h1 (String h2 rest''))) =>
                      match Url.hex_value h1, Url.hex_value h2 with
                      | Some a, Some b =>
                          if (a <? 8)%nat
                          then cons_char (ascii_of_nat (16 * a + b))
                                         (read_string rest'')
                          else None
                      | _, _ => None
                      end
                  | _ => None
                  end
                else None
            end
        | EmptyString => None
        end
      else if (nat_of_ascii c <? 32)%nat then None
      else cons_char c (read_string rest)
  end.

Fixpoint read_digits (acc : Z) (s : string) : Z * string :=
  match s with
  | String c rest =>
      if Str.is_digit c then read_digits (10 * acc + Num.digit_value c) rest
      else (acc, s)
  | EmptyString => (acc, s)
  end.

(** An integer numeral: no leading zero, no fraction, no exponent. *)
Definition read_number (s : string) : option (json * string) :=
  let (negative, body) :=
    match s with
    | String "-" rest => (true, rest)
    | _ => (false, s)
    end in
  match body with
  | String d rest =>
      if Str.is_digit d then
        let (n, after) :=
          if Ascii.eqb d "0" then (0, rest) else read_digits 0 body in
        match after with
        | String c _ =>
            if Str.is_digit c || Url.one_of ".eE" c then None
            else Some (JNum (if negative then - n else n), after)
        | EmptyString => Some (JNum (if negative then - n else n), after)
        end
      else None
  | EmptyString => None
  end.

Definition read_word (word : string) (v : json) (s : string)
  : option (json * string) :=
  if Str.startsWith s word
  then Some (v, String.substring (String.length word)
                                 (String.length s - String.length word) s)
  else None.

Fixpoint read_value (fuel : nat) (s : string) : option (json * string) :=
  match fuel with
  | O => None
  | S fuel' =>
      match skip_ws s with
      | EmptyString => None
      | String c rest as s' =>
          if Ascii.eqb c "n" then read_word "null" JNull s'
          else if Ascii.eqb c "t" then read_word "true" (JBool true) s'
          else if Ascii.eqb c "f" then read_word "false" (JBool false) s'
          else if Ascii.eqb c dquote then
            match read_string rest with
            | Some (text, after) => Some (JStr text, after)
            | None => None
            end
          else if Ascii.eqb c "[" then
            match skip_ws rest with
            | String "]" after => Some (JArr [], after)
            | _ =>
                match read_items fuel' rest with
                | Some (items, after) => Some (JArr items, after)
                | None => None
                end
            end
          else if Ascii.eqb c "{" then
            match skip_ws rest with
            | String "}" after => Some (JObj [], after)
            | _ =>
                match read_fields fuel' rest with
                | Some (fields, after) => Some (JObj fields, after)
                | None => None
                end
            end
          else read_number s'
      end
  end
with read_items (fuel : nat) (s : string) : option (list json * string) :=
  match fuel with
  | O => None
  | S fuel' =>
      match read_value fuel' s with
      | Some (v, after) =>
          match skip_ws after with
          | String "," more =>
              match read_items fuel' more with
              | Some (vs, after') => Some (v :: vs, after')
              | None => None
              end
          | String "]" after' => Some ([v], after')
          | _ => None
          end
      | None => None
      end
  end
with read_fields (fuel : nat) (s : string)
  : option (list (string * json) * string) :=
  match fuel with
  | O => None
  | S fuel' =>
      match skip_ws s with
      | String c rest =>
          if Ascii.eqb c dquote then
            match read_string rest with
            | Some (k, after_key) =>
                match skip_ws after_key with
                | String ":" after_colon =>
                    match read_value fuel' after_colon with
                    | Some (v, after) =>
                        match skip_ws after with
                        | String "," more =>
                            match read_fields fuel' more with
                            | Some (kvs, after') => Some ((k, v) :: kvs, after')
                            | None => None
                            end
                        | String "}" after' => Some ([(k, v)], after')
                        | _ => None
                        end
                    | None => None
                    end
                | _ => None
                end
            | None => None
            end
          else None
      | EmptyString => None
      end
  end.

(** [JSON.parse(text)]; [None] for a syntax error. *)
Definition parse (text : string) : option json :=
  match read_value (2 * String.length text + 2) text with
  | Some (v, after) =>
      match skip_ws after with
      | EmptyString => Some v
      | _ => None
      end
  | None => None
  end.

End MiniJSON.


(** ** Product tags *)

(** A tag of a product is given by its [name], [None] when the tag or
its name is [null] or missing. *)
Module Tags.

(** [tags.map((t) => (t?.name || "").toUpperCase())] *)
Definition names (tags : list (option string)) : list string :=
  List.map (fun t => Str.toUpperCase (default "" t)) tags.

(** [names.includes(x)] *)
Definition includes (names : list string) (x : string) : bool :=
  existsb (String.eqb x) names.

End Tags.

(** ** The product cards of the NewIphones page *)

Module NewIphonesCards.

Definition deriveBadge (tags : list (option string)) : string :=
  let names := Tags.names tags in
  if Tags.includes names "HOT" then "HOT"
  else if Tags.includes names "NEW" then "NEW"
  else if Tags.includes names "SALE" then "SALE"
  else "NONE".

(** [toNumber]: [null] is [None]. *)
Definition toNumber (raw : option json) : option Q :=
  match raw with
  | None | Some JNull => None
  | Some v =>
      match v with
      | JStr EmptyString => None
      | _ => Num.of_stripped (Num.strip (Value.to_string v))
      end
  end.

(** A product node of the response, with the fields the page reads;
[productTags_nodes] is [n.productTags?.nodes], [meta_brand] and
[meta_category] are [n?.meta?.brand] and [n?.meta?.category] when they
are strings. *)
Record node : Type := Node {
  databaseId : option json;
  id : option json;
  name : option json;
  image_sourceUrl : option json;
  productTags_nodes : option (list (option string));
  salePrice : option json;
  price : option json;
  regularPrice : option json;
  onSale : option json;
  meta_brand : option string;
  meta_category : option string
}.

(** An element of [items]. *)
Record card : Type := Card {
  item_id : option json;
  item_name : option json;
  image : option json;
  brand : string;
  category : string;
  new_price_ksh : option Q;
  old_price_ksh : option Q;
  price_display : string;
  badge : string;
  product_id : option json
}.

Section WithHost.
(** [n.toLocaleString()] and [s.trim()]. *)
Variable toLocaleString : Q -> string.
Variable trim : string -> string.

(** [v?.trim?.() || fallback] *)
Definition trimmed_or (v : option string) (fallback : string) : string :=
  match v with
  | Some s => if String.eqb (trim s) "" then fallback else trim s
  | None => fallback
  end.

(** The function mapped over the nodes. *)
Definition normalize (n : node) : card :=
  let badge := deriveBadge (default [] (productTags_nodes n)) in
  let current :=
    toNumber (Value.or (Value.or (salePrice n) (price n)) (regularPrice n)) in
  let crossed :=
    if Value.truthy_opt (onSale n) && Value.truthy_opt (regularPrice n)
    then toNumber (regularPrice n) else None in
  let brand := trimmed_or (meta_brand n) "Unbranded" in
  let category := trimmed_or (meta_category n) "" in
  Card (if Value.nullish (databaseId n) then id n else databaseId n)
       (name n)
       (Value.or (image_sourceUrl n) (Some (JStr "")))
       brand
       category
       current
       crossed
       (match current with
        | Some c => "KSh " ++ toLocaleString c
        | None => ""
        end)
       badge
       (Value.or (databaseId n) (Some JNull)).

(** The [items] memo: the cards of the nodes, filtered by the badge
select. *)
Definition items (badgeFilter : string) (nodes : list node) : list card :=
  List.filter
    (fun p =>
       if String.eqb badgeFilter "All" then true
       else if String.eqb badgeFilter "NONE" then String.eqb (badge p) "NONE"
       else String.eqb (badge p) badgeFilter)
    (List.map normalize nodes).

End WithHost.

(** The options of the badge select besides "All". *)
Definition badge_options : list string := ["HOT"; "NEW"; "SALE"; "NONE"].

(** [toggleWishlist]: the updater passed to [setWishlist]; ids are
primitive values, compared by [===]. *)
Definition toggleWishlist {A} `{EqDecision A} (id : A) (prev : list A) : list A :=
  if decide (id ∈ prev)
  then filter (fun p => p <> id) prev
  else (prev ++ [id])%list.

(** The wishlist after the hearts of [ids] were clicked in turn, from
[useState([])]. *)
Definition wishlist {A} `{EqDecision A} (ids : list A) : list A :=
  fold_left (fun prev id => toggleWishlist id prev) ids [].

(** [handleBuyNow]; [item] may be [null] or [undefined] ([None]). *)
Definition handleBuyNow (item : option card) : Eff.M unit :=
  let available :=
    match item with
    | Some it => Value.truthy_opt (product_id it)
    | None => false
    end in
  if negb available then
    Eff.emit (Eff.ToastError "This item is not available for purchase yet.")
  else
    let id := JStr (Value.to_string_opt (item ≫= item_id)) in
    Eff.emit (Eff.SetState "setAddingMap" [id; JBool true]) ;;
    Eff.finally
      (Eff.try_catch
         (res ← Eff.await "addToCart"
                  [("productId", default JNull (item ≫= product_id));
                   ("quantity", JNum 1)];
          let newCount :=
            Eff.path (CartHandlers.itemCount_path "addToCart") (Some res) in
          match newCount with
          | Some (JNum n) =>
              Eff.emit (Eff.CartUpdatedEvent (CartHandlers.count_detail (JNum n)))
          | _ => Eff.emit (Eff.CartUpdatedEvent (CartHandlers.delta_detail 1))
          end ;;
          Eff.emit (Eff.ToastSuccess
                      (Value.to_string_opt (item ≫= item_name)
                       ++ " added to cart")))
         (fun e =>
            Eff.emit (Eff.ToastError
                        (Eff.first_text [Eff.message e] "Failed to add to cart"))))
      (Eff.emit (Eff.SetState "setAddingMap" [id])).

End NewIphonesCards.

(** ** The product cards of the BudgetSmartphoneDeals page *)

Module BudgetCards.

Definition deriveBadge (tags : list (option string)) : string :=
  let names := Tags.names tags in
  if Tags.includes names "OPEN HOT" then "OPEN HOT"
  else if Tags.includes names "OPEN" then "OPEN"
  else "".

(** A product node, with the fields the page reads; [name] is the
product's name when it is a string. *)
Record node : Type := Node {
  databaseId : option json;
  id : option json;
  name : option string;
  image_sourceUrl : option json;
  productTags_nodes : option (list (option string));
  salePrice : option json;
  price : option json;
  regularPrice : option json;
  onSale : option json;
  meta_brand : option string;
  meta_category : option string
}.

(** An element of [items]: what the filters read, and the other fields
of the card. *)
Record card : Type := Card {
  filtered_fields : BudgetSmartphoneDeals.item;
  item_id : option json;
  image : option json;
  price_display : string;
  price_max_ksh : option (option Q);     (* [null], or a number or [NaN] *)
  product_id : option json
}.

Section WithHost.
Variable toLocaleString : Q -> string.
Variable trim : string -> string.

(** The function mapped over the nodes. *)
Definition normalize (n : node) : card :=
  let brand_from_meta :=
    NewIphonesCards.trimmed_or trim (meta_brand n) "Unbranded" in
  let category_from_meta :=
    NewIphonesCards.trimmed_or trim (meta_category n) "" in
  let badgeName := deriveBadge (default [] (productTags_nodes n)) in
  let priceRaw :=
    Value.or (Value.or (Value.or (salePrice n) (price n)) (regularPrice n))
             (Some JNull) in
  Card (BudgetSmartphoneDeals.Item (name n) brand_from_meta
          category_from_meta badgeName)
       (if Value.nullish (databaseId n) then id n else databaseId n)
       (Value.or (image_sourceUrl n) (Some (JStr "")))
       (match BudgetSmartphoneDeals.money toLocaleString priceRaw with
        | Some text => if String.eqb text "" then "—" else text
        | None => "—"
        end)
       (if Value.truthy_opt (onSale n) && Value.truthy_opt (regularPrice n)
        then Some (Num.of_stripped
                     (Num.strip (Value.to_string_opt (regularPrice n))))
        else None)
       (Value.or (databaseId n) (Some JNull)).

(** The [items] memo and the grid that [filtered] makes of it. *)
Definition items (nodes : list node) : list card := List.map normalize nodes.

Definition shown (brand_sel badge_sel search : string) (nodes : list node)
  : list BudgetSmartphoneDeals.item :=
  BudgetSmartphoneDeals.filtered brand_sel badge_sel search
    (List.map filtered_fields (items nodes)).

End WithHost.

End BudgetCards.

(** ** The laptops section: tags of the form "Key: value" *)

Module LaptopTags.
Section WithTrim.
Variable trim : string -> string.

(** [firstTagValue]; [null] is [None]. *)
Definition firstTagValue (tags : list (option string)) (key : string)
  : option string :=
  match List.find
          (fun t => Str.startsWith (Str.toLowerCase (default "" t))
                                   (Str.toLowerCase key ++ ":"))
          tags with
  | None => None
  | Some row =>
      Some (trim (nth 1 (Url.split_on ":" (default "" row)) ""))
  end.

End WithTrim.
End LaptopTags.

(** ** The header: the badge as a listener, and the search box *)

Module Header.

(** The details of the "cart-updated" events among the effects of a
handler, in the order the header's listener receives them. *)
Definition cart_updated (log : list Eff.effect) : list CartBadge.detail :=
  omap (fun e => match e with
                 | Eff.CartUpdatedEvent d => Some d
                 | _ => None
                 end) log.

(** The badge once the listener has handled these events. *)
Definition badge_after (authed : bool) (cartCount : Z)
                       (details : list CartBadge.detail) : Z :=
  fold_left (fun c d => fst (CartBadge.onCartUpdated authed d c))
            details cartCount.

Section WithTrim.
Variable trim : string -> string.

(** [goSearch]; [query] is the text of the search box. *)
Definition goSearch (query : string) : Eff.M unit :=
  let q := trim query in
  if String.eqb q "" then mret tt
  else
    Eff.emit (Eff.SetState "setMobile"
                [JObj [("menuOpen", JBool false); ("searchOpen", JBool false)]]) ;;
    Eff.emit (Eff.Navigate ("/search?q=" ++ Url.encodeURIComponent q)).

End WithTrim.

(** Where the handler has sent the router. *)
Definition navigations (log : list Eff.effect) : list string :=
  omap (fun e => match e with Eff.Navigate to => Some to | _ => None end) log.

End Header.

(** ** The search results page *)

Module SearchResults.
Section WithTrim.
Variable trim : string -> string.

(** [(params.get("q") || "").trim()], from the page's [location.search]. *)
Definition q (search : string) : string :=
  trim (default "" (Url.get "q" (Url.URLSearchParams search))).

(** [skip: !q] *)
Definition skip (search : string) : bool := String.eqb (q search) "".

End WithTrim.
End SearchResults.

(** ** The cart page: what it broadcasts for the header *)

Module CartPage.

(** The events the page dispatches on [window]. *)
Inductive dispatched : Type :=
| CartSnapshot (items : list (option CartBadge.item))
| CartUpdated (detail : CartBadge.detail).

(** [broadcastCount(itemCount)]: the detail is [{ count: itemCount ?? 0 }]. *)
Definition broadcastCount (itemCount : option json) : list dispatched :=
  [CartUpdated (CartHandlers.count_detail
                  (CartHandlers.coalesce itemCount (JNum 0)))].

(** [broadcastSnapshot(items)]; [items] is [None] when it is [null] or
[undefined] (an array otherwise). *)
Definition broadcastSnapshot (items : option (list (option CartBadge.item)))
  : list dispatched :=
  let count :=
    match items with
    | Some its => CartBadge.derived its
    | None => 0
    end in
  (CartSnapshot (default [] items) :: broadcastCount (Some (JNum count)))%list.

(** [data?.cart?.contents] *)
Record contents : Type := Contents {
  itemCount : option json;
  nodes : option (list (option CartBadge.item))
}.

(** The effect that runs when the cart query delivers. *)
Definition onData (loading : bool) (c : option contents) : list dispatched :=
  match c with
  | Some c =>
      if loading then []
      else
        (broadcastCount (Some (CartHandlers.coalesce (itemCount c) (JNum 0)))
         ++ broadcastSnapshot (Some (default [] (nodes c))))%list
  | None => []
  end.

(** The "cart-updated" events among them: the ones the header listens
to. *)
Definition cart_updated (ds : list dispatched) : list CartBadge.detail :=
  omap (fun d => match d with CartUpdated x => Some x | _ => None end) ds.

End CartPage.

(** ** src/auth.js *)

Module AuthStore.
Section WithJSON.
Variable JSON_parse : string -> option json.
Variable JSON_stringify : json -> string.

Definition KEY : string := "wpjwt".

(** [saveAuth({ authToken, refreshToken })] at the time [now]. *)
Definition saveAuth (authToken refreshToken : option json) (now : Z)
  : Eff.M unit :=
  Eff.setItem KEY
    (JSON_stringify
       (Auth.object_literal
          [("authToken", authToken); ("refreshToken", refreshToken);
           ("savedAt", Some (JNum now))])).

(** [getAuth()]; [null] is [JNull]. *)
Definition getAuth (ls : gmap string string) : json :=
  match ls !! KEY with
  | Some raw =>
      if String.eqb raw "" then JNull
      else
        match JSON_parse raw with
        | Some v => v
        | None => JNull
        end
  | None => JNull
  end.

Definition clearAuth : Eff.M unit := Eff.removeItem KEY.

End WithJSON.
End AuthStore.

(** ** The checkout form *)

Module Checkout.

Record shipping : Type := Shipping {
  full_name : string;
  phone : string;
  address1 : string;
  address2 : string;
  city : string;
  country : string
}.

(** [s.split(" ")] *)
Definition split_spaces (s : string) : list string := Url.split_on " " s.

(** The two name fields of [normalizeShipping]. *)
Definition firstName (s : shipping) : string :=
  String.concat "" (take 1 (split_spaces (full_name s))).

Definition lastName (s : shipping) : string :=
  String.concat " " (drop 1 (split_spaces (full_name s))).

(** The test of [validateForm]. *)
Definition complete (s : shipping) : bool :=
  negb (String.eqb (full_name s) "") && negb (String.eqb (phone s) "")
  && negb (String.eqb (address1 s) "") && negb (String.eqb (city s) "")
  && negb (String.eqb (country s) "").

Section WithTrim.
Variable trim : string -> string.

(** The [input] of the checkout mutation. *)
Definition input (s : shipping) (paymentMethod userEmail : string) (now : Z)
  : json :=
  JObj [("paymentMethod", JStr paymentMethod);
        ("billing",
         JObj [("firstName", JStr (firstName s));
               ("lastName", JStr (lastName s));
               ("email", JStr userEmail);
               ("phone", JStr (trim (phone s)));
               ("address1", JStr (trim (address1 s)));
               ("address2", JStr (trim (address2 s)));
               ("city", JStr (trim (city s)));
               ("country", JStr (trim (country s)))]);
        ("shipping",
         JObj [("firstName", JStr (firstName s));
               ("lastName", JStr (lastName s));
               ("address1", JStr (trim (address1 s)));
               ("address2", JStr (trim (address2 s)));
               ("city", JStr (trim (city s)));
               ("country", JStr (trim (country s)))]);
        ("clientMutationId", JStr ("checkout_" ++ pretty now))].

(** [placeOrder]; [checkingOut] is the loading flag of the mutation,
[now] the time. *)
Definition placeOrder (checkingOut : bool) (s : shipping)
                      (paymentMethod : string) (now : Z) : Eff.M unit :=
  if checkingOut then mret tt
  else if negb (complete s) then
    Eff.emit (Eff.SetState "setError"
                [JStr "Please complete your shipping details."])
  else
    Eff.emit (Eff.SetState "setError" [JStr ""]) ;;
    Eff.try_catch
      (ls ← Eff.getStorage;
       let userEmail := default "" (ls !! "userEmail") in
       res ← Eff.await "checkout"
               [("input", input s paymentMethod userEmail now)];
       let created := Eff.path ["data"; "checkout"; "order"] (Some res) in
       let orderId :=
         Value.or (Eff.path ["databaseId"] created) (Eff.path ["id"] created) in
       Eff.emit (Eff.ToastSuccess
                   "Order placed — check your email for confirmation (if enabled).") ;;
       if Value.truthy_opt orderId then
         Eff.emit (Eff.Navigate
                     ("/order-confirmation/" ++ Value.to_string_opt orderId))
       else Eff.emit (Eff.Navigate "/order-confirmation"))
      (fun e =>
         Eff.emit (Eff.ConsoleError e) ;;
         let msg :=
           Eff.first_text [Eff.graphQLErrors_message e; Eff.message e]
                          "Failed to place order." in
         Eff.emit (Eff.SetState "setError" [JStr msg])).

End WithTrim.
End Checkout.
(* ===================================================================== *)
(** * Part II: properties                                                 *)
(* ===================================================================== *)

(** ** mapOrdering *)

Lemma NewIphones_mapOrdering_default (o : string) :
  o ∉ NewIphones.case_labels ->
  NewIphones.mapOrdering o = Orderby "DATE" "DESC".
Proof.
  unfold NewIphones.case_labels, NewIphones.mapOrdering. intros Hno.
  repeat match goal with
         | |- context [String.eqb o ?l] =>
             destruct (String.eqb_spec o l) as [-> | _];
             [ exfalso; apply Hno; set_solver | ]
         end.
  reflexivity.
Qed.

Lemma Budget_mapOrdering_default (o : string) :
  o ∉ BudgetSmartphoneDeals.case_labels ->
  BudgetSmartphoneDeals.mapOrdering o = Orderby "DATE" "DESC".
Proof.
  unfold BudgetSmartphoneDeals.case_labels, BudgetSmartphoneDeals.mapOrdering.
  intros Hno.
  repeat match goal with
         | |- context [String.eqb o ?l] =>
             destruct (String.eqb_spec o l) as [-> | _];
             [ exfalso; apply Hno; set_solver | ]
         end.
  reflexivity.
Qed.

Lemma NewIphones_mapOrdering_range (o : string) :
  field (NewIphones.mapOrdering o) ∈ ["DATE"; "PRICE"; "TITLE"] /\
  order (NewIphones.mapOrdering o) ∈ ["ASC"; "DESC"].
Proof.
  unfold NewIphones.mapOrdering.
  repeat match goal with
         | |- context [String.eqb o ?l] => destruct (String.eqb o l)
         end; cbn; split; set_solver.
Qed.

Lemma Budget_mapOrdering_range (o : string) :
  field (BudgetSmartphoneDeals.mapOrdering o) ∈ ["DATE"; "PRICE"; "TITLE"] /\
  order (BudgetSmartphoneDeals.mapOrdering o) ∈ ["ASC"; "DESC"].
Proof.
  unfold BudgetSmartphoneDeals.mapOrdering.
  repeat match goal with
         | |- context [String.eqb o ?l] => destruct (String.eqb o l)
         end; cbn; split; set_solver.
Qed.

(** C5.  On each listing page [mapOrdering] is total on strings: its field
    is one of DATE, PRICE, TITLE and its order one of ASC, DESC; "name"
    gives (TITLE, ASC), "-created_at" gives (DATE, DESC), the page's
    ascending-price option ("new_price_ksh" on NewIphones, "price_min_ksh"
    on BudgetSmartphoneDeals) gives (PRICE, ASC) and its "-" variant
    (PRICE, DESC); every string that is not a case label of the page's
    switch, the empty string included, gives the default (DATE, DESC). *)
Theorem mapOrdering_total (o : string) :
  (field (NewIphones.mapOrdering o) ∈ ["DATE"; "PRICE"; "TITLE"] /\
   order (NewIphones.mapOrdering o) ∈ ["ASC"; "DESC"]) /\
  (field (BudgetSmartphoneDeals.mapOrdering o) ∈ ["DATE"; "PRICE"; "TITLE"] /\
   order (BudgetSmartphoneDeals.mapOrdering o) ∈ ["ASC"; "DESC"]) /\
  (NewIphones.mapOrdering "name" = Orderby "TITLE" "ASC" /\
   NewIphones.mapOrdering "-created_at" = Orderby "DATE" "DESC" /\
   NewIphones.mapOrdering "new_price_ksh" = Orderby "PRICE" "ASC" /\
   NewIphones.mapOrdering "-new_price_ksh" = Orderby "PRICE" "DESC") /\
  (BudgetSmartphoneDeals.mapOrdering "name" = Orderby "TITLE" "ASC" /\
   BudgetSmartphoneDeals.mapOrdering "-created_at" = Orderby "DATE" "DESC" /\
   BudgetSmartphoneDeals.mapOrdering "price_min_ksh" = Orderby "PRICE" "ASC" /\
   BudgetSmartphoneDeals.mapOrdering "-price_min_ksh"
     = Orderby "PRICE" "DESC") /\
  (o ∉ NewIphones.case_labels ->
   NewIphones.mapOrdering o = Orderby "DATE" "DESC") /\
  (o ∉ BudgetSmartphoneDeals.case_labels ->
   BudgetSmartphoneDeals.mapOrdering o = Orderby "DATE" "DESC") /\
  NewIphones.mapOrdering "" = Orderby "DATE" "DESC" /\
  BudgetSmartphoneDeals.mapOrdering "" = Orderby "DATE" "DESC".
Proof.
  split; [apply NewIphones_mapOrdering_range |].
  split; [apply Budget_mapOrdering_range |].
  split; [repeat split; reflexivity |].
  split; [repeat split; reflexivity |].
  split; [apply NewIphones_mapOrdering_default |].
  split; [apply Budget_mapOrdering_default |].
  split; reflexivity.
Qed.

(** ** Cursor-stack pagination *)

Section Pagination.
Import JS Listing.
Variable c : component.

(** A slot is settled when [|| null] leaves it as it is: it holds [null]
    or a non-empty cursor. *)
Definition settled (v : cursor) : Prop := or_null v = v.

Lemma or_null_settled v : settled (or_null v).
Proof.
  unfold settled. destruct v as [| | s]; cbn; try reflexivity.
  destruct (decide (s = "")) as [-> | Hs]; cbn; [reflexivity |].
  destruct (decide (s = "")); [contradiction | reflexivity].
Qed.

Lemma or_null_cursor s : s <> "" -> or_null (Cursor s) = Cursor s.
Proof. intros Hs. cbn. destruct (decide (s = "")); [contradiction | reflexivity]. Qed.

(** The invariant behind the claim: the page is at least 1, the stack
    has a slot for every page up to the current one, slot 0 is [null]
    and no slot is a hole or an empty string. *)
Record inv (s : state) : Prop := Inv {
  inv_page : 1 <= page s;
  inv_len : (Z.to_nat (page s) <= length (endCursorStack s))%nat;
  inv_zero : endCursorStack s !! 0%nat = Some Null;
  inv_settled : Forall settled (endCursorStack s)
}.

Lemma inv_init : inv init.
Proof.
  split; cbn; [lia | lia | reflexivity |].
  repeat constructor.
Qed.

Lemma inv_reset s : inv (fst (reset s)).
Proof.
  split; cbn; [lia | lia | reflexivity |].
  repeat constructor.
Qed.

Lemma set_in_range (arr : list cursor) (i : Z) (v : cursor) :
  0 <= i -> (Z.to_nat i <= length arr)%nat ->
  set arr i v = if decide (Z.to_nat i < length arr)%nat
                then <[Z.to_nat i := v]> arr else (arr ++ [v])%list.
Proof.
  intros Hi Hlen. unfold set.
  destruct (decide (i < 0)); [lia |].
  destruct (decide (Z.to_nat i < length arr)%nat); [reflexivity |].
  replace (Z.to_nat i - length arr)%nat with 0%nat by lia. reflexivity.
Qed.

Lemma set_lookup_same (arr : list cursor) (i : Z) (v : cursor) :
  0 <= i -> (Z.to_nat i <= length arr)%nat ->
  set arr i v !! Z.to_nat i = Some v.
Proof.
  intros Hi Hlen. rewrite set_in_range by assumption.
  destruct (decide (Z.to_nat i < length arr)%nat).
  - by apply list_lookup_insert_eq.
  - rewrite lookup_app_r by lia.
    replace (Z.to_nat i - length arr)%nat with 0%nat by lia. reflexivity.
Qed.

Lemma set_lookup_below (arr : list cursor) (i : Z) (v : cursor) (j : nat) :
  0 <= i -> (Z.to_nat i <= length arr)%nat -> (j < Z.to_nat i)%nat ->
  set arr i v !! j = arr !! j.
Proof.
  intros Hi Hlen Hj. rewrite set_in_range by assumption.
  destruct (decide (Z.to_nat i < length arr)%nat).
  - apply list_lookup_insert_ne. lia.
  - apply lookup_app_l. lia.
Qed.

Lemma set_length (arr : list cursor) (i : Z) (v : cursor) :
  0 <= i -> (Z.to_nat i <= length arr)%nat ->
  (Z.to_nat i < length (set arr i v))%nat.
Proof.
  intros Hi Hlen. rewrite set_in_range by assumption.
  destruct (decide (Z.to_nat i < length arr)%nat).
  - by rewrite length_insert.
  - rewrite length_app. cbn. lia.
Qed.

Lemma set_settled (arr : list cursor) (i : Z) (v : cursor) :
  0 <= i -> (Z.to_nat i <= length arr)%nat ->
  settled v -> Forall settled arr -> Forall settled (set arr i v).
Proof.
  intros Hi Hlen Hv Harr. rewrite set_in_range by assumption.
  destruct (decide (Z.to_nat i < length arr)%nat).
  - by apply Forall_insert.
  - apply Forall_app. split; [assumption | by constructor].
Qed.

Lemma inv_goNext s : inv s -> inv (fst (goNext s)).
Proof.
  intros [Hp Hl H0 Hs]. unfold goNext.
  destruct (hasNext s); cbn; [| by split].
  split; cbn.
  - lia.
  - pose proof (set_length (endCursorStack s) (page s) (current_after s)
                  ltac:(lia) Hl). lia.
  - rewrite set_lookup_below; [assumption | lia | assumption | lia].
  - apply set_settled; [lia | assumption | apply or_null_settled | assumption].
Qed.

Lemma inv_goPrev s : inv s -> inv (fst (goPrev s)).
Proof.
  intros [Hp Hl H0 Hs]. unfold goPrev.
  destruct (hasPrev s); cbn; [| by split].
  split; cbn; [lia | lia | assumption | assumption].
Qed.

Lemma inv_step e s : inv s -> inv (fst (step c e s)).
Proof.
  intros Hinv. destruct e as [| | v | v | v | d]; cbn.
  - by apply inv_goNext.
  - by apply inv_goPrev.
  - unfold setSearch. destruct (decide (v = search s)); [assumption |].
    apply inv_reset.
  - unfold setOrdering. destruct (decide (v = ordering s)); [assumption |].
    apply inv_reset.
  - unfold setFilter. destruct (decide (v = select_filter s)); [assumption |].
    destruct c; [apply inv_reset |].
    destruct Hinv. by split.
  - destruct Hinv. by split.
Qed.

Lemma reachable_inv s : reachable c s -> inv s.
Proof.
  induction 1 as [| e s _ IH]; [apply inv_init | by apply inv_step].
Qed.

(** Under the invariant the reads [stack[i] || null] return the slot
    itself. *)
Lemma get_settled (arr : list cursor) (i : Z) :
  0 <= i -> (Z.to_nat i < length arr)%nat -> Forall settled arr ->
  arr !! Z.to_nat i = Some (or_null (get arr i)).
Proof.
  intros Hi Hlen Hall. unfold get. destruct (decide (i < 0)); [lia |].
  destruct (lookup_lt_is_Some_2 arr (Z.to_nat i) Hlen) as [v Hv].
  rewrite Hv. cbn. f_equal. symmetry.
  eapply Forall_lookup_1 in Hall; [| exact Hv]. exact Hall.
Qed.

Lemma query_after_slot s :
  inv s -> endCursorStack s !! Z.to_nat (page s - 1) = Some (query_after s).
Proof.
  intros [Hp Hl H0 Hs]. apply get_settled; [lia | lia | assumption].
Qed.

Lemma query_after_first s : inv s -> page s = 1 -> query_after s = Null.
Proof.
  intros Hinv Hp1. pose proof (query_after_slot s Hinv) as Hq.
  rewrite Hp1 in Hq. change (Z.to_nat (1 - 1)) with 0%nat in Hq.
  destruct Hinv as [_ _ H0 _]. congruence.
Qed.

Lemma goNext_noop s : hasNext s = false -> goNext s = (s, []).
Proof. intros H. unfold goNext. by rewrite H. Qed.

Lemma goPrev_noop s : page s = 1 -> goPrev s = (s, []).
Proof.
  intros H. unfold goPrev, hasPrev. rewrite H.
  reflexivity.
Qed.

Lemma goNext_spec s :
  inv s -> hasNext s = true ->
  let s' := fst (goNext s) in
  snd (goNext s) = [FetchMore (current_after s)] /\
  page s' = page s + 1 /\
  endCursorStack s' !! Z.to_nat (page s) = Some (current_after s) /\
  (forall j, (j < Z.to_nat (page s))%nat ->
             endCursorStack s' !! j = endCursorStack s !! j) /\
  query_after s' = current_after s.
Proof.
  intros Hinv Hn. pose proof (inv_goNext s Hinv) as Hinv'.
  pose proof (query_after_slot _ Hinv') as Hq.
  destruct Hinv as [Hp Hl H0 Hs].
  unfold goNext in *. rewrite Hn in *. cbn in *.
  assert (Hsame : set (endCursorStack s) (page s) (current_after s)
                    !! Z.to_nat (page s) = Some (current_after s))
    by (apply set_lookup_same; [lia | assumption]).
  repeat split; try assumption.
  - intros j Hj. apply set_lookup_below; [lia | assumption | assumption].
  - replace (page s + 1 - 1) with (page s) in Hq by lia. congruence.
Qed.

Lemma goPrev_spec s :
  inv s -> 1 < page s ->
  let s' := fst (goPrev s) in
  snd (goPrev s) = [Refetch (or_null (get (endCursorStack s) (page s - 2)))] /\
  endCursorStack s !! Z.to_nat (page s - 2)
    = Some (or_null (get (endCursorStack s) (page s - 2))) /\
  page s' = page s - 1 /\
  endCursorStack s' = endCursorStack s /\
  query_after s' = or_null (get (endCursorStack s) (page s - 2)).
Proof.
  intros [Hp Hl H0 Hs] Hgt. unfold goPrev, hasPrev.
  rewrite bool_decide_eq_true_2 by assumption. cbn.
  replace (Z.max 0 (page s - 2)) with (page s - 2) by lia.
  replace (Z.max 1 (page s - 1)) with (page s - 1) by lia.
  repeat split.
  - apply get_settled; [lia | lia | assumption].
  - unfold query_after. cbn. by replace (page s - 1 - 1) with (page s - 2) by lia.
Qed.

Lemma goNext_goPrev s :
  inv s -> hasNext s = true ->
  let s1 := fst (goNext s) in
  let s2 := fst (goPrev s1) in
  snd (goPrev s1) = [Refetch (query_after s)] /\
  page s2 = page s /\
  query_after s2 = query_after s.
Proof.
  intros Hinv Hn s1 s2.
  pose proof (inv_goNext s Hinv) as Hinv1. fold s1 in Hinv1.
  destruct (goNext_spec s Hinv Hn) as (_ & Hp1 & _ & Hbelow & _).
  fold s1 in Hp1, Hbelow.
  assert (Hgt : 1 < page s1) by (destruct Hinv; lia).
  destruct (goPrev_spec s1 Hinv1 Hgt) as (Hreq & Hslot & Hp2 & _ & Hq2).
  fold s2 in Hp2, Hq2.
  assert (Hsame : or_null (get (endCursorStack s1) (page s1 - 2)) = query_after s).
  { pose proof (query_after_slot s Hinv) as Hq.
    rewrite Hp1 in Hslot.
    replace (page s + 1 - 2) with (page s - 1) in Hslot by lia.
    rewrite Hbelow in Hslot by (destruct Hinv; lia).
    rewrite Hp1. replace (page s + 1 - 2) with (page s - 1) by lia.
    congruence. }
  rewrite Hsame in *. repeat split; [assumption | lia | assumption].
Qed.

Lemma setSearch_resets v s :
  v <> search s ->
  page (fst (setSearch v s)) = 1 /\
  endCursorStack (fst (setSearch v s)) = [Null] /\
  snd (setSearch v s) = [Refetch Null].
Proof.
  intros Hv. unfold setSearch. destruct (decide (v = search s)); [contradiction |].
  by cbn.
Qed.

Lemma setOrdering_resets v s :
  v <> ordering s ->
  page (fst (setOrdering v s)) = 1 /\
  endCursorStack (fst (setOrdering v s)) = [Null] /\
  snd (setOrdering v s) = [Refetch Null].
Proof.
  intros Hv. unfold setOrdering. destruct (decide (v = ordering s)); [contradiction |].
  by cbn.
Qed.

(** C1.  In every reachable state of a listing page: [page >= 1] and
    [endCursorStack[0]] is [null]; the [after] variable of the products
    query is the slot [endCursorStack[page - 1]] ([null] on page 1);
    [goNext] does nothing when [hasNextPage] is false and otherwise
    writes the current end cursor (the handler's [after], i.e.
    [endCursor || null]) at index [page], leaves the slots below it,
    moves to [page + 1] and fetches with that cursor; [goPrev] does
    nothing on page 1 and otherwise refetches with
    [endCursorStack[page - 2]] and moves to [page - 1]; [goNext] followed
    by [goPrev] refetches with the cursor the query had before; a changed
    search or ordering puts the page back to 1 and the stack to [[null]]. *)
Theorem pagination_invariant (s : state) :
  reachable c s ->
  (1 <= page s /\ get (endCursorStack s) 0 = Null) /\
  (endCursorStack s !! Z.to_nat (page s - 1) = Some (query_after s) /\
   (page s = 1 -> query_after s = Null)) /\
  (hasNext s = false -> goNext s = (s, [])) /\
  (hasNext s = true ->
   snd (goNext s) = [FetchMore (current_after s)] /\
   page (fst (goNext s)) = page s + 1 /\
   endCursorStack (fst (goNext s)) !! Z.to_nat (page s)
     = Some (current_after s) /\
   (forall j, (j < Z.to_nat (page s))%nat ->
      endCursorStack (fst (goNext s)) !! j = endCursorStack s !! j) /\
   query_after (fst (goNext s)) = current_after s) /\
  (forall pi, data s = Some pi -> endCursor pi <> Cursor "" ->
     endCursor pi <> Undefined -> current_after s = endCursor pi) /\
  (page s = 1 -> goPrev s = (s, [])) /\
  (1 < page s ->
   snd (goPrev s)
     = [Refetch (or_null (get (endCursorStack s) (page s - 2)))] /\
   endCursorStack s !! Z.to_nat (page s - 2)
     = Some (or_null (get (endCursorStack s) (page s - 2))) /\
   page (fst (goPrev s)) = page s - 1 /\
   endCursorStack (fst (goPrev s)) = endCursorStack s /\
   query_after (fst (goPrev s))
     = or_null (get (endCursorStack s) (page s - 2))) /\
  (hasNext s = true ->
   snd (goPrev (fst (goNext s))) = [Refetch (query_after s)] /\
   page (fst (goPrev (fst (goNext s)))) = page s /\
   query_after (fst (goPrev (fst (goNext s)))) = query_after s) /\
  (forall v, v <> search s ->
     page (fst (step c (SetSearch v) s)) = 1 /\
     endCursorStack (fst (step c (SetSearch v) s)) = [Null] /\
     snd (step c (SetSearch v) s) = [Refetch Null]) /\
  (forall v, v <> ordering s ->
     page (fst (step c (SetOrdering v) s)) = 1 /\
     endCursorStack (fst (step c (SetOrdering v) s)) = [Null] /\
     snd (step c (SetOrdering v) s) = [Refetch Null]).
Proof.
  intros Hr. pose proof (reachable_inv s Hr) as Hinv.
  split.
  { destruct Hinv as [Hp _ H0 _]. split; [assumption |].
    unfold get. destruct (decide (0 < 0)); [lia |].
    change (Z.to_nat 0) with 0%nat. by rewrite H0. }
  split.
  { split; [by apply query_after_slot | by apply query_after_first]. }
  split; [apply goNext_noop |].
  split; [by apply goNext_spec |].
  split.
  { intros pi Hd Hne Hnu. unfold current_after. rewrite Hd.
    destruct (endCursor pi) as [| | x]; [congruence | reflexivity |].
    apply or_null_cursor. congruence. }
  split; [apply goPrev_noop |].
  split; [by apply goPrev_spec |].
  split; [by apply goNext_goPrev |].
  split; intros v Hv; cbn [step].
  - by apply setSearch_resets.
  - by apply setOrdering_resets.
Qed.

End Pagination.

(** A concrete run: the first page arrives with a next page and the end
    cursor "YXJyOjEy", the user pages forward, the second page arrives. *)
Definition pagination_run : list Listing.event :=
  [Listing.Receive (Some (Listing.PageInfo true (JS.Cursor "YXJyOjEy")));
   Listing.GoNext;
   Listing.Receive (Some (Listing.PageInfo true (JS.Cursor "YXJyOjI0")))].

Lemma reachable_run c es s :
  Listing.reachable c s -> Listing.reachable c (Listing.run c es s).
Proof.
  revert s. induction es as [| e es IH]; intros s Hs; cbn; [assumption |].
  apply IH. by constructor.
Qed.

Lemma pagination_invariant_witness :
  Listing.page
    (fst (Listing.goPrev
       (fst (Listing.goNext
          (Listing.run Listing.NewIphonesPage pagination_run Listing.init)))))
  = 2.
Proof.
  pose proof (pagination_invariant Listing.NewIphonesPage
                (Listing.run Listing.NewIphonesPage pagination_run Listing.init)
                (reachable_run _ _ _ (Listing.reach_init _))) as H.
  destruct H as (_ & _ & _ & _ & _ & _ & _ & H & _).
  destruct (H eq_refl) as (_ & Hp & _). exact Hp.
Defined.

(** ** Strings *)

Section Strings.
Import Str.

Lemma lower_upper_char c : lower_char (upper_char c) = lower_char c.
Proof. destruct c as [[] [] [] [] [] [] [] []]; reflexivity. Qed.

Lemma upper_lower_char c : upper_char (lower_char c) = upper_char c.
Proof. destruct c as [[] [] [] [] [] [] [] []]; reflexivity. Qed.

Lemma toLowerCase_toUpperCase s : toLowerCase (toUpperCase s) = toLowerCase s.
Proof.
  induction s as [| c s IH]; cbn; [reflexivity |].
  f_equal; [apply lower_upper_char | exact IH].
Qed.

Lemma toUpperCase_toLowerCase s : toUpperCase (toLowerCase s) = toUpperCase s.
Proof.
  induction s as [| c s IH]; cbn; [reflexivity |].
  f_equal; [apply upper_lower_char | exact IH].
Qed.

(** Comparing upper-cased strings and comparing lower-cased strings is
    the same comparison. *)
Lemma upper_eq_iff_lower_eq a b :
  toUpperCase a = toUpperCase b <-> toLowerCase a = toLowerCase b.
Proof.
  split; intros H.
  - rewrite <- (toLowerCase_toUpperCase a), <- (toLowerCase_toUpperCase b).
    by rewrite H.
  - rewrite <- (toUpperCase_toLowerCase a), <- (toUpperCase_toLowerCase b).
    by rewrite H.
Qed.

Lemma toLowerCase_empty s : toLowerCase s = "" -> s = "".
Proof. destruct s; [reflexivity | discriminate]. Qed.

Lemma startsWith_spec s t :
  startsWith s t = true <-> exists post, s = t ++ post.
Proof.
  revert s. induction t as [| b t IH]; intros s; cbn.
  - split; [intros _; by exists s | intros _; by destruct s].
  - destruct s as [| a s]; cbn.
    + split; [discriminate | intros [post Hp]; discriminate].
    + rewrite andb_true_iff, IH, Ascii.eqb_eq. split.
      * intros [-> [post ->]]. by exists post.
      * intros [post Hp]. injection Hp as -> ->. split; [reflexivity | by exists post].
Qed.

Lemma includes_spec s t :
  includes s t = true <-> exists pre post, s = pre ++ t ++ post.
Proof.
  induction s as [| a s IH].
  - destruct t as [| b t]; cbn.
    + split; [intros _; by exists "", "" | reflexivity].
    + split; [discriminate | intros (pre & post & H); destruct pre; discriminate].
  - change (includes (String a s) t)
      with (startsWith (String a s) t || includes s t).
    rewrite orb_true_iff, startsWith_spec, IH. split.
    + intros [[post Hp] | [pre [post Hp]]].
      * by exists "", post.
      * exists (String a pre), post. cbn. by rewrite Hp.
    + intros [pre [post Hp]]. destruct pre as [| a' pre]; cbn in Hp.
      * left. by exists post.
      * right. injection Hp as -> ->. by exists pre, post.
Qed.

End Strings.

(** ** Client-side filters of BudgetSmartphoneDeals *)

(** Equality up to letter case. *)
Definition ci_equal (a b : string) : Prop :=
  Str.toLowerCase a = Str.toLowerCase b.

(** [t] occurs in [s] up to letter case. *)
Definition ci_substring (t s : string) : Prop :=
  exists pre post, Str.toLowerCase s = pre ++ Str.toLowerCase t ++ post.

Section Filters.
Import BudgetSmartphoneDeals.

Lemma brandOk_spec sel p :
  brandOk sel p = true <-> sel = "All" \/ ci_equal (brand p) sel.
Proof.
  unfold brandOk, ci_equal. by rewrite orb_true_iff, !String.eqb_eq.
Qed.

Lemma badgeOk_spec sel p :
  badgeOk sel p = true <-> sel = "All" \/ ci_equal (badge p) sel.
Proof.
  unfold badgeOk, ci_equal.
  by rewrite orb_true_iff, !String.eqb_eq, upper_eq_iff_lower_eq.
Qed.

Lemma ci_substring_nonempty t s : ci_substring t s -> t <> "" -> s <> "".
Proof.
  intros (pre & post & H) Ht ->. cbn in H.
  destruct pre; [| discriminate]. cbn in H.
  destruct (Str.toLowerCase t) eqn:E; [| discriminate].
  by apply toLowerCase_empty in E.
Qed.

Lemma searchOk_spec search p :
  searchOk search p = true <->
  search = "" \/
  (exists n, name p = Some n /\ ci_substring search n) \/
  ci_substring search (brand p) \/
  ci_substring search (category p).
Proof.
  unfold searchOk. rewrite orb_true_iff, String.eqb_eq, existsb_exists.
  destruct (String.eqb_spec search "") as [-> | Hne]; [tauto |].
  split.
  - intros [Hs | (t & Hin & Hinc)]; [by left | right].
    unfold search_texts in Hin. apply filter_In in Hin as [Hin _].
    apply includes_spec in Hinc.
    apply in_app_or in Hin as [Hin | Hin].
    + left. destruct (name p) as [n |]; [| destruct Hin].
      destruct Hin as [-> | []]. by exists t.
    + destruct Hin as [<- | [<- | []]]; [right; by left | right; by right].
  - intros [Hs | Hsub]; [by left | right].
    assert (Hex : exists t, In t (match name p with Some n => [n] | None => [] end
                                  ++ [brand p; category p])%list
                            /\ ci_substring search t).
    { destruct Hsub as [(n & Hn & Hsub) | [Hsub | Hsub]].
      - exists n. rewrite Hn. split; [by left | assumption].
      - exists (brand p). split; [| assumption].
        apply in_or_app. right. by left.
      - exists (category p). split; [| assumption].
        apply in_or_app. right. right. by left. }
    destruct Hex as (t & Hin & Hsub'). exists t. split.
    + unfold search_texts. apply filter_In. split; [assumption |].
      apply negb_true_iff, String.eqb_neq.
      by apply (ci_substring_nonempty search).
    + by apply includes_spec.
Qed.

Lemma filter_sublist {A} (f : A -> bool) (l : list A) :
  sublist (List.filter f l) l.
Proof.
  induction l as [| x l IH]; cbn; [constructor |].
  destruct (f x); by constructor.
Qed.

(** C7.  An item is in the filtered grid exactly when it was fetched and
    (the brand select is "All" or equals the item's brand up to case) and
    (the badge select is "All" or equals the item's badge up to case) and
    (the search box is empty or its text occurs, up to case, in the
    item's name, brand or category).  The filtered list is a sublist of
    the fetched items in their order, and with "All", "All" and an empty
    search it is the fetched list. *)
Theorem filtered_spec (brand_sel badge_sel search : string)
                      (items : list item) :
  (forall p,
     In p (filtered brand_sel badge_sel search items) <->
     In p items /\
     (brand_sel = "All" \/ ci_equal (brand p) brand_sel) /\
     (badge_sel = "All" \/ ci_equal (badge p) badge_sel) /\
     (search = "" \/
      (exists n, name p = Some n /\ ci_substring search n) \/
      ci_substring search (brand p) \/
      ci_substring search (category p))) /\
  sublist (filtered brand_sel badge_sel search items) items /\
  filtered "All" "All" "" items = items.
Proof.
  split; [| split].
  - intros p. unfold filtered.
    rewrite filter_In, !andb_true_iff, brandOk_spec, badgeOk_spec, searchOk_spec.
    tauto.
  - apply filter_sublist.
  - unfold filtered. induction items as [| p items IH]; [reflexivity |].
    cbn [List.filter].
    change (brandOk "All" p && badgeOk "All" p && searchOk "" p) with true.
    by rewrite IH.
Qed.

End Filters.

(** The grid of three fetched phones under the brand "samsung" and the
    search text "GAL". *)
Example filtered_example :
  BudgetSmartphoneDeals.filtered "samsung" "All" "GAL"
    [BudgetSmartphoneDeals.Item (Some "Galaxy A05") "Samsung" "Phones" "OPEN";
     BudgetSmartphoneDeals.Item None "Samsung" "" "";
     BudgetSmartphoneDeals.Item (Some "Hot 40") "Infinix" "galaxy-like" "OPEN HOT"]
  = [BudgetSmartphoneDeals.Item (Some "Galaxy A05") "Samsung" "Phones" "OPEN"].
Proof. reflexivity. Qed.

(** ** Price display *)

(** The first truthy value of a list, [null] when there is none. *)
Fixpoint first_truthy (vs : list (option json)) : option json :=
  match vs with
  | [] => Some JNull
  | v :: rest => if Value.truthy_opt v then v else first_truthy rest
  end.

(** A raw price as the server sends it: a non-empty text or a number. *)
Definition price_text (v : json) : Prop :=
  match v with
  | JStr s => s <> ""
  | JNum _ => True
  | _ => False
  end.

Section Prices.
Variable toLocaleString : Q -> string.

Lemma strip_chars s :
  list_ascii_of_string (Num.strip s)
  = List.filter Num.is_digit_or_dot (list_ascii_of_string s).
Proof.
  unfold Num.strip. induction s as [| c s IH]; cbn; [reflexivity |].
  destruct (Num.is_digit_or_dot c); cbn; by rewrite IH.
Qed.

Lemma Laptops_money_present v :
  price_text v ->
  Laptops.money toLocaleString (Some v)
  = match Num.of_stripped (Num.strip (Value.to_string v)) with
    | None => Value.to_string v
    | Some n => "Ksh " ++ toLocaleString n
    end.
Proof.
  unfold Laptops.money. destruct v as [| b | n | s | l | f]; cbn; try tauto.
  - intros _. destruct (n =? 0)%Z eqn:E; cbn; [| reflexivity].
    apply Z.eqb_eq in E. by subst.
  - intros Hs. destruct (String.eqb_spec s ""); [contradiction | reflexivity].
Qed.

Lemma Budget_money_present v :
  price_text v ->
  BudgetSmartphoneDeals.money toLocaleString (Some v)
  = match Num.of_stripped (Num.strip (Value.to_string v)) with
    | None => Some (Value.to_string v)
    | Some n => Some (toLocaleString n ++ " KSh")
    end.
Proof.
  unfold BudgetSmartphoneDeals.money.
  destruct v as [| b | n | s | l | f]; cbn; try tauto.
  intros Hs. destruct s; [contradiction | reflexivity].
Qed.

Lemma normalize_price n :
  Laptops.product_price (Laptops.normalize toLocaleString n)
  = Laptops.money toLocaleString
      (first_truthy [Laptops.salePrice n; Laptops.price n;
                     Laptops.regularPrice n]).
Proof.
  unfold Laptops.normalize, Value.or. cbn.
  destruct (Value.truthy_opt (Laptops.salePrice n)) eqn:E1; cbn; rewrite ?E1.
  - reflexivity.
  - destruct (Value.truthy_opt (Laptops.price n)) eqn:E2; cbn; rewrite ?E2.
    + reflexivity.
    + by destruct (Value.truthy_opt (Laptops.regularPrice n)).
Qed.

Lemma normalize_oldPrice n old :
  Laptops.product_oldPrice (Laptops.normalize toLocaleString n) = Some old ->
  Value.truthy_opt (Laptops.onSale n) = true /\
  Value.truthy_opt (Laptops.regularPrice n) = true /\
  old = Laptops.money toLocaleString (Laptops.regularPrice n).
Proof.
  unfold Laptops.normalize. cbn.
  destruct (Value.truthy_opt (Laptops.onSale n)); cbn; [| discriminate].
  destruct (Value.truthy_opt (Laptops.regularPrice n)) eqn:E; cbn;
    [| discriminate].
  rewrite E. intros [= <-]. by repeat split.
Qed.

(** C6.  The price shown for a product node is [money] of the first
    truthy of salePrice, price, regularPrice; an old price is produced
    only when onSale is truthy and regularPrice is set, and then it is
    [money] of regularPrice.  [money] keeps of the raw text exactly the
    digits and dots, in their order; when what remains is a numeral [n]
    the result is [n.toLocaleString()] with the currency marker ("Ksh "
    in front in the laptops section, " KSh" behind on
    BudgetSmartphoneDeals), otherwise it is the raw text itself; a
    missing, [null] or empty raw value gives the empty display value
    (the empty string, resp. [null]). *)
Theorem price_display_spec :
  (forall n,
     Laptops.product_price (Laptops.normalize toLocaleString n)
     = Laptops.money toLocaleString
         (first_truthy [Laptops.salePrice n; Laptops.price n;
                        Laptops.regularPrice n])) /\
  (forall n old,
     Laptops.product_oldPrice (Laptops.normalize toLocaleString n) = Some old ->
     Value.truthy_opt (Laptops.onSale n) = true /\
     Value.truthy_opt (Laptops.regularPrice n) = true /\
     old = Laptops.money toLocaleString (Laptops.regularPrice n)) /\
  (forall s,
     list_ascii_of_string (Num.strip s)
     = List.filter Num.is_digit_or_dot (list_ascii_of_string s)) /\
  (forall v n,
     price_text v ->
     Num.of_stripped (Num.strip (Value.to_string v)) = Some n ->
     Laptops.money toLocaleString (Some v) = "Ksh " ++ toLocaleString n /\
     BudgetSmartphoneDeals.money toLocaleString (Some v)
     = Some (toLocaleString n ++ " KSh")) /\
  (forall v,
     price_text v ->
     Num.of_stripped (Num.strip (Value.to_string v)) = None ->
     Laptops.money toLocaleString (Some v) = Value.to_string v /\
     BudgetSmartphoneDeals.money toLocaleString (Some v)
     = Some (Value.to_string v)) /\
  (forall raw,
     raw = None \/ raw = Some JNull \/ raw = Some (JStr "") ->
     Laptops.money toLocaleString raw = "" /\
     BudgetSmartphoneDeals.money toLocaleString raw = None).
Proof.
  split; [apply normalize_price |].
  split; [apply normalize_oldPrice |].
  split; [apply strip_chars |].
  split; [| split].
  - intros v n Hv Hn.
    rewrite Laptops_money_present, Budget_money_present by assumption.
    by rewrite Hn.
  - intros v Hv Hn.
    rewrite Laptops_money_present, Budget_money_present by assumption.
    by rewrite Hn.
  - intros raw [-> | [-> | ->]]; by split.
Qed.

End Prices.

(** The displayed prices of a node on sale, with a host that prints a
    number as numerator/denominator. *)
Example price_display_example :
  let show (q : Q) := pretty (Qnum q) ++ "/" ++ pretty (Zpos (Qden q)) in
  Laptops.normalize show
    (Laptops.Node (Some (JStr "KSh 45,000.00")) (Some (JStr "KSh 45,000.00"))
                  (Some (JStr "KSh 52,500.50")) (Some (JBool true)))
  = Laptops.Product "Ksh 45000/1" (Some "Ksh 105001/2") /\
  Laptops.money show (Some (JStr "KSh1,000.00 - KSh2,000.00"))
  = "KSh1,000.00 - KSh2,000.00" /\
  BudgetSmartphoneDeals.money show (Some (JStr "1299")) = Some "1299/1 KSh".
Proof. vm_compute. repeat split. Qed.

(** ** The cart badge *)

Section Badge.
Import CartBadge.

Definition field_nonneg (f : field) : Prop :=
  match f with Numeric n => 0 <= n | _ => True end.

(** What the listener is sent is non-negative where it is taken as it
    is: the count, and the quantities of the items. *)
Definition detail_nonneg (d : detail) : Prop :=
  (forall n, count d = Some n -> 0 <= n) /\
  (forall its it, items d = Some its -> In (Some it) its ->
     field_nonneg (quantity it) /\ field_nonneg (qty it)).

Definition event_nonneg (e : event) : Prop :=
  match e with CartUpdated d => detail_nonneg d | Logout => True end.

Lemma item_quantity_nonneg it :
  (forall i, it = Some i -> field_nonneg (quantity i) /\ field_nonneg (qty i)) ->
  0 <= item_quantity it.
Proof.
  destruct it as [[q q'] |]; [| intros _; unfold item_quantity; lia].
  intros H. destruct (H _ eq_refl) as [Hq Hq'].
  destruct q as [| n |], q' as [| n' |];
    cbv [item_quantity coalesce quantity qty field_nonneg] in *; lia.
Qed.

Lemma fold_quantities_nonneg its acc :
  0 <= acc ->
  (forall it, In (Some it) its ->
     field_nonneg (quantity it) /\ field_nonneg (qty it)) ->
  0 <= fold_left (fun a it => a + item_quantity it) its acc.
Proof.
  revert acc. induction its as [| it its IH]; intros acc Hacc Hall; cbn;
    [assumption |].
  apply IH.
  - pose proof (item_quantity_nonneg it) as Hq.
    assert (0 <= item_quantity it).
    { apply Hq. intros i ->. apply Hall. by left. }
    lia.
  - intros it' Hin. apply Hall. by right.
Qed.

Lemma fold_quantities_sum its acc :
  fold_left (fun a it => a + item_quantity it) its acc
  = fold_left Z.add (List.map item_quantity its) acc.
Proof.
  revert acc. induction its as [| it its IH]; intros acc; cbn;
    [reflexivity | apply IH].
Qed.

Lemma step_nonneg authed c e :
  event_nonneg e -> 0 <= c -> 0 <= step authed c e.
Proof.
  destruct e as [[cn its dl] |]; cbn; [| intros; unfold handleLogout; lia].
  intros [Hc Hi] Hpos. unfold onCartUpdated. cbn in *.
  destruct cn as [n |]; cbn; [by apply Hc |].
  destruct its as [l |]; cbn.
  - apply fold_quantities_nonneg; [lia |]. intros it Hin. by eapply Hi.
  - destruct dl as [d |]; cbn; lia.
Qed.

Lemma fold_step_nonneg authed es c :
  Forall event_nonneg es -> 0 <= c -> 0 <= fold_left (step authed) es c.
Proof.
  revert c. induction es as [| e es IH]; intros c Hall Hc; cbn; [assumption |].
  inversion Hall as [| ? ? He Hes]; subst.
  apply IH; [assumption |]. by apply step_nonneg.
Qed.

(** C10 (amended).  Starting from 0, the badge stays non-negative along
    every sequence of cart-updated events and logouts whose count fields
    and item quantities are non-negative: a count replaces the badge, an
    items array replaces it with the sum of the quantities (each coerced
    to a number, 0 by default), a delta of either sign is applied as
    [max(0, current + delta)] and so never yields a negative badge, and
    logout puts the badge back to 0. *)
Theorem badge_nonneg (authed : bool) (es : list event) :
  Forall event_nonneg es ->
  0 <= badge authed es /\
  (forall c n its dl,
     fst (onCartUpdated authed (Detail (Some n) its dl) c) = n) /\
  (forall c its dl,
     fst (onCartUpdated authed (Detail None (Some its) dl) c)
     = fold_left Z.add (List.map item_quantity its) 0) /\
  (forall c dl,
     fst (onCartUpdated authed (Detail None None (Some dl)) c)
     = Z.max 0 (c + dl) /\
     0 <= fst (onCartUpdated authed (Detail None None (Some dl)) c)) /\
  (forall c, onCartUpdated authed (Detail None None None) c = (c, authed)) /\
  (forall c, step authed c Logout = 0).
Proof.
  intros Hall. split; [by apply fold_step_nonneg |].
  split; [reflexivity |].
  split.
  { intros c its dl. cbn. unfold derived. apply fold_quantities_sum. }
  split; [intros c dl; cbn; split; [reflexivity | lia] |].
  split; reflexivity.
Qed.

End Badge.

Lemma badge_nonneg_witness :
  0 <= CartBadge.badge true
         [CartBadge.CartUpdated (CartBadge.Detail (Some 3) None None);
          CartBadge.CartUpdated (CartBadge.Detail None None (Some (-5)));
          CartBadge.CartUpdated
            (CartBadge.Detail None
               (Some [Some (CartBadge.Item (CartBadge.Numeric 2) CartBadge.Nullish);
                      None;
                      Some (CartBadge.Item CartBadge.Nullish CartBadge.NotANumber)])
               None);
          CartBadge.Logout].
Proof.
  refine (proj1 (badge_nonneg true _ _)).
  constructor; [| constructor; [| constructor; [| constructor; [exact I | constructor]]]].
  - split; [intros n [= <-]; lia | intros its it [=]].
  - split; [intros n [=] | intros its it [=]].
  - split; [intros n [=] |].
    intros its it [= <-] [[= <-] | [[=] | [[= <-] | []]]]; cbn; split;
      try exact I; lia.
Defined.

(** A count field is stored as it comes: a negative count makes the badge
    negative. *)
Lemma badge_negative_count :
  CartBadge.badge true
    [CartBadge.CartUpdated (CartBadge.Detail (Some (-1)) None None)] = -1 /\
  CartBadge.badge true
    [CartBadge.CartUpdated (CartBadge.Detail (Some (-1)) None None)] < 0.
Proof. split; reflexivity. Qed.

(** ** The bearer token of the shared client *)

Section AuthLink.
Variable JSON_parse : string -> option json.

(** The empty text is not JSON. *)
Hypothesis JSON_parse_empty : JSON_parse "" = None.

Lemma getAuthToken_found (ls : gmap string string) raw v tok :
  ls !! "wpjwt" = Some raw -> JSON_parse raw = Some v ->
  Value.prop "authToken" v = Some tok -> Value.truthy tok = true ->
  Auth.getAuthToken JSON_parse ls = Some tok.
Proof.
  intros Hraw Hv Htok Ht. unfold Auth.getAuthToken. rewrite Hraw.
  destruct (String.eqb_spec raw "") as [-> | _]; [congruence |].
  rewrite Hv, Htok. cbn. by rewrite Ht.
Qed.

Lemma getAuthToken_none (ls : gmap string string) :
  ls !! "wpjwt" = None \/
  (exists raw, ls !! "wpjwt" = Some raw /\ JSON_parse raw = None) \/
  (exists raw v, ls !! "wpjwt" = Some raw /\ JSON_parse raw = Some v /\
                 Value.truthy_opt (Value.prop "authToken" v) = false) ->
  Auth.getAuthToken JSON_parse ls = None.
Proof.
  unfold Auth.getAuthToken.
  intros [-> | [(raw & -> & Hp) | (raw & v & -> & Hp & Hf)]];
    [reflexivity | |]; destruct (String.eqb raw ""); try reflexivity;
    rewrite Hp; [reflexivity |]. by rewrite Hf.
Qed.

(** C3.  When [localStorage] holds under "wpjwt" a text that parses as
    JSON with a truthy [authToken] (for a string: a non-empty one), the
    headers are the given headers with Authorization set to "Bearer "
    followed by the token; when the key is absent, the text does not
    parse, or [authToken] is missing or falsy (empty), the headers are
    the given ones and the Authorization entry is whatever it was. *)
Theorem authLink_spec (ls : gmap string string)
                      (headers : option (gmap string string)) :
  (forall raw v tok,
     ls !! "wpjwt" = Some raw -> JSON_parse raw = Some v ->
     Value.prop "authToken" v = Some tok -> Value.truthy tok = true ->
     Auth.authLink JSON_parse ls headers
     = <["Authorization" := "Bearer " ++ Value.to_string tok]> (default ∅ headers)) /\
  (forall raw v t,
     ls !! "wpjwt" = Some raw -> JSON_parse raw = Some v ->
     Value.prop "authToken" v = Some (JStr t) -> t <> "" ->
     Auth.authLink JSON_parse ls headers
     = <["Authorization" := "Bearer " ++ t]> (default ∅ headers)) /\
  (ls !! "wpjwt" = None \/
   (exists raw, ls !! "wpjwt" = Some raw /\ JSON_parse raw = None) \/
   (exists raw v, ls !! "wpjwt" = Some raw /\ JSON_parse raw = Some v /\
                  Value.truthy_opt (Value.prop "authToken" v) = false) ->
   Auth.authLink JSON_parse ls headers = default ∅ headers /\
   Auth.authLink JSON_parse ls headers !! "Authorization"
   = default ∅ headers !! "Authorization").
Proof.
  split; [| split].
  - intros raw v tok Hraw Hv Htok Ht. unfold Auth.authLink.
    by rewrite (getAuthToken_found ls raw v tok).
  - intros raw v t Hraw Hv Htok Ht. unfold Auth.authLink.
    rewrite (getAuthToken_found ls raw v (JStr t)); try assumption; [reflexivity |].
    cbn. by destruct (String.eqb_spec t "").
  - intros H. unfold Auth.authLink. by rewrite (getAuthToken_none ls H).
Qed.

End AuthLink.

Definition stored_session : json :=
  JObj [("authToken", JStr "eyJ0eXAiOiJKV1Qi");
        ("refreshToken", JStr "cmVmcmVzaA");
        ("user", JObj [("id", JStr "dXNlcjox"); ("username", JStr "amina")])].

Lemma authLink_witness :
  Auth.authLink MiniJSON.parse
    {["wpjwt" := MiniJSON.stringify stored_session]}
    (Some {["Accept" := "application/json"]})
  = <["Authorization" := "Bearer eyJ0eXAiOiJKV1Qi"]>
      {["Accept" := "application/json"]}.
Proof.
  refine (proj1 (proj2 (authLink_spec MiniJSON.parse _ _ _)) _ stored_session
            "eyJ0eXAiOiJKV1Qi" _ _ _ _).
  - reflexivity.
  - apply lookup_singleton_eq.
  - vm_compute. reflexivity.
  - reflexivity.
  - discriminate.
Defined.

(** ** Auth state under the key "wpjwt" *)

Section AuthStorage.
Variable JSON_parse : string -> option json.
Variable JSON_stringify : json -> string.

Hypothesis JSON_parse_empty : JSON_parse "" = None.
Hypothesis JSON_parse_null : JSON_parse "null" = Some JNull.

(** The object that a login with this payload stores. *)
Definition session_object (payload : option json) : json :=
  Auth.object_literal
    [("authToken", Eff.path ["authToken"] payload);
     ("refreshToken", Eff.path ["refreshToken"] payload);
     ("user", Eff.path ["user"] payload)].

Lemma handleSubmit_success identifier password ls answers result :
  identifier <> "" -> password <> "" ->
  answers 0%nat = Eff.Resolved result ->
  Value.truthy_opt
    (Eff.path ["authToken"] (Eff.path ["data"; "login"] (Some result))) = true ->
  let run := Auth.handleSubmit JSON_stringify identifier password
               (Eff.start ls answers) in
  fst run = Eff.Returned tt /\
  Eff.storage (snd run)
  = <["wpjwt" := JSON_stringify
                   (session_object (Eff.path ["data"; "login"] (Some result)))]> ls.
Proof.
  intros Hi Hp Hans Htok. unfold Auth.handleSubmit.
  destruct (String.eqb_spec identifier ""); [contradiction |].
  destruct (String.eqb_spec password ""); [contradiction |].
  unfold mbind, Eff.M_bind, Eff.bind, Eff.try_catch, Eff.emit, Eff.await,
    Eff.start, Eff.setItem, Eff.throw.
  cbn -[Eff.path]. rewrite Hans. cbn -[Eff.path].
  rewrite Htok. cbn -[Eff.path]. by split.
Qed.

Lemma readers_same_key (ls ls' : gmap string string) :
  ls !! "wpjwt" = ls' !! "wpjwt" ->
  Auth.getAuthToken JSON_parse ls = Auth.getAuthToken JSON_parse ls' /\
  Auth.readJWT JSON_parse ls = Auth.readJWT JSON_parse ls' /\
  Auth.getAccessToken JSON_parse ls = Auth.getAccessToken JSON_parse ls' /\
  Auth.getUser JSON_parse ls = Auth.getUser JSON_parse ls'.
Proof.
  intros H.
  unfold Auth.getAuthToken, Auth.getAccessToken, Auth.getUser, Auth.readJWT.
  by rewrite H.
Qed.

Lemma clearAuth_storage (w : Eff.world) :
  Eff.storage (snd (Auth.clearAuth w)) = delete "wpjwt" (Eff.storage w).
Proof. reflexivity. Qed.

Lemma readJWT_absent (ls : gmap string string) :
  ls !! "wpjwt" = None -> Auth.readJWT JSON_parse ls = JNull.
Proof. intros H. unfold Auth.readJWT. by rewrite H, JSON_parse_null. Qed.

Lemma session_object_authToken payload tok :
  Eff.path ["authToken"] payload = Some tok ->
  Value.prop "authToken" (session_object payload) = Some tok /\
  Value.prop "user" (session_object payload) = Eff.path ["user"] payload.
Proof.
  intros H. unfold session_object, Auth.object_literal. rewrite H.
  destruct (Eff.path ["refreshToken"] payload),
           (Eff.path ["user"] payload); by cbn.
Qed.

Lemma readJWT_stored (ls : gmap string string) obj :
  JSON_parse (JSON_stringify obj) = Some obj ->
  Auth.readJWT JSON_parse (<["wpjwt" := JSON_stringify obj]> ls) = obj.
Proof.
  intros Hrt. unfold Auth.readJWT. rewrite lookup_insert_eq.
  destruct (String.eqb_spec (JSON_stringify obj) "") as [E | _].
  - rewrite E in Hrt. congruence.
  - by rewrite Hrt.
Qed.

(** C4.  A successful login (the mutation resolves with a truthy
    [authToken]) writes the JSON text of the object
    {authToken, refreshToken, user} under "wpjwt" and touches no other
    key; [getAuthToken], [readJWT], [getAccessToken] and [getUser] depend
    on the storage through that key only; [clearAuth] removes that key
    and no other, and afterwards [getAccessToken] and [getUser] are
    [null].  Where the stored text parses back to the stored object, the
    readers return the token and the user that the login stored. *)
Theorem auth_storage_spec :
  (forall identifier password ls answers result,
     identifier <> "" -> password <> "" ->
     answers 0%nat = Eff.Resolved result ->
     Value.truthy_opt
       (Eff.path ["authToken"] (Eff.path ["data"; "login"] (Some result)))
       = true ->
     let payload := Eff.path ["data"; "login"] (Some result) in
     let after := Eff.storage
                    (snd (Auth.handleSubmit JSON_stringify identifier password
                            (Eff.start ls answers))) in
     after = <["wpjwt" := JSON_stringify (session_object payload)]> ls /\
     (forall a r u,
        Eff.path ["authToken"] payload = Some a ->
        Eff.path ["refreshToken"] payload = Some r ->
        Eff.path ["user"] payload = Some u ->
        session_object payload
        = JObj [("authToken", a); ("refreshToken", r); ("user", u)]) /\
     (forall k, k <> "wpjwt" -> after !! k = ls !! k) /\
     (JSON_parse (JSON_stringify (session_object payload))
        = Some (session_object payload) ->
      Auth.getAccessToken JSON_parse after = Eff.path ["authToken"] payload /\
      Auth.getAuthToken JSON_parse after = Eff.path ["authToken"] payload /\
      Value.prop "user" (Auth.readJWT JSON_parse after)
        = Eff.path ["user"] payload)) /\
  (forall ls ls' : gmap string string,
     ls !! "wpjwt" = ls' !! "wpjwt" ->
     Auth.getAuthToken JSON_parse ls = Auth.getAuthToken JSON_parse ls' /\
     Auth.readJWT JSON_parse ls = Auth.readJWT JSON_parse ls' /\
     Auth.getAccessToken JSON_parse ls = Auth.getAccessToken JSON_parse ls' /\
     Auth.getUser JSON_parse ls = Auth.getUser JSON_parse ls') /\
  (forall w,
     let after := Eff.storage (snd (Auth.clearAuth w)) in
     after = delete "wpjwt" (Eff.storage w) /\
     after !! "wpjwt" = None /\
     (forall k, k <> "wpjwt" -> after !! k = Eff.storage w !! k) /\
     Auth.getAccessToken JSON_parse after = None /\
     Auth.getUser JSON_parse after = None).
Proof.
  split; [| split].
  - intros identifier password ls answers result Hi Hp Hans Htok payload after.
    destruct (handleSubmit_success _ _ ls _ _ Hi Hp Hans Htok) as [_ Hst].
    fold payload in Hst. fold after in Hst. rewrite Hst.
    split; [reflexivity |]. split; [| split].
    + intros a r u Ha Hr Hu. unfold session_object, Auth.object_literal.
      by rewrite Ha, Hr, Hu.
    + intros k Hk. by rewrite lookup_insert_ne.
    + intros Hrt. fold payload in Htok.
      destruct (Eff.path ["authToken"] payload) as [tok |] eqn:Etok;
        [| discriminate].
      destruct (session_object_authToken payload tok Etok) as [Hprop Huser].
      assert (Hne : JSON_stringify (session_object payload) <> "").
      { intros E. rewrite E in Hrt. congruence. }
      repeat split.
      * unfold Auth.getAccessToken. rewrite readJWT_stored by assumption.
        rewrite Hprop. cbn in Htok |- *. by rewrite Htok.
      * unfold Auth.getAuthToken. rewrite lookup_insert_eq.
        destruct (String.eqb_spec (JSON_stringify (session_object payload)) "");
          [contradiction |].
        rewrite Hrt, Hprop. cbn in Htok |- *. by rewrite Htok.
      * by rewrite readJWT_stored.
  - apply readers_same_key.
  - intros w after. subst after. rewrite clearAuth_storage.
    assert (Habs : delete "wpjwt" (Eff.storage w) !! "wpjwt" = None)
      by apply lookup_delete_eq.
    repeat split; try assumption.
    + intros k Hk. by rewrite lookup_delete_ne.
    + unfold Auth.getAccessToken. by rewrite readJWT_absent.
    + unfold Auth.getUser. by rewrite readJWT_absent.
Qed.

End AuthStorage.

(** A login of "amina", answered with a session by the server, followed by
    a logout; the storage held a theme preference before. *)
Definition login_answer : json :=
  JObj [("data", JObj [("login", stored_session)])].

Lemma auth_storage_witness :
  let after_login :=
    Eff.storage
      (snd (Auth.handleSubmit MiniJSON.stringify "amina" "s3cret"
              (Eff.start {["theme" := "dark"]}
                         (fun _ => Eff.Resolved login_answer)))) in
  Auth.getAccessToken MiniJSON.parse after_login
  = Some (JStr "eyJ0eXAiOiJKV1Qi") /\
  after_login !! "theme" = Some "dark".
Proof.
  pose proof (auth_storage_spec MiniJSON.parse MiniJSON.stringify
                eq_refl eq_refl) as [Hlogin _].
  specialize (Hlogin "amina" "s3cret" {["theme" := "dark"]}
                (fun _ => Eff.Resolved login_answer) login_answer
                ltac:(discriminate) ltac:(discriminate) eq_refl eq_refl).
  destruct Hlogin as (_ & _ & Hother & Hread).
  split.
  - apply Hread. vm_compute. reflexivity.
  - rewrite Hother by discriminate. apply lookup_singleton_eq.
Defined.

(** ** What the handlers do when a request fails *)

Ltac run_handler :=
  unfold mbind, mret, Eff.M_bind, Eff.M_ret, Eff.bind, Eff.ret, Eff.try_catch,
    Eff.finally, Eff.emit, Eff.await, Eff.start, Eff.setItem, Eff.throw,
    Eff.requests, Eff.toasts;
  cbn -[Eff.path Eff.first_text].

Section FailedRequests.
Variable answers : nat -> Eff.response.
Variable e : Eff.error.

(** The first request of the handler is rejected with [e]. *)
Hypothesis first_rejected : answers 0%nat = Eff.Rejected e.

Lemma handleAddToCart_failure ls productId productName :
  let r := CartHandlers.handleAddToCart productId productName
             (Eff.start ls answers) in
  fst r = Eff.Returned tt /\
  Eff.requests (snd r)
  = [Eff.Request "addToCart" [("productId", productId); ("quantity", JNum 1)]] /\
  Eff.toasts (snd r)
  = [Eff.ToastError (Eff.first_text [Eff.message e] "Failed to add to cart")].
Proof.
  unfold CartHandlers.handleAddToCart. run_handler.
  rewrite first_rejected. by cbn -[Eff.first_text].
Qed.

Lemma handleSubmit_failure JSON_stringify ls identifier password :
  identifier <> "" -> password <> "" ->
  let r := Auth.handleSubmit JSON_stringify identifier password
             (Eff.start ls answers) in
  fst r = Eff.Returned tt /\
  Eff.requests (snd r)
  = [Eff.Request "login"
       [("username", JStr identifier); ("password", JStr password)]] /\
  Eff.toasts (snd r)
  = [Eff.ToastError
       (Eff.first_text [Eff.graphQLErrors_message e; Eff.message e]
                       "Invalid credentials. Please try again.")].
Proof.
  intros Hi Hp. unfold Auth.handleSubmit.
  destruct (String.eqb_spec identifier ""); [contradiction |].
  destruct (String.eqb_spec password ""); [contradiction |].
  run_handler. rewrite first_rejected. by cbn -[Eff.first_text].
Qed.

Lemma submit_failure ls search pwd :
  let r := ResetPassword.submit search pwd pwd (Eff.start ls answers) in
  fst r = Eff.Returned tt /\
  Eff.requests (snd r)
  = [Eff.Request "resetUserPassword"
       [("key", JStr (ResetPassword.key search));
        ("login", JStr (ResetPassword.login search));
        ("password", JStr pwd)]] /\
  Eff.toasts (snd r)
  = [Eff.ToastError
       (Eff.first_text [Eff.graphQLErrors_message e; Eff.message e]
                       "Reset link is invalid or expired.")].
Proof.
  unfold ResetPassword.submit. rewrite String.eqb_refl.
  run_handler. rewrite first_rejected. by cbn -[Eff.first_text].
Qed.

(** What a cart handler leaves behind when its mutation [mutation] with
    the variables [variables] fails: one attempt of it, one refetch of
    the cart, the error on the console, no toast; the handler returns
    when the refetch resolves and throws when the refetch is rejected. *)
Definition cart_failure (mutation : string) (variables : list (string * json))
                        (r : Eff.outcome unit * Eff.world) : Prop :=
  Eff.requests (snd r)
  = [Eff.Request mutation variables; Eff.Request "GetCart" []] /\
  Eff.toasts (snd r) = [] /\
  In (Eff.ConsoleError e) (Eff.log (snd r)) /\
  (forall x, answers 1%nat = Eff.Resolved x -> fst r = Eff.Returned tt) /\
  (forall e', answers 1%nat = Eff.Rejected e' -> fst r = Eff.Thrown e').

Lemma onInc_failure ls itemCount key qty :
  cart_failure "updateItemQuantities"
    [("items", JArr [JObj [("key", JStr key); ("quantity", JNum (qty + 1))]])]
    (CartHandlers.onInc itemCount key qty (Eff.start ls answers)).
Proof.
  unfold cart_failure, CartHandlers.onInc, CartHandlers.setBusy,
    CartHandlers.refetch, CartHandlers.updateQty, CartHandlers.broadcastCount.
  run_handler. rewrite first_rejected. cbn.
  destruct (answers 1%nat) as [x | e'] eqn:E; cbn;
    repeat split; try (intros ? [=]; subst); try reflexivity; tauto.
Qed.

Lemma onRemove_failure ls itemCount key :
  cart_failure "removeItemsFromCart" [("keys", JArr [JStr key])]
    (CartHandlers.onRemove itemCount key (Eff.start ls answers)).
Proof.
  unfold cart_failure, CartHandlers.onRemove, CartHandlers.setBusy,
    CartHandlers.refetch, CartHandlers.removeItems, CartHandlers.broadcastCount.
  run_handler. rewrite first_rejected. cbn.
  destruct (answers 1%nat) as [x | e'] eqn:E; cbn;
    repeat split; try (intros ? [=]; subst); try reflexivity; tauto.
Qed.

Lemma onDec_failure ls itemCount key qty :
  cart_failure
    (if bool_decide (qty - 1 <= 0) then "removeItemsFromCart"
     else "updateItemQuantities")
    (if bool_decide (qty - 1 <= 0) then [("keys", JArr [JStr key])]
     else [("items",
            JArr [JObj [("key", JStr key); ("quantity", JNum (qty - 1))]])])
    (CartHandlers.onDec itemCount key qty (Eff.start ls answers)).
Proof.
  unfold cart_failure, CartHandlers.onDec, CartHandlers.setBusy,
    CartHandlers.refetch, CartHandlers.removeItems, CartHandlers.updateQty,
    CartHandlers.broadcastCount.
  destruct (bool_decide (qty - 1 <= 0)); run_handler;
    rewrite first_rejected; cbn;
    destruct (answers 1%nat) as [x | e'] eqn:E; cbn;
    repeat split; try (intros ? [=]; subst); try reflexivity; tauto.
Qed.

End FailedRequests.

Section FailedRefetch.
Variable answers : nat -> Eff.response.
Variable result : json.
Variable e : Eff.error.

(** The mutation resolves, the refetch that follows it is rejected. *)
Hypothesis first_resolved : answers 0%nat = Eff.Resolved result.
Hypothesis second_rejected : answers 1%nat = Eff.Rejected e.

(** What a cart handler leaves behind then: the mutation once, the
    refetch twice (the second time from the catch block), the error on
    the console, no toast; the handler returns when the second refetch
    resolves and throws when it is rejected. *)
Definition cart_refetch_failure (mutation : string)
                                (variables : list (string * json))
                                (r : Eff.outcome unit * Eff.world) : Prop :=
  Eff.requests (snd r)
  = [Eff.Request mutation variables; Eff.Request "GetCart" [];
     Eff.Request "GetCart" []] /\
  Eff.toasts (snd r) = [] /\
  In (Eff.ConsoleError e) (Eff.log (snd r)) /\
  (forall x, answers 2%nat = Eff.Resolved x -> fst r = Eff.Returned tt) /\
  (forall e', answers 2%nat = Eff.Rejected e' -> fst r = Eff.Thrown e').

Ltac cart_refetch :=
  run_handler; rewrite first_resolved; cbn -[Eff.path];
  rewrite second_rejected; cbn -[Eff.path];
  destruct (answers 2%nat) as [x | e'] eqn:E; cbn -[Eff.path];
  repeat split; try (intros ? [=]; subst); try reflexivity; tauto.

Lemma onInc_refetch_failure ls itemCount key qty :
  cart_refetch_failure "updateItemQuantities"
    [("items", JArr [JObj [("key", JStr key); ("quantity", JNum (qty + 1))]])]
    (CartHandlers.onInc itemCount key qty (Eff.start ls answers)).
Proof.
  unfold cart_refetch_failure, CartHandlers.onInc, CartHandlers.setBusy,
    CartHandlers.refetch, CartHandlers.updateQty, CartHandlers.broadcastCount.
  cart_refetch.
Qed.

Lemma onRemove_refetch_failure ls itemCount key :
  cart_refetch_failure "removeItemsFromCart" [("keys", JArr [JStr key])]
    (CartHandlers.onRemove itemCount key (Eff.start ls answers)).
Proof.
  unfold cart_refetch_failure, CartHandlers.onRemove, CartHandlers.setBusy,
    CartHandlers.refetch, CartHandlers.removeItems, CartHandlers.broadcastCount.
  cart_refetch.
Qed.

Lemma onDec_refetch_failure ls itemCount key qty :
  cart_refetch_failure
    (if bool_decide (qty - 1 <= 0) then "removeItemsFromCart"
     else "updateItemQuantities")
    (if bool_decide (qty - 1 <= 0) then [("keys", JArr [JStr key])]
     else [("items",
            JArr [JObj [("key", JStr key); ("quantity", JNum (qty - 1))]])])
    (CartHandlers.onDec itemCount key qty (Eff.start ls answers)).
Proof.
  unfold cart_refetch_failure, CartHandlers.onDec, CartHandlers.setBusy,
    CartHandlers.refetch, CartHandlers.removeItems, CartHandlers.updateQty,
    CartHandlers.broadcastCount.
  destruct (bool_decide (qty - 1 <= 0)); cart_refetch.
Qed.

End FailedRefetch.

(** C2 (amended).  When the mutation of a handler fails, the handler
    attempts it exactly once and catches the error.  The add-to-cart
    handler of the laptops section, the login form and the reset-password
    form then show one error toast and return.  The cart page's [onInc],
    [onDec] and [onRemove] show no toast: they log the error to the
    console and refetch the cart once, and a failure of that refetch is
    thrown out of the handler.  When their mutation resolves and the
    refetch after it fails, they log that error and refetch a second
    time, again without a toast. *)
Theorem failed_request_handling (answers : nat -> Eff.response) (e : Eff.error) :
  (answers 0%nat = Eff.Rejected e ->
   (forall ls productId productName,
      let r := CartHandlers.handleAddToCart productId productName
                 (Eff.start ls answers) in
      fst r = Eff.Returned tt /\
      Eff.requests (snd r)
      = [Eff.Request "addToCart"
           [("productId", productId); ("quantity", JNum 1)]] /\
      Eff.toasts (snd r)
      = [Eff.ToastError
           (Eff.first_text [Eff.message e] "Failed to add to cart")]) /\
   (forall JSON_stringify ls identifier password,
      identifier <> "" -> password <> "" ->
      let r := Auth.handleSubmit JSON_stringify identifier password
                 (Eff.start ls answers) in
      fst r = Eff.Returned tt /\
      Eff.requests (snd r)
      = [Eff.Request "login"
           [("username", JStr identifier); ("password", JStr password)]] /\
      Eff.toasts (snd r)
      = [Eff.ToastError
           (Eff.first_text [Eff.graphQLErrors_message e; Eff.message e]
                           "Invalid credentials. Please try again.")]) /\
   (forall ls search pwd,
      let r := ResetPassword.submit search pwd pwd (Eff.start ls answers) in
      fst r = Eff.Returned tt /\
      Eff.requests (snd r)
      = [Eff.Request "resetUserPassword"
           [("key", JStr (ResetPassword.key search));
            ("login", JStr (ResetPassword.login search));
            ("password", JStr pwd)]] /\
      Eff.toasts (snd r)
      = [Eff.ToastError
           (Eff.first_text [Eff.graphQLErrors_message e; Eff.message e]
                           "Reset link is invalid or expired.")]) /\
   (forall ls itemCount key qty,
      cart_failure answers e "updateItemQuantities"
        [("items", JArr [JObj [("key", JStr key); ("quantity", JNum (qty + 1))]])]
        (CartHandlers.onInc itemCount key qty (Eff.start ls answers))) /\
   (forall ls itemCount key qty,
      cart_failure answers e
        (if bool_decide (qty - 1 <= 0) then "removeItemsFromCart"
         else "updateItemQuantities")
        (if bool_decide (qty - 1 <= 0) then [("keys", JArr [JStr key])]
         else [("items",
                JArr [JObj [("key", JStr key); ("quantity", JNum (qty - 1))]])])
        (CartHandlers.onDec itemCount key qty (Eff.start ls answers))) /\
   (forall ls itemCount key,
      cart_failure answers e "removeItemsFromCart" [("keys", JArr [JStr key])]
        (CartHandlers.onRemove itemCount key (Eff.start ls answers)))) /\
  (forall result,
     answers 0%nat = Eff.Resolved result -> answers 1%nat = Eff.Rejected e ->
     (forall ls itemCount key qty,
        cart_refetch_failure answers e "updateItemQuantities"
          [("items",
            JArr [JObj [("key", JStr key); ("quantity", JNum (qty + 1))]])]
          (CartHandlers.onInc itemCount key qty (Eff.start ls answers))) /\
     (forall ls itemCount key qty,
        cart_refetch_failure answers e
          (if bool_decide (qty - 1 <= 0) then "removeItemsFromCart"
           else "updateItemQuantities")
          (if bool_decide (qty - 1 <= 0) then [("keys", JArr [JStr key])]
           else [("items",
                  JArr [JObj [("key", JStr key);
                              ("quantity", JNum (qty - 1))]])])
          (CartHandlers.onDec itemCount key qty (Eff.start ls answers))) /\
     (forall ls itemCount key,
        cart_refetch_failure answers e "removeItemsFromCart"
          [("keys", JArr [JStr key])]
          (CartHandlers.onRemove itemCount key (Eff.start ls answers)))).
Proof.
  split.
  - intros Hrej.
    split; [by apply handleAddToCart_failure |].
    split; [intros; by apply handleSubmit_failure |].
    split; [by apply submit_failure |].
    split; [by apply onInc_failure |].
    split; [by apply onDec_failure | by apply onRemove_failure].
  - intros result Hres Hrej.
    split; [by apply (onInc_refetch_failure answers result) |].
    split; [by apply (onDec_refetch_failure answers result)
           | by apply (onRemove_refetch_failure answers result)].
Qed.

(** The server is unreachable: every request is rejected. *)
Definition network_down : nat -> Eff.response :=
  fun _ => Eff.Rejected (Eff.Error None (Some "Failed to fetch")).

Lemma failed_request_handling_witness :
  Eff.toasts
    (snd (CartHandlers.handleAddToCart (JNum 42) "Item"
            (Eff.start ∅ network_down)))
  = [Eff.ToastError "Failed to fetch"].
Proof.
  pose proof (failed_request_handling network_down
                (Eff.Error None (Some "Failed to fetch"))) as [H _].
  destruct (H eq_refl) as [Hadd _].
  destruct (Hadd ∅ (JNum 42) "Item") as (_ & _ & Ht). exact Ht.
Defined.

(** The mutation goes through and only the refetches fail. *)
Definition refetch_down : nat -> Eff.response :=
  fun k => match k with
           | O => Eff.Resolved (JObj [])
           | _ => Eff.Rejected (Eff.Error None (Some "Failed to fetch"))
           end.

(** With the server unreachable, increasing a quantity on the cart page
    shows no toast at all, and the error of the refetch leaves the
    handler uncaught; and a refetch that fails after a successful
    mutation is attempted a second time. *)
Lemma cart_failure_without_toast :
  Eff.toasts (snd (CartHandlers.onInc (JNum 3) "c4ca4238" 1
                     (Eff.start ∅ network_down))) = [] /\
  fst (CartHandlers.onInc (JNum 3) "c4ca4238" 1 (Eff.start ∅ network_down))
  = Eff.Thrown (Eff.Error None (Some "Failed to fetch")) /\
  Eff.requests (snd (CartHandlers.onInc (JNum 3) "c4ca4238" 1
                       (Eff.start ∅ refetch_down)))
  = [Eff.Request "updateItemQuantities"
       [("items", JArr [JObj [("key", JStr "c4ca4238"); ("quantity", JNum 2)]])];
     Eff.Request "GetCart" []; Eff.Request "GetCart" []].
Proof. repeat split; reflexivity. Qed.

(** ** The password-reset link, from WordPress to the ResetPassword page *)

Section ResetRoundTrip.
Import Url.

(** The characters that have a meaning of their own in a query string. *)
Definition plain (c : ascii) : bool := negb (one_of "&=+#?" c).

Definition not_char (d : ascii) (c : ascii) : bool := negb (Ascii.eqb c d).

Lemma append_cons c (a b : string) : String c a ++ b = String c (a ++ b).
Proof. reflexivity. Qed.

Lemma append_nil (b : string) : "" ++ b = b.
Proof. reflexivity. Qed.

Lemma all_app p a b : Str.all p (a ++ b) = Str.all p a && Str.all p b.
Proof.
  induction a as [| c a IH]; [reflexivity |].
  rewrite append_cons. cbn [Str.all]. by rewrite IH, andb_assoc.
Qed.

Lemma all_impl (p q : ascii -> bool) s :
  (forall c, p c = true -> q c = true) ->
  Str.all p s = true -> Str.all q s = true.
Proof.
  intros Hpq. induction s as [| c s IH]; cbn; [reflexivity |].
  rewrite !andb_true_iff. intros [Hc Hs]. split; [by apply Hpq | by apply IH].
Qed.

Lemma plain_not_char d : one_of "&=+#?" d = true ->
  forall c, plain c = true -> not_char d c = true.
Proof.
  intros Hd c Hc. unfold not_char. apply negb_true_iff, Ascii.eqb_neq.
  intros ->. unfold plain in Hc. by rewrite Hd in Hc.
Qed.

Lemma encode_char_plain c : Str.all plain (percent_encode_char unreserved c) = true.
Proof. destruct c as [[] [] [] [] [] [] [] []]; reflexivity. Qed.

Lemma percent_encode_cons keep c s :
  percent_encode keep (String c s)
  = percent_encode_char keep c ++ percent_encode keep s.
Proof. reflexivity. Qed.

Lemma rawurlencode_plain s : Str.all plain (rawurlencode s) = true.
Proof.
  unfold rawurlencode. induction s as [| c s IH]; [reflexivity |].
  by rewrite percent_encode_cons, all_app, encode_char_plain, IH.
Qed.

Lemma decode_encode_char c rest :
  percent_decode (percent_encode_char unreserved c ++ rest)
  = String c (percent_decode rest).
Proof. destruct c as [[] [] [] [] [] [] [] []]; reflexivity. Qed.

Lemma append_assoc (a b c : string) : (a ++ b) ++ c = a ++ (b ++ c).
Proof.
  induction a as [| x a IH]; [reflexivity |].
  by rewrite !append_cons, IH.
Qed.

Lemma append_empty_r (a : string) : a ++ "" = a.
Proof.
  induction a as [| x a IH]; [reflexivity |].
  by rewrite append_cons, IH.
Qed.

(** Decoding undoes [rawurlencode], for every text. *)
Lemma percent_decode_rawurlencode s : percent_decode (rawurlencode s) = s.
Proof.
  unfold rawurlencode. induction s as [| c s IH]; [reflexivity |].
  by rewrite percent_encode_cons, decode_encode_char, IH.
Qed.

Lemma encode_char_unreserved c :
  unreserved c = true -> percent_encode_char unreserved c = String c "".
Proof. intros H. unfold percent_encode_char. by rewrite H. Qed.

Lemma rawurlencode_unreserved s :
  Str.all unreserved s = true -> rawurlencode s = s.
Proof.
  unfold rawurlencode. induction s as [| c s IH]; [reflexivity |].
  cbn [Str.all]. rewrite andb_true_iff. intros [Hc Hs].
  by rewrite percent_encode_cons, encode_char_unreserved, IH.
Qed.

Lemma plus_to_space_plain s : Str.all plain s = true -> plus_to_space s = s.
Proof.
  unfold plus_to_space. induction s as [| c s IH]; cbn; [reflexivity |].
  rewrite andb_true_iff. intros [Hc Hs]. rewrite IH by assumption.
  destruct (Ascii.eqb_spec c "+") as [-> | _]; [discriminate | reflexivity].
Qed.

Lemma split_on_none sep s :
  Str.all (not_char sep) s = true -> split_on sep s = [s].
Proof.
  induction s as [| c s IH]; cbn; [reflexivity |].
  rewrite andb_true_iff. unfold not_char at 1. intros [Hc Hs].
  apply negb_true_iff in Hc. by rewrite Hc, IH.
Qed.

Lemma split_on_app sep a b :
  Str.all (not_char sep) a = true ->
  split_on sep (a ++ String sep b) = a :: split_on sep b.
Proof.
  induction a as [| c a IH].
  - intros _. rewrite append_nil. cbn. by rewrite Ascii.eqb_refl.
  - rewrite append_cons. cbn. rewrite andb_true_iff. unfold not_char at 1.
    intros [Hc Ha]. apply negb_true_iff in Hc. by rewrite Hc, IH.
Qed.

Lemma split_first_none sep s :
  Str.all (not_char sep) s = true -> split_first sep s = (s, None).
Proof.
  induction s as [| c s IH]; cbn; [reflexivity |].
  rewrite andb_true_iff. unfold not_char at 1. intros [Hc Hs].
  apply negb_true_iff in Hc. by rewrite Hc, IH.
Qed.

Lemma split_first_app sep a b :
  Str.all (not_char sep) a = true ->
  split_first sep (a ++ String sep b) = (a, Some b).
Proof.
  induction a as [| c a IH].
  - intros _. rewrite append_nil. cbn. by rewrite Ascii.eqb_refl.
  - rewrite append_cons. cbn. rewrite andb_true_iff. unfold not_char at 1.
    intros [Hc Ha]. apply negb_true_iff in Hc. by rewrite Hc, IH.
Qed.

(** One "name=value" piece of a query; the "=" and the value may be
    missing. *)
Definition piece (name : string) (value : option string) : string :=
  name ++ match value with Some v => String "=" v | None => "" end.

Definition plain_opt (value : option string) : bool :=
  match value with Some v => Str.all plain v | None => true end.

Lemma piece_plain_amp name value :
  Str.all plain name = true -> plain_opt value = true ->
  Str.all (not_char "&") (piece name value) = true.
Proof.
  intros Hn Hv. unfold piece. rewrite all_app.
  rewrite (all_impl plain _ name (plain_not_char "&" eq_refl) Hn).
  destruct value as [v |]; cbn; [| reflexivity].
  by apply (all_impl plain _ v (plain_not_char "&" eq_refl)).
Qed.

Lemma split_first_piece name value :
  Str.all plain name = true ->
  split_first "=" (piece name value) = (name, value).
Proof.
  intros Hn. unfold piece.
  pose proof (all_impl plain _ name (plain_not_char "=" eq_refl) Hn) as Hn'.
  destruct value as [v |].
  - by apply split_first_app.
  - rewrite append_empty_r. by apply split_first_none.
Qed.

Lemma piece_nonempty name value : name <> "" -> String.eqb (piece name value) "" = false.
Proof. intros Hn. destruct name; [contradiction | reflexivity]. Qed.

(** The search parameters of a query of two plain pieces. *)
Lemma URLSearchParams_two n1 v1 n2 v2 :
  n1 <> "" -> n2 <> "" ->
  Str.all plain n1 = true -> Str.all plain n2 = true ->
  plain_opt v1 = true -> plain_opt v2 = true ->
  URLSearchParams (String "?" (piece n1 v1 ++ String "&" (piece n2 v2)))
  = [(percent_decode n1, percent_decode (default "" v1));
     (percent_decode n2, percent_decode (default "" v2))].
Proof.
  intros Hne1 Hne2 Hn1 Hn2 Hv1 Hv2. unfold URLSearchParams.
  rewrite split_on_app by (by apply piece_plain_amp).
  rewrite split_on_none by (by apply piece_plain_amp).
  cbn [List.filter]. rewrite !piece_nonempty by assumption. cbn [negb List.map].
  rewrite !split_first_piece by assumption.
  rewrite !plus_to_space_plain; try assumption.
  - reflexivity.
  - by destruct v2.
  - by destruct v1.
Qed.

Lemma location_search_query base query :
  Str.all (fun c => negb (one_of "?#" c)) base = true ->
  Str.all (not_char "#") query = true -> query <> "" ->
  location_search (base ++ String "?" query) = String "?" query.
Proof.
  intros Hb Hq Hne. unfold location_search.
  assert (Hb1 : Str.all (not_char "#") base = true).
  { revert Hb. apply all_impl. intros c Hc. unfold not_char.
    apply negb_true_iff, Ascii.eqb_neq. intros ->. discriminate. }
  assert (Hb2 : Str.all (not_char "?") base = true).
  { revert Hb. apply all_impl. intros c Hc. unfold not_char.
    apply negb_true_iff, Ascii.eqb_neq. intros ->. discriminate. }
  rewrite split_first_none.
  - rewrite split_first_app by assumption.
    destruct query; [contradiction | reflexivity].
  - rewrite all_app, Hb1. cbn. exact Hq.
Qed.

Lemma two_pieces_no_hash n1 v1 n2 v2 :
  Str.all plain n1 = true -> Str.all plain n2 = true ->
  plain_opt v1 = true -> plain_opt v2 = true ->
  Str.all (not_char "#") (piece n1 v1 ++ String "&" (piece n2 v2)) = true.
Proof.
  intros Hn1 Hn2 Hv1 Hv2.
  assert (Hp : forall n v, Str.all plain n = true -> plain_opt v = true ->
                 Str.all (not_char "#") (piece n v) = true).
  { intros n v Hn Hv. unfold piece. rewrite all_app.
    rewrite (all_impl plain _ n (plain_not_char "#" eq_refl) Hn).
    destruct v as [v |]; cbn; [| reflexivity].
    by apply (all_impl plain _ v (plain_not_char "#" eq_refl)). }
  rewrite all_app, Hp by assumption. cbn. by apply Hp.
Qed.

(** What the page reads from a link whose query is two plain pieces
    "key..." and "login...". *)
Lemma page_reads_two_pieces base vk vl :
  Str.all (fun c => negb (one_of "?#" c)) base = true ->
  plain_opt vk = true -> plain_opt vl = true ->
  let search :=
    location_search
      (base ++ String "?" (piece "key" vk ++ String "&" (piece "login" vl))) in
  ResetPassword.key search = percent_decode (default "" vk) /\
  ResetPassword.login search = percent_decode (default "" vl).
Proof.
  intros Hb Hk Hl search. subst search.
  rewrite location_search_query; [| assumption | by apply two_pieces_no_hash |].
  - unfold ResetPassword.key, ResetPassword.login.
    rewrite URLSearchParams_two by (assumption || discriminate || reflexivity).
    by split.
  - unfold piece. rewrite !append_cons. discriminate.
Qed.

(** *** Trimming *)

(** The last character of [s] satisfies [p]. *)
Fixpoint ends_with (p : ascii -> bool) (s : string) : bool :=
  match s with
  | EmptyString => false
  | String c EmptyString => p c
  | String _ s' => ends_with p s'
  end.

Lemma rtrim_not_ends_with p s : ends_with p (rtrim p s) = false.
Proof.
  induction s as [| c s IH]; [reflexivity |].
  cbn [rtrim]. destruct (rtrim p s) as [| d r] eqn:E.
  - destruct (p c) eqn:Hc; cbn; [reflexivity | assumption].
  - exact IH.
Qed.

Lemma rtrim_prefix p s :
  exists stripped, s = rtrim p s ++ stripped /\ Str.all p stripped = true.
Proof.
  induction s as [| c s (t & Ht & Hall)]; [by exists "" |].
  cbn [rtrim]. destruct (rtrim p s) as [| d r] eqn:E.
  - rewrite append_nil in Ht. subst t. destruct (p c) eqn:Hc.
    + exists (String c s). split; [reflexivity |]. cbn. by rewrite Hc.
    + exists s. by split.
  - exists t. split; [| assumption]. rewrite append_cons. by rewrite <- Ht.
Qed.

Lemma rtrim_clean p s :
  Str.all (fun c => negb (p c)) s = true -> rtrim p s = s.
Proof.
  induction s as [| c s IH]; [reflexivity |].
  cbn [Str.all rtrim]. rewrite andb_true_iff. intros [Hc Hs].
  rewrite IH by assumption. apply negb_true_iff in Hc. rewrite Hc.
  by destruct s.
Qed.

Lemma rtrim_app_clean p a b :
  b <> "" -> Str.all (fun c => negb (p c)) b = true ->
  rtrim p (a ++ b) = a ++ b.
Proof.
  intros Hne Hb. induction a as [| c a IH].
  - rewrite append_nil. by apply rtrim_clean.
  - rewrite append_cons. cbn [rtrim]. rewrite IH.
    destruct (a ++ b) eqn:E; [| reflexivity].
    destruct a; [| discriminate]. rewrite append_nil in E. contradiction.
Qed.

(** *** The email template's link *)

Lemma drop_empty_eq_clean s :
  Str.all (not_char "=") s = true -> ResetLink.drop_empty_eq s = s.
Proof.
  induction s as [| c s IH]; [reflexivity |].
  cbn [Str.all ResetLink.drop_empty_eq]. rewrite andb_true_iff.
  unfold not_char at 1. intros [Hc Hs]. apply negb_true_iff in Hc.
  by rewrite Hc, IH.
Qed.

Lemma drop_empty_eq_app n rest :
  Str.all (not_char "=") n = true ->
  ResetLink.drop_empty_eq (n ++ rest) = n ++ ResetLink.drop_empty_eq rest.
Proof.
  induction n as [| c n IH]; [reflexivity |].
  rewrite !append_cons. cbn [Str.all ResetLink.drop_empty_eq].
  rewrite andb_true_iff. unfold not_char at 1. intros [Hc Hn].
  apply negb_true_iff in Hc. by rewrite Hc, IH.
Qed.

Lemma drop_question_clean s :
  Str.all (not_char "#") s = true -> ResetLink.drop_question_before_hash s = s.
Proof.
  induction s as [| c s IH]; [reflexivity |].
  cbn [Str.all]. rewrite andb_true_iff. intros [Hc Hs].
  cbn [ResetLink.drop_question_before_hash]. rewrite IH by assumption.
  destruct (Ascii.eqb c "?"); [| reflexivity].
  destruct s as [| d s]; [reflexivity |].
  cbn [Str.all] in Hs. apply andb_true_iff in Hs as [Hd _].
  unfold not_char in Hd. apply negb_true_iff, Ascii.eqb_neq in Hd.
  destruct d as [[] [] [] [] [] [] [] []]; try reflexivity. contradiction.
Qed.

(** A value as the link shows it: nothing for the empty text. *)
Definition shown (v : string) : option string :=
  if String.eqb v "" then None else Some v.

Lemma drop_empty_eq_pair n v rest :
  Str.all (not_char "=") n = true -> Str.all plain v = true ->
  (rest = "" \/ exists r, rest = String "&" r) ->
  ResetLink.drop_empty_eq (n ++ String "=" (v ++ rest))
  = piece n (shown v) ++ ResetLink.drop_empty_eq rest.
Proof.
  intros Hn Hv Hrest. rewrite drop_empty_eq_app by assumption.
  unfold piece, shown. destruct v as [| x v].
  - rewrite append_nil. cbn [String.eqb]. rewrite append_empty_r.
    destruct Hrest as [-> | [r ->]]; reflexivity.
  - cbn [String.eqb]. rewrite append_cons. cbn [ResetLink.drop_empty_eq].
    cbn [Str.all] in Hv. apply andb_true_iff in Hv as [Hx Hv'].
    assert (Hamp : Ascii.eqb x "&" = false).
    { apply Ascii.eqb_neq. intros ->. discriminate. }
    assert (Heq : Ascii.eqb x "=" = false).
    { apply Ascii.eqb_neq. intros ->. discriminate. }
    rewrite Ascii.eqb_refl, Hamp, Heq.
    rewrite drop_empty_eq_app
      by (by apply (all_impl plain _ v (plain_not_char "=" eq_refl))).
    by rewrite append_assoc, !append_cons.
Qed.

Lemma shown_plain v : Str.all plain v = true -> plain_opt (shown v) = true.
Proof. intros H. unfold shown. by destruct (String.eqb v ""). Qed.

Lemma shown_default v : default "" (shown v) = v.
Proof. unfold shown. by destruct (String.eqb_spec v "") as [-> |]. Qed.

(** The link of the template: the key as it is, the login encoded, and
    no "=" in front of an empty value. *)
Lemma reset_link_shape key login :
  Str.all plain key = true ->
  ResetLink.reset_link key login
  = ResetLink.frontend_url
    ++ String "?" (piece "key" (shown key)
                   ++ String "&" (piece "login" (shown (rawurlencode login)))).
Proof.
  intros Hk. pose proof (rawurlencode_plain login) as Hl.
  unfold ResetLink.reset_link, ResetLink.add_query_arg.
  cbn [List.map fst snd String.concat].
  set (E := rawurlencode login) in *.
  assert (Hq : Str.all (fun c => negb (Ascii.eqb "?" c))
                 ("key" ++ "=" ++ key ++ "&" ++ "login" ++ "=" ++ E) = true).
  { assert (Hnq : forall s, Str.all plain s = true ->
                    Str.all (fun c => negb (Ascii.eqb "?" c)) s = true).
    { intros s. apply all_impl. intros c Hc.
      apply negb_true_iff, Ascii.eqb_neq. intros <-. discriminate. }
    rewrite !all_app, (Hnq key Hk), (Hnq E Hl). reflexivity. }
  match goal with
  | |- context [trim ?p ?q] =>
      assert (Htrim : trim p q
                      = "key" ++ String "=" (key ++ "&login" ++ String "=" (E ++ "")))
  end.
  { unfold trim.
    change (ltrim (Ascii.eqb "?") (("key" ++ "=" ++ key) ++ "&" ++ "login" ++ "=" ++ E))
      with ("key" ++ "=" ++ key ++ "&" ++ "login" ++ "=" ++ E).
    rewrite rtrim_clean by exact Hq.
    rewrite append_empty_r. reflexivity. }
  rewrite Htrim. clear Htrim.
  rewrite drop_empty_eq_pair;
    [| reflexivity | assumption | right; by eexists].
  rewrite drop_empty_eq_pair; [| reflexivity | assumption | by left].
  cbn [ResetLink.drop_empty_eq]. rewrite append_empty_r.
  change (piece "&login" (shown E)) with (String "&" (piece "login" (shown E))).
  rewrite <- append_assoc.
  change (ResetLink.frontend_url ++ "?"
          ++ piece "key" (shown key) ++ String "&" (piece "login" (shown E)))
    with ((ResetLink.frontend_url ++ "?")
          ++ (piece "key" (shown key) ++ String "&" (piece "login" (shown E)))).
  rewrite rtrim_app_clean.
  - rewrite drop_question_clean; [by rewrite append_assoc |].
    rewrite all_app. apply andb_true_iff. split; [reflexivity |].
    apply two_pieces_no_hash; (reflexivity || by apply shown_plain).
  - unfold piece. rewrite !append_cons. discriminate.
  - assert (Hnq : forall n v, Str.all plain n = true -> plain_opt v = true ->
                    Str.all (fun c => negb (Ascii.eqb "?" c)) (piece n v) = true).
    { intros n v Hn Hv. unfold piece. rewrite all_app.
      assert (Hi : forall s, Str.all plain s = true ->
                Str.all (fun c => negb (Ascii.eqb "?" c)) s = true).
      { intros s. apply all_impl. intros c Hc.
        apply negb_true_iff, Ascii.eqb_neq. intros <-. discriminate. }
      rewrite (Hi n Hn). destruct v as [v |]; cbn; [by apply Hi | reflexivity]. }
    rewrite all_app, Hnq; [| reflexivity | by apply shown_plain].
    cbn. apply Hnq; [reflexivity | by apply shown_plain].
Qed.

(** *** The plugin's link *)

Lemma hrl_build_frontend_reset_url_shape cfg key login :
  ResetLink.hrl_build_frontend_reset_url cfg key login
  = (ResetLink.hrl_get_frontend_url cfg ++ "/reset-password")
    ++ String "?" (piece "key" (Some (rawurlencode key))
                   ++ String "&" (piece "login" (Some (rawurlencode login)))).
Proof.
  unfold ResetLink.hrl_build_frontend_reset_url, http_build_query, piece.
  cbn [List.map fst snd String.concat].
  change (rawurlencode "key") with "key".
  change (rawurlencode "login") with "login".
  rewrite !append_assoc. reflexivity.
Qed.

Lemma submit_request search pwd ls answers :
  Eff.requests (snd (ResetPassword.submit search pwd pwd (Eff.start ls answers)))
  = [Eff.Request "resetUserPassword"
       [("key", JStr (ResetPassword.key search));
        ("login", JStr (ResetPassword.login search));
        ("password", JStr pwd)]].
Proof.
  unfold ResetPassword.submit. rewrite String.eqb_refl. run_handler.
  by destruct (answers 0%nat).
Qed.

(** C8 (amended).  The plugin builds, for every reset key and login, the
    link <base>/reset-password?key=<key>&login=<login> with key and login
    encoded by [rawurlencode], where <base> is the configured frontend
    URL, trimmed and without trailing slashes; when <base> has no "?" and
    no "#", the ResetPassword page reads back exactly that key and login
    and passes them as the [key] and [login] variables of the
    resetUserPassword mutation.  The email template builds its link on
    the fixed base http://localhost:5173/reset-password, encodes the
    login only and appends the key as it is; for every login and every
    key made of unreserved characters the page reads back that key and
    login as well.  A parameter that is absent reads as "". *)
Theorem reset_link_round_trip :
  (forall cfg key login,
     let base := ResetLink.hrl_get_frontend_url cfg in
     let url := ResetLink.hrl_build_frontend_reset_url cfg key login in
     url = base ++ "/reset-password?key=" ++ rawurlencode key
                ++ "&login=" ++ rawurlencode login /\
     (exists slashes,
        trim php_blank (ResetLink.configured_url cfg) = base ++ slashes /\
        Str.all (Ascii.eqb "/") slashes = true) /\
     ends_with (Ascii.eqb "/") base = false /\
     (Str.all (fun c => negb (one_of "?#" c)) base = true ->
      ResetPassword.key (location_search url) = key /\
      ResetPassword.login (location_search url) = login /\
      forall pwd ls answers,
        Eff.requests (snd (ResetPassword.submit (location_search url) pwd pwd
                             (Eff.start ls answers)))
        = [Eff.Request "resetUserPassword"
             [("key", JStr key); ("login", JStr login);
              ("password", JStr pwd)]])) /\
  (forall key login,
     Str.all unreserved key = true ->
     let url := ResetLink.reset_link key login in
     url = "http://localhost:5173/reset-password?"
           ++ piece "key" (shown key) ++ "&"
           ++ piece "login" (shown (rawurlencode login)) /\
     ResetPassword.key (location_search url) = key /\
     ResetPassword.login (location_search url) = login /\
     forall pwd ls answers,
       Eff.requests (snd (ResetPassword.submit (location_search url) pwd pwd
                            (Eff.start ls answers)))
       = [Eff.Request "resetUserPassword"
            [("key", JStr key); ("login", JStr login);
             ("password", JStr pwd)]]) /\
  (forall search,
     (Url.get "key" (URLSearchParams search) = None ->
      ResetPassword.key search = "") /\
     (Url.get "login" (URLSearchParams search) = None ->
      ResetPassword.login search = "")).
Proof.
  split; [| split].
  - intros cfg key login base url.
    split; [| split; [| split]].
    + subst url base. rewrite hrl_build_frontend_reset_url_shape.
      unfold piece. rewrite !append_assoc. reflexivity.
    + apply rtrim_prefix.
    + apply rtrim_not_ends_with.
    + intros Hbase.
      assert (Hread :
        ResetPassword.key (location_search url) = key /\
        ResetPassword.login (location_search url) = login).
      { subst url. rewrite hrl_build_frontend_reset_url_shape.
        destruct (page_reads_two_pieces
                    (ResetLink.hrl_get_frontend_url cfg ++ "/reset-password")
                    (Some (rawurlencode key)) (Some (rawurlencode login)))
          as [Hk Hl].
        - fold base. by rewrite all_app, Hbase.
        - apply rawurlencode_plain.
        - apply rawurlencode_plain.
        - change (default "" (Some (rawurlencode key)))
            with (rawurlencode key) in Hk.
          change (default "" (Some (rawurlencode login)))
            with (rawurlencode login) in Hl.
          rewrite percent_decode_rawurlencode in Hk, Hl. by split. }
      destruct Hread as [Hk Hl]. repeat split; try assumption.
      intros pwd ls answers. by rewrite submit_request, Hk, Hl.
  - intros key login Hkey url.
    assert (Hplain : Str.all plain key = true).
    { rewrite <- (rawurlencode_unreserved key Hkey). apply rawurlencode_plain. }
    assert (Hshape := reset_link_shape key login Hplain). fold url in Hshape.
    assert (Hread :
      ResetPassword.key (location_search url) = key /\
      ResetPassword.login (location_search url) = login).
    { rewrite Hshape.
      destruct (page_reads_two_pieces ResetLink.frontend_url
                  (shown key) (shown (rawurlencode login))) as [Hk Hl].
      - reflexivity.
      - by apply shown_plain.
      - apply shown_plain, rawurlencode_plain.
      - rewrite shown_default in Hk, Hl.
        rewrite percent_decode_rawurlencode in Hl.
        rewrite <- (rawurlencode_unreserved key Hkey) in Hk at 2.
        rewrite percent_decode_rawurlencode in Hk. by split. }
    destruct Hread as [Hk Hl].
    split; [rewrite Hshape; reflexivity |].
    split; [exact Hk |]. split; [exact Hl |].
    intros pwd ls answers. by rewrite submit_request, Hk, Hl.
  - intros search. unfold ResetPassword.key, ResetPassword.login.
    split; intros ->; reflexivity.
Qed.

End ResetRoundTrip.

(** A link built by the plugin for a key and a login with reserved
    characters, and what the page reads from it. *)
Example plugin_link_example :
  let cfg := ResetLink.Settings (Some " http://localhost:5173// ") ""
                                "http://localhost:8000" in
  let url := ResetLink.hrl_build_frontend_reset_url cfg "aB3 x&y"
                                                    "amina+shop@example.com" in
  url = "http://localhost:5173/reset-password?key=aB3%20x%26y&login=amina%2Bshop%40example.com" /\
  ResetPassword.key (Url.location_search url) = "aB3 x&y" /\
  ResetPassword.login (Url.location_search url) = "amina+shop@example.com".
Proof. vm_compute. repeat split. Qed.

(** The template appends the key without encoding it: of a key with an
    "&" the page reads back only what is in front of the "&". *)
Lemma template_key_not_recovered :
  ResetLink.reset_link "a&b" "amina"
  = "http://localhost:5173/reset-password?key=a&b&login=amina" /\
  ResetPassword.key (Url.location_search (ResetLink.reset_link "a&b" "amina"))
  = "a".
Proof. vm_compute. split; reflexivity. Qed.

(** ** The bootstrap script: what runs, and in which order *)

(** A step has let the script go on. *)
Definition ok {A} (m : Bootstrap.Sh A) : bool :=
  match snd m with inl _ => true | inr _ => false end.

(** Steps one after the other, then [final]. *)
Definition in_sequence (steps : list (Bootstrap.Sh unit))
                       (final : Bootstrap.Sh unit) : Bootstrap.Sh unit :=
  fold_right (fun s k => s ;; k) final steps.

Lemma then_unfold (m k : Bootstrap.Sh unit) :
  (m ;; k) = if ok m then ((fst m ++ fst k)%list, snd k) else m.
Proof.
  destruct m as [l [[] | e]], k as [l' r]; reflexivity.
Qed.

Lemma ok_then (m k : Bootstrap.Sh unit) : ok (m ;; k) = ok m && ok k.
Proof. destruct m as [l [[] | e]], k as [l' [[] | e']]; reflexivity. Qed.

Lemma In_then c (m k : Bootstrap.Sh unit) :
  In c (fst (m ;; k)) <-> In c (fst m) \/ (ok m = true /\ In c (fst k)).
Proof.
  rewrite then_unfold. destruct (ok m) eqn:Hm; cbn [fst].
  - rewrite in_app_iff. tauto.
  - split; [tauto | intros [H | [[=] _]]; exact H].
Qed.

Lemma In_run c c' : In c (fst (Bootstrap.run c')) <-> c = c'.
Proof. cbn. split; [intros [<- | []]; reflexivity | intros ->; by left]. Qed.

Lemma ok_run c : ok (Bootstrap.run c) = true.
Proof. reflexivity. Qed.

Lemma in_sequence_ok steps final :
  Forall (fun s => ok s = true) steps ->
  in_sequence steps final
  = ((concat (List.map fst steps) ++ fst final)%list, snd final).
Proof.
  induction 1 as [| s steps Hs _ IH]; cbn [in_sequence fold_right].
  - by destruct final.
  - fold (in_sequence steps final). rewrite then_unfold, Hs, IH. cbn.
    by rewrite app_assoc.
Qed.

Lemma in_sequence_app before after final :
  in_sequence (before ++ after)%list final
  = in_sequence before (in_sequence after final).
Proof. unfold in_sequence. apply fold_right_app. Qed.

Lemma in_sequence_prefix steps final :
  fst (in_sequence steps final)
    `prefix_of` (concat (List.map fst steps) ++ fst final)%list.
Proof.
  induction steps as [| s steps IH]; cbn [in_sequence fold_right].
  - reflexivity.
  - fold (in_sequence steps final). rewrite then_unfold.
    destruct (ok s); cbn [fst List.map concat]; rewrite <- app_assoc.
    + by apply prefix_app.
    + apply prefix_app_r. reflexivity.
Qed.

(** A command of the trace belongs to a step all of whose predecessors
    have let the script go on. *)
Lemma in_sequence_In steps final c :
  In c (fst (in_sequence steps final)) ->
  (exists i s, steps !! i = Some s /\ In c (fst s) /\
               Forall (fun s' => ok s' = true) (take i steps)) \/
  (In c (fst final) /\ Forall (fun s' => ok s' = true) steps).
Proof.
  induction steps as [| s steps IH]; cbn [in_sequence fold_right].
  - intros H. right. by split.
  - fold (in_sequence steps final). rewrite then_unfold.
    destruct (ok s) eqn:Hs; cbn [fst].
    + intros H. apply in_app_or in H as [H | H].
      * left. exists 0%nat, s. repeat split; [assumption | constructor].
      * destruct (IH H) as [(i & s' & Hi & Hc & Hall) | [Hc Hall]].
        -- left. exists (S i), s'. repeat split; try assumption.
           cbn. by constructor.
        -- right. split; [assumption | by constructor].
    + intros H. left. exists 0%nat, s. repeat split; [assumption | constructor].
Qed.

Section BootstrapOrder.
Import Bootstrap.
Variable env : gmap string string.
Variable w : world.

(** The steps of the script. *)
Definition steps (fuel : nat) : list (Sh unit) :=
  [run (Echo "[bootstrap] Waiting for DB...");
   wait_for_db env w fuel 0;
   run (Echo "[bootstrap] Fixing permissions...");
   checked (Chown WP_PATH) (chown_first w);
   run (FindChmod "d" "755");
   run (FindChmod "f" "644");
   run (Wp ["core"; "is-installed"]);
   install env w;
   sync_option env "WP_HOME" "home";
   sync_option env "WP_SITEURL" "siteurl";
   activate_plugins env w;
   run (Wp ["rewrite"; "structure"; "/%postname%/"; "--hard"]);
   run (Wp ["rewrite"; "flush"; "--hard"]);
   checked (Chown WP_PATH) (chown_last w);
   run (Echo "[bootstrap] Handing off to original entrypoint...");
   run (ExecEntrypoint [ORIG_ENTRYPOINT; "apache2-foreground"])].

Lemma script_steps fuel : script env w fuel = in_sequence (steps fuel) (stop Exec).
Proof. reflexivity. Qed.

(** The commands of a run in which no step stops the script. *)
Definition full_trace (fuel : nat) : list cmd :=
  concat (List.map fst (steps fuel)).

(** *** The wait loop *)

Lemma wait_for_db_In fuel k c :
  In c (fst (wait_for_db env w fuel k)) ->
  c = PhpProbe (env !! "WORDPRESS_DB_HOST") \/ c = Sleep 2.
Proof.
  revert k. induction fuel as [| fuel IH]; intros k; cbn [wait_for_db].
  - intros [].
  - rewrite then_unfold. cbn [ok run snd fst].
    destruct (probe env w k).
    + cbn. intros [<- | []]. by left.
    + rewrite then_unfold. cbn [ok run snd fst].
      intros [<- | [<- | H]]; [by left | by right | by apply (IH (S k))].
Qed.

Lemma wait_for_db_ok fuel k :
  ok (wait_for_db env w fuel k) = true ->
  exists j, (j < fuel)%nat /\ probe env w (k + j) = true /\
            forall i, (i < j)%nat -> probe env w (k + i) = false.
Proof.
  revert k. induction fuel as [| fuel IH]; intros k; cbn [wait_for_db].
  - discriminate.
  - rewrite then_unfold. cbn [ok run snd fst].
    destruct (probe env w k) eqn:Hp.
    + intros _. exists 0%nat. rewrite Nat.add_0_r.
      repeat split; [lia | assumption | intros i Hi; lia].
    + rewrite then_unfold. cbn [ok run snd fst].
      change (match (wait_for_db env w fuel (S k)).2 with
              | inl _ => true | inr _ => false end)
        with (ok (wait_for_db env w fuel (S k))).
      intros H. destruct (IH (S k) H) as (j & Hj & Hpj & Hbefore).
      exists (S j). repeat split.
      * lia.
      * by replace (k + S j)%nat with (S k + j)%nat by lia.
      * intros i Hi. destruct i as [| i].
        -- by rewrite Nat.add_0_r.
        -- replace (k + S i)%nat with (S k + i)%nat by lia. apply Hbefore. lia.
Qed.

Lemma wait_for_db_succeeds fuel k j :
  (j < fuel)%nat -> probe env w (k + j) = true ->
  ok (wait_for_db env w fuel k) = true.
Proof.
  revert k j. induction fuel as [| fuel IH]; intros k j Hj Hp; [lia |].
  cbn [wait_for_db]. rewrite then_unfold. cbn [ok run snd fst].
  destruct (probe env w k) eqn:Hk; [reflexivity |].
  rewrite then_unfold. cbn [ok run snd fst].
  destruct j as [| j]; [rewrite Nat.add_0_r in Hp; congruence |].
  apply (IH (S k) j); [lia |].
  by replace (S k + j)%nat with (k + S j)%nat by lia.
Qed.

(** The probe succeeds only through a connection to the host and port of
    WORDPRESS_DB_HOST. *)
Lemma probe_connects k :
  probe env w k = true ->
  exists h, env !! "WORDPRESS_DB_HOST" = Some h /\
            tcp_connect w (fst (Url.split_first ":" h))
                        (default "3306" (snd (Url.split_first ":" h))) k = true.
Proof.
  unfold probe. destruct (env !! "WORDPRESS_DB_HOST") as [h |]; [| discriminate].
  destruct (ResetLink.php_truthy h); [| discriminate].
  intros H. exists h. split; [reflexivity |].
  by destruct (Url.split_first ":" h) as [host port].
Qed.

(** *** Installation *)

Lemma install_In c :
  In c (fst (install env w)) ->
  (exists text, c = Echo text) \/
  (wp_status w ["core"; "is-installed"] = false /\
   exists args, c = Wp ("config" :: "create" :: args) \/
                c = Wp ("core" :: "install" :: args)).
Proof.
  unfold install, expand.
  destruct (wp_status w ["core"; "is-installed"]); cbn [negb].
  - cbn. intros [<- | []]. left. by eexists.
  - destruct (env !! "WORDPRESS_DB_NAME") as [n |];
      [| cbn; intros [<- | []]; left; by eexists].
    destruct (env !! "WORDPRESS_DB_USER") as [u |];
      [| cbn; intros [<- | []]; left; by eexists].
    destruct (env !! "WORDPRESS_DB_PASSWORD") as [p |];
      [| cbn; intros [<- | []]; left; by eexists].
    destruct (env !! "WORDPRESS_DB_HOST") as [h |];
      [| cbn; intros [<- | []]; left; by eexists].
    cbn -[wp_status].
    match goal with
    | |- context [wp_status w ?a] => destruct (wp_status w a)
    end; cbn -[wp_status].
    + intros [<- | [<- | [<- | [<- | []]]]];
        try (left; by eexists); right; (split; [reflexivity |]);
        eexists; (by left) || (by right).
    + intros [<- | [<- | []]]; [left; by eexists |].
      right. split; [reflexivity |]. eexists. by left.
Qed.

Lemma install_already :
  wp_status w ["core"; "is-installed"] = true -> ok (install env w) = true.
Proof. intros H. unfold install. by rewrite H. Qed.

Lemma sync_option_In var option_ c :
  In c (fst (sync_option env var option_)) ->
  exists v, c = Wp ["option"; "update"; option_; v].
Proof.
  unfold sync_option. destruct (negb _); cbn; [| intros []].
  intros [<- | []]. by eexists.
Qed.

Lemma sync_option_ok var option_ : ok (sync_option env var option_) = true.
Proof. unfold sync_option. by destruct (negb _). Qed.

(** *** Plugins *)

Lemma activate_each_ok slugs : ok (activate_each w slugs) = true.
Proof.
  induction slugs as [| slug slugs IH]; [reflexivity |].
  cbn [activate_each]. rewrite !ok_then, IH, ok_run.
  destruct (wp_status w _); [by rewrite ok_then, !ok_run | by rewrite ok_run].
Qed.

Lemma activate_each_In slugs c :
  In c (fst (activate_each w slugs)) ->
  (exists text, c = Echo text) \/
  (exists slug, In slug slugs /\ c = Wp ["plugin"; "is-installed"; slug]) \/
  (exists slug, In slug slugs /\
                wp_status w ["plugin"; "is-installed"; slug] = true /\
                c = Wp ["plugin"; "activate"; slug]).
Proof.
  induction slugs as [| slug slugs IH]; [intros [] |].
  cbn [activate_each]. rewrite !In_then, In_run.
  intros [-> | [_ [H | [_ H]]]].
  - right. left. exists slug. split; [by left | reflexivity].
  - destruct (wp_status w ["plugin"; "is-installed"; slug]) eqn:Hinst.
    + rewrite In_then, !In_run in H. destruct H as [-> | [_ ->]].
      * right. right. exists slug. repeat split; [by left | assumption].
      * left. by eexists.
    + rewrite In_run in H. subst c. left. by eexists.
  - destruct (IH H) as [He | [(s & Hs & ->) | (s & Hs & Hi & ->)]].
    + by left.
    + right. left. exists s. split; [by right | reflexivity].
    + right. right. exists s. repeat split; [by right | assumption].
Qed.

Lemma activate_each_activates slugs slug :
  In slug slugs -> wp_status w ["plugin"; "is-installed"; slug] = true ->
  In (Wp ["plugin"; "activate"; slug]) (fst (activate_each w slugs)).
Proof.
  induction slugs as [| s slugs IH]; [intros [] |].
  intros Hin Hinst. cbn [activate_each]. rewrite !In_then, ok_run.
  right. split; [reflexivity |].
  destruct Hin as [-> | Hin].
  - left. rewrite Hinst, In_then, In_run. by left.
  - right. split; [| by apply IH].
    destruct (wp_status w ["plugin"; "is-installed"; s]);
      [by rewrite ok_then, !ok_run | by rewrite ok_run].
Qed.

Definition listed_plugins : list string :=
  words (expand_default env "WP_PLUGINS" "").

Lemma activate_plugins_ok : ok (activate_plugins env w) = true.
Proof.
  unfold activate_plugins. destruct (negb _); [| reflexivity].
  by rewrite ok_then, ok_run, activate_each_ok.
Qed.

Lemma activate_plugins_In c :
  In c (fst (activate_plugins env w)) ->
  (exists text, c = Echo text) \/
  (exists slug, In slug listed_plugins /\ c = Wp ["plugin"; "is-installed"; slug]) \/
  (exists slug, In slug listed_plugins /\
                wp_status w ["plugin"; "is-installed"; slug] = true /\
                c = Wp ["plugin"; "activate"; slug]).
Proof.
  unfold activate_plugins, listed_plugins.
  destruct (negb _); [| cbn; intros [<- | []]; left; by eexists].
  rewrite In_then, In_run.
  intros [-> | [_ H]]; [left; by eexists | by apply activate_each_In].
Qed.

Lemma activate_plugins_activates slug :
  In slug listed_plugins ->
  wp_status w ["plugin"; "is-installed"; slug] = true ->
  In (Wp ["plugin"; "activate"; slug]) (fst (activate_plugins env w)).
Proof.
  unfold activate_plugins, listed_plugins.
  destruct (String.eqb_spec (expand_default env "WP_PLUGINS" "") "") as [-> | _];
    cbn [negb]; [intros [] |].
  intros Hin Hinst. rewrite In_then, ok_run.
  right. split; [reflexivity | by apply activate_each_activates].
Qed.

End BootstrapOrder.

Lemma in_sequence_stops steps final :
  ~ Forall (fun s => ok s = true) steps ->
  exists s, In s steps /\ ok s = false /\
            in_sequence steps final
            = (fst (in_sequence steps final), snd s).
Proof.
  induction steps as [| s steps IH]; intros Hnot.
  - exfalso. apply Hnot. constructor.
  - cbn [in_sequence fold_right]. fold (in_sequence steps final).
    rewrite then_unfold. destruct (ok s) eqn:Hs.
    + destruct IH as (s' & Hin & Hno & Heq).
      { intros Hall. apply Hnot. by constructor. }
      exists s'. repeat split; [by right | assumption |].
      cbn [fst snd]. by rewrite Heq.
    + exists s. repeat split; [by left | assumption | by destruct s].
Qed.

Section BootstrapRun.
Import Bootstrap.
Variable env : gmap string string.
Variable w : world.

Lemma wait_for_db_ending fuel k :
  snd (wait_for_db env w fuel k) = inl tt \/
  snd (wait_for_db env w fuel k) = inr Waiting.
Proof.
  revert k. induction fuel as [| fuel IH]; intros k; cbn [wait_for_db];
    [by right |].
  rewrite then_unfold, ok_run. cbn [snd].
  destruct (probe env w k); [by left |].
  rewrite then_unfold, ok_run. cbn [snd]. apply IH.
Qed.

Lemma install_ending :
  snd (install env w) = inl tt \/ snd (install env w) = inr Aborted.
Proof.
  unfold install, expand.
  destruct (wp_status w ["core"; "is-installed"]); cbn [negb]; [by left |].
  destruct (env !! "WORDPRESS_DB_NAME"); [| by right].
  destruct (env !! "WORDPRESS_DB_USER"); [| by right].
  destruct (env !! "WORDPRESS_DB_PASSWORD"); [| by right].
  destruct (env !! "WORDPRESS_DB_HOST"); [| by right].
  cbn -[wp_status].
  match goal with
  | |- context [wp_status w ?a] => destruct (wp_status w a)
  end; cbn -[wp_status]; [| by right].
  match goal with
  | |- context [wp_status w ?a] => destruct (wp_status w a)
  end; cbn; [by left | by right].
Qed.

(** No step ends the script the way the hand-over does. *)
Lemma steps_never_exec fuel s :
  In s (steps env w fuel) -> snd s <> inr Exec.
Proof.
  unfold steps. cbn [In]. intros H.
  repeat (destruct H as [<- | H]); try discriminate; try (by destruct H).
  - destruct (wait_for_db_ending fuel 0) as [-> | ->]; discriminate.
  - unfold checked. destruct (chown_first w); discriminate.
  - destruct install_ending as [-> | ->]; discriminate.
  - pose proof (sync_option_ok env "WP_HOME" "home") as H. unfold ok in H.
    destruct (snd (sync_option env "WP_HOME" "home")); [discriminate | discriminate].
  - pose proof (sync_option_ok env "WP_SITEURL" "siteurl") as H. unfold ok in H.
    destruct (snd (sync_option env "WP_SITEURL" "siteurl"));
      [discriminate | discriminate].
  - pose proof (activate_plugins_ok env w) as H. unfold ok in H.
    destruct (snd (activate_plugins env w)); [discriminate | discriminate].
  - unfold checked. destruct (chown_last w); discriminate.
Qed.

Lemma steps_all_ok fuel :
  Forall (fun s => ok s = true) (steps env w fuel) <->
  ok (wait_for_db env w fuel 0) = true /\ chown_first w = true /\
  ok (install env w) = true /\ chown_last w = true.
Proof.
  unfold steps. rewrite !Forall_cons, Forall_nil.
  rewrite !ok_run, !sync_option_ok, activate_plugins_ok.
  assert (Hc : forall c b, ok (checked c b) = true <-> b = true).
  { intros c b. unfold checked, ok. destruct b; cbn; split; congruence. }
  rewrite !Hc. tauto.
Qed.

Lemma outcome_exec fuel :
  outcome env w fuel = Exec <->
  Forall (fun s => ok s = true) (steps env w fuel).
Proof.
  unfold outcome. rewrite script_steps. split.
  - intros Hout.
    destruct (decide (Forall (fun s : Sh unit => ok s = true)
                             (steps env w fuel)))
      as [Hall | Hnot]; [assumption |].
    destruct (in_sequence_stops _ (stop Exec) Hnot) as (s & Hin & Hno & Heq).
    rewrite Heq in Hout. cbn [snd] in Hout.
    pose proof (steps_never_exec fuel s Hin) as Hne.
    unfold ok in Hno. destruct (snd s) as [[] | e]; [discriminate |].
    subst e. contradiction.
  - intros Hall. by rewrite in_sequence_ok.
Qed.

Lemma trace_full fuel :
  outcome env w fuel = Exec -> trace env w fuel = full_trace env w fuel.
Proof.
  intros H. apply outcome_exec in H. unfold trace. rewrite script_steps.
  rewrite in_sequence_ok by assumption. cbn [fst]. apply app_nil_r.
Qed.

Lemma trace_prefix fuel :
  trace env w fuel `prefix_of` full_trace env w fuel.
Proof.
  unfold trace, full_trace. rewrite script_steps.
  pose proof (in_sequence_prefix (steps env w fuel) (stop Exec)) as H.
  cbn [stop fst] in H. by rewrite app_nil_r in H.
Qed.

(** Every command of the trace is the command of a step whose
    predecessors all let the script go on. *)
Lemma trace_In fuel c :
  In c (trace env w fuel) ->
  exists i s, steps env w fuel !! i = Some s /\ In c (fst s) /\
              Forall (fun s' => ok s' = true) (take i (steps env w fuel)).
Proof.
  unfold trace. rewrite script_steps. intros H.
  apply in_sequence_In in H as [H | [[] _]]. exact H.
Qed.

End BootstrapRun.

Ltac classify Hc :=
  lazymatch type of Hc with
  | In _ (fst (Bootstrap.run _)) => apply In_run in Hc
  | In _ (fst (Bootstrap.checked _ _)) =>
      cbn in Hc; destruct Hc as [Hc | []]; symmetry in Hc
  | In _ (fst (Bootstrap.wait_for_db _ _ _ _)) =>
      apply wait_for_db_In in Hc; destruct Hc as [Hc | Hc]
  | In _ (fst (Bootstrap.install _ _)) =>
      apply install_In in Hc;
      destruct Hc as [[? Hc] | [? [? [Hc | Hc]]]]
  | In _ (fst (Bootstrap.sync_option _ _ _)) =>
      apply sync_option_In in Hc; destruct Hc as [? Hc]
  | In _ (fst (Bootstrap.activate_plugins _ _)) =>
      apply activate_plugins_In in Hc;
      destruct Hc as [[? Hc] | [(? & ? & Hc) | (? & ? & ? & Hc)]]
  end.

Ltac each_step i Hi Hc :=
  unfold steps in Hi;
  repeat (destruct i as [| i];
          [injection Hi as <-; classify Hc
          | cbn [lookup list_lookup] in Hi]);
  try discriminate.

Section BootstrapTheorem.
Import Bootstrap.
Variable env : gmap string string.
Variable w : world.

Lemma before_ok fuel i j s :
  Forall (fun s' => ok s' = true) (take i (steps env w fuel)) ->
  (j < i)%nat -> steps env w fuel !! j = Some s -> ok s = true.
Proof.
  intros Hall Hj Hs.
  apply (Forall_lookup_1 _ _ j s Hall). by rewrite lookup_take_lt.
Qed.

Lemma past_wait fuel c :
  In c (trace env w fuel) ->
  c <> Echo "[bootstrap] Waiting for DB..." ->
  (forall h, c <> PhpProbe h) -> (forall n, c <> Sleep n) ->
  ok (wait_for_db env w fuel 0) = true.
Proof.
  intros Hin He Hp Hs.
  destruct (trace_In env w fuel c Hin) as (i & s & Hi & Hc & Hall).
  destruct i as [| [| i]].
  - injection Hi as <-. apply In_run in Hc. contradiction.
  - injection Hi as <-. apply wait_for_db_In in Hc as [Hc | Hc];
      [by apply Hp in Hc | by apply Hs in Hc].
  - apply (before_ok fuel (S (S i)) 1 _ Hall); [lia | reflexivity].
Qed.

Lemma install_commands_only_when_missing fuel args :
  In (Wp ("config" :: "create" :: args)) (trace env w fuel) \/
  In (Wp ("core" :: "install" :: args)) (trace env w fuel) ->
  wp_status w ["core"; "is-installed"] = false.
Proof.
  intros [Hin | Hin];
    destruct (trace_In env w fuel _ Hin) as (i & s & Hi & Hc & Hall);
    each_step i Hi Hc; assumption.
Qed.

Lemma activation_only_listed_installed fuel slug :
  In (Wp ["plugin"; "activate"; slug]) (trace env w fuel) ->
  In slug (listed_plugins env) /\
  wp_status w ["plugin"; "is-installed"; slug] = true.
Proof.
  intros Hin.
  destruct (trace_In env w fuel _ Hin) as (i & s & Hi & Hc & Hall).
  each_step i Hi Hc.
  injection Hc as ->. by split.
Qed.

(** Once the wait, the first [chown] and the installation have let the
    script go on, every listed and installed plugin is activated. *)
Lemma activation_of_listed_installed fuel slug :
  ok (wait_for_db env w fuel 0) = true -> chown_first w = true ->
  ok (install env w) = true ->
  In slug (listed_plugins env) ->
  wp_status w ["plugin"; "is-installed"; slug] = true ->
  In (Wp ["plugin"; "activate"; slug]) (trace env w fuel).
Proof.
  intros Hwait Hchown Hinstall Hin Hinst. unfold trace. rewrite script_steps.
  change (steps env w fuel)
    with (take 10 (steps env w fuel) ++ drop 10 (steps env w fuel))%list.
  rewrite in_sequence_app, in_sequence_ok.
  - cbn [fst]. apply in_or_app. right.
    cbn [drop steps in_sequence fold_right]. apply In_then. left.
    by apply activate_plugins_activates.
  - cbn [take steps]. rewrite !Forall_cons, Forall_nil.
    rewrite !ok_run, !sync_option_ok, Hwait, Hinstall.
    unfold checked, ok. rewrite Hchown. cbn. tauto.
Qed.

Lemma exec_only_at_end fuel :
  In (ExecEntrypoint [ORIG_ENTRYPOINT; "apache2-foreground"]) (trace env w fuel)
  <-> outcome env w fuel = Exec.
Proof.
  split.
  - intros Hin.
    destruct (trace_In env w fuel _ Hin) as (i & s & Hi & Hc & Hall).
    each_step i Hi Hc.
    apply outcome_exec.
    change (steps env w fuel)
      with (take 15 (steps env w fuel)
            ++ [run (ExecEntrypoint [ORIG_ENTRYPOINT; "apache2-foreground"])])%list.
    apply Forall_app. split; [exact Hall | by constructor].
  - intros Hout. rewrite (trace_full env w fuel Hout).
    unfold full_trace, steps. cbn [List.map concat].
    rewrite !in_app_iff. do 15 right. left. by left.
Qed.

(** C9.  Whatever the world answers and however long the run is
    observed: (1) a command other than the wait loop's own (its
    announcement, the probe, the sleep) is run only after a probe has
    succeeded, and a probe succeeds only by opening a connection to the
    host and port of WORDPRESS_DB_HOST; (2) [wp config create] and
    [wp core install] are run only when [wp core is-installed] has
    failed; (3) [wp plugin activate slug] is run only for a slug that is
    a word of WP_PLUGINS and is installed, and once the wait, the first
    [chown] and the installation step have let the script go on it is
    run for every such slug; (4) the commands are run in
    the order of the script (the trace is a prefix of the full sequence
    of steps), the original entrypoint is exec'ed exactly in the runs
    whose every step has let the script go on, and then the trace is the
    full sequence; (5) the hand-over is reached as soon as a probe
    succeeds within the observation, both [chown] succeed and the
    installation step does not abort. *)
Theorem bootstrap_ordering (fuel : nat) :
  (forall c,
     In c (trace env w fuel) ->
     c <> Echo "[bootstrap] Waiting for DB..." ->
     (forall h, c <> PhpProbe h) -> (forall n, c <> Sleep n) ->
     exists k h,
       (k < fuel)%nat /\ (forall i, (i < k)%nat -> probe env w i = false) /\
       env !! "WORDPRESS_DB_HOST" = Some h /\
       tcp_connect w (fst (Url.split_first ":" h))
                   (default "3306" (snd (Url.split_first ":" h))) k = true) /\
  (forall args,
     In (Wp ("config" :: "create" :: args)) (trace env w fuel) \/
     In (Wp ("core" :: "install" :: args)) (trace env w fuel) ->
     wp_status w ["core"; "is-installed"] = false) /\
  (forall slug,
     In (Wp ["plugin"; "activate"; slug]) (trace env w fuel) ->
     In slug (words (expand_default env "WP_PLUGINS" "")) /\
     wp_status w ["plugin"; "is-installed"; slug] = true) /\
  (ok (wait_for_db env w fuel 0) = true -> chown_first w = true ->
   ok (install env w) = true ->
   forall slug,
     In slug (words (expand_default env "WP_PLUGINS" "")) ->
     wp_status w ["plugin"; "is-installed"; slug] = true ->
     In (Wp ["plugin"; "activate"; slug]) (trace env w fuel)) /\
  trace env w fuel `prefix_of` full_trace env w fuel /\
  (In (ExecEntrypoint [ORIG_ENTRYPOINT; "apache2-foreground"])
      (trace env w fuel)
   <-> outcome env w fuel = Exec) /\
  (outcome env w fuel = Exec -> trace env w fuel = full_trace env w fuel) /\
  (forall k,
     (k < fuel)%nat -> probe env w k = true ->
     chown_first w = true -> chown_last w = true ->
     ok (install env w) = true ->
     outcome env w fuel = Exec).
Proof.
  split; [| split; [| split; [| split; [| split; [| split; [| split]]]]]].
  - intros c Hin He Hp Hs.
    pose proof (past_wait fuel c Hin He Hp Hs) as Hok.
    apply wait_for_db_ok in Hok as (k & Hk & Hpk & Hbefore).
    cbn [Nat.add] in Hpk.
    destruct (probe_connects env w k Hpk) as (h & Hh & Hconn).
    exists k, h. repeat split; assumption.
  - apply install_commands_only_when_missing.
  - apply activation_only_listed_installed.
  - intros Hwait Hchown Hinstall slug Hin Hinst.
    by apply activation_of_listed_installed.
  - apply trace_prefix.
  - apply exec_only_at_end.
  - apply trace_full.
  - intros k Hk Hp Hc1 Hc2 Hi. apply outcome_exec, steps_all_ok.
    repeat split; try assumption.
    by apply (wait_for_db_succeeds env w fuel 0 k).
Qed.

End BootstrapTheorem.

(** A run: the database answers the third probe, WordPress is not yet
    installed, and of the three plugins asked for one is missing. *)
Definition sample_env : gmap string string :=
  list_to_map
    [("WORDPRESS_DB_HOST", "db:3306"); ("WORDPRESS_DB_NAME", "wordpress");
     ("WORDPRESS_DB_USER", "wp"); ("WORDPRESS_DB_PASSWORD", "secret");
     ("WP_HOME", "http://localhost:8000");
     ("WP_PLUGINS", "wp-graphql  woocommerce headless-reset-link")].

Definition sample_world : Bootstrap.world :=
  Bootstrap.World
    (fun host port k => String.eqb host "db" && String.eqb port "3306"
                        && (2 <=? k)%nat)
    true true
    (fun args =>
       match args with
       | ["core"; "is-installed"] => false
       | ["plugin"; "is-installed"; slug] =>
           negb (String.eqb slug "woocommerce")
       | _ => true
       end).

Example bootstrap_run_example :
  Bootstrap.outcome sample_env sample_world 2 = Bootstrap.Waiting /\
  Bootstrap.outcome sample_env sample_world 5 = Bootstrap.Exec /\
  List.filter
    (fun c => match c with
              | Bootstrap.Wp ("plugin" :: "activate" :: _) => true
              | _ => false
              end)
    (Bootstrap.trace sample_env sample_world 5)
  = [Bootstrap.Wp ["plugin"; "activate"; "wp-graphql"];
     Bootstrap.Wp ["plugin"; "activate"; "headless-reset-link"]] /\
  List.length (Bootstrap.trace sample_env sample_world 5) = 30%nat.
Proof. vm_compute. repeat split. Qed.

(* ===================================================================== *)
(** * Part III: further properties of the code                            *)
(* ===================================================================== *)

(** ** Badges derived from product tags *)

(** Some tag is named [b], up to letter case. *)
Definition tagged (tags : list (option string)) (b : string) : Prop :=
  exists t, In (Some t) tags /\ ci_equal t b.

Lemma includes_names_tagged tags b :
  Str.toUpperCase b = b -> b <> "" ->
  Tags.includes (Tags.names tags) b = true <-> tagged tags b.
Proof.
  intros Hup Hne. unfold Tags.includes, Tags.names, tagged.
  rewrite existsb_exists. split.
  - intros (x & Hin & Hx). apply String.eqb_eq in Hx. subst x.
    apply in_map_iff in Hin as (t & Ht & Hin).
    destruct t as [t |].
    + change (Str.toUpperCase t = b) in Ht.
      exists t. split; [assumption |].
      apply upper_eq_iff_lower_eq. by rewrite Ht.
    + change ("" = b) in Ht. congruence.
  - intros (t & Hin & Hci). exists b. split; [| apply String.eqb_refl].
    apply in_map_iff. exists (Some t). split; [| assumption].
    change (Str.toUpperCase t = b).
    apply upper_eq_iff_lower_eq in Hci. by rewrite Hci.
Qed.

(** X1.  The badge of a NewIphones card is "HOT" exactly when one of
    the product's tags is named hot in any letter case, "NEW" exactly
    when none is named hot and one is named new, "SALE" exactly when
    none is named hot or new and one is named sale, and "NONE" exactly
    when no tag has one of the three names; it is always one of these
    four texts. *)
Theorem NewIphones_deriveBadge_spec (tags : list (option string)) :
  (NewIphonesCards.deriveBadge tags = "HOT" <-> tagged tags "HOT") /\
  (NewIphonesCards.deriveBadge tags = "NEW" <->
   ~ tagged tags "HOT" /\ tagged tags "NEW") /\
  (NewIphonesCards.deriveBadge tags = "SALE" <->
   ~ tagged tags "HOT" /\ ~ tagged tags "NEW" /\ tagged tags "SALE") /\
  (NewIphonesCards.deriveBadge tags = "NONE" <->
   ~ tagged tags "HOT" /\ ~ tagged tags "NEW" /\ ~ tagged tags "SALE") /\
  In (NewIphonesCards.deriveBadge tags) NewIphonesCards.badge_options.
Proof.
  pose proof (includes_names_tagged tags "HOT" eq_refl ltac:(discriminate)) as Hh.
  pose proof (includes_names_tagged tags "NEW" eq_refl ltac:(discriminate)) as Hn.
  pose proof (includes_names_tagged tags "SALE" eq_refl ltac:(discriminate)) as Hs.
  unfold NewIphonesCards.deriveBadge, NewIphonesCards.badge_options.
  destruct (Tags.includes (Tags.names tags) "HOT");
    destruct (Tags.includes (Tags.names tags) "NEW");
    destruct (Tags.includes (Tags.names tags) "SALE");
    cbn [In];
    repeat split; try discriminate; try tauto; try (intros; exfalso; tauto);
    try (intuition congruence).
Qed.

Lemma NewIphones_deriveBadge_range (tags : list (option string)) :
  In (NewIphonesCards.deriveBadge tags) NewIphonesCards.badge_options.
Proof.
  unfold NewIphonesCards.deriveBadge, NewIphonesCards.badge_options.
  destruct (Tags.includes (Tags.names tags) "HOT");
    destruct (Tags.includes (Tags.names tags) "NEW");
    destruct (Tags.includes (Tags.names tags) "SALE"); cbn [In]; tauto.
Qed.

(** ** The badge select of the NewIphones page *)

Section NewIphonesItems.
Import NewIphonesCards.
Variable toLocaleString : Q -> string.
Variable trim : string -> string.

(** The cards with the badge [b]. *)
Definition with_badge (b : string) (l : list card) : list card :=
  List.filter (fun p => String.eqb (badge p) b) l.

Lemma items_with_badge b nodes :
  b <> "All" ->
  items toLocaleString trim b nodes
  = with_badge b (List.map (normalize toLocaleString trim) nodes).
Proof.
  intros Hb. unfold items, with_badge.
  destruct (String.eqb_spec b "All") as [-> | _]; [contradiction |].
  destruct (String.eqb_spec b "NONE") as [-> | _]; reflexivity.
Qed.

Lemma items_All nodes :
  items toLocaleString trim "All" nodes
  = List.map (normalize toLocaleString trim) nodes.
Proof.
  unfold items. cbn [String.eqb Ascii.eqb Bool.eqb].
  induction (List.map (normalize toLocaleString trim) nodes) as [| p l IH];
    [reflexivity |].
  cbn [List.filter]. by rewrite IH.
Qed.

Lemma normalize_badge_option n :
  In (badge (normalize toLocaleString trim n)) badge_options.
Proof. cbn [normalize badge]. apply NewIphones_deriveBadge_range. Qed.

Lemma partition_by_badge (l : list card) :
  Forall (fun p => In (badge p) badge_options) l ->
  l ≡ₚ (with_badge "HOT" l ++ with_badge "NEW" l
        ++ with_badge "SALE" l ++ with_badge "NONE" l)%list.
Proof.
  induction 1 as [| p l Hp _ IH]; [reflexivity |].
  unfold with_badge in *. cbn [List.filter].
  cbn [badge_options In] in Hp.
  destruct Hp as [<- | [<- | [<- | [<- | []]]]];
    cbn [String.eqb Ascii.eqb Bool.eqb].
  - cbn [app]. by apply Permutation_cons.
  - rewrite <- app_comm_cons, <- Permutation_middle.
    by apply Permutation_cons.
  - rewrite <- app_comm_cons, (app_assoc (List.filter _ l)).
    rewrite <- Permutation_middle, <- app_assoc.
    by apply Permutation_cons.
  - rewrite (app_assoc (List.filter _ l)), (app_assoc (_ ++ _)%list).
    rewrite <- Permutation_middle, <- !app_assoc.
    by apply Permutation_cons.
Qed.

(** X2.  On the NewIphones page the badge select "All" shows the card of
    every fetched product, in the order fetched; every other value of
    the select shows exactly the cards with that badge, in their order;
    and the four badges "HOT", "NEW", "SALE" and "NONE" split the cards
    among them: the cards shown under the four, taken together, are the
    cards shown under "All", each as often as it is there. *)
Theorem NewIphones_items_by_badge (nodes : list node) :
  items toLocaleString trim "All" nodes
  = List.map (normalize toLocaleString trim) nodes /\
  (forall b p, b <> "All" ->
     In p (items toLocaleString trim b nodes)
     <-> In p (items toLocaleString trim "All" nodes) /\ badge p = b) /\
  (forall b, sublist (items toLocaleString trim b nodes)
                     (items toLocaleString trim "All" nodes)) /\
  items toLocaleString trim "All" nodes
  ≡ₚ (items toLocaleString trim "HOT" nodes
      ++ items toLocaleString trim "NEW" nodes
      ++ items toLocaleString trim "SALE" nodes
      ++ items toLocaleString trim "NONE" nodes)%list.
Proof.
  split; [apply items_All |]. split; [| split].
  - intros b p Hb. rewrite items_All, items_with_badge by assumption.
    unfold with_badge. rewrite filter_In, String.eqb_eq. reflexivity.
  - intros b. rewrite items_All. apply filter_sublist.
  - rewrite items_All, !items_with_badge by discriminate.
    apply partition_by_badge, Forall_forall. intros p Hin.
    apply list_elem_of_In, in_map_iff in Hin as (n & <- & _).
    apply normalize_badge_option.
Qed.

End NewIphonesItems.

(** ** The wishlist *)

Section Wishlist.
Import NewIphonesCards.
Context {A : Type} `{EqDecision A}.

Lemma toggleWishlist_elem (id x : A) (prev : list A) :
  x ∈ toggleWishlist id prev
  <-> (x = id /\ id ∉ prev) \/ (x <> id /\ x ∈ prev).
Proof.
  unfold toggleWishlist. destruct (decide (id ∈ prev)) as [Hin | Hnin].
  - rewrite list_elem_of_filter. split.
    + intros [Hne Hx]. by right.
    + intros [[-> Hn] | [Hne Hx]]; [contradiction | by split].
  - rewrite elem_of_app, list_elem_of_singleton. split.
    + intros [Hx | ->]; [| by left].
      right. split; [| assumption]. intros ->. contradiction.
    + intros [[-> _] | [_ Hx]]; [by right | by left].
Qed.

Lemma toggleWishlist_NoDup (id : A) (prev : list A) :
  NoDup prev -> NoDup (toggleWishlist id prev).
Proof.
  intros Hnd. unfold toggleWishlist.
  destruct (decide (id ∈ prev)) as [Hin | Hnin].
  - by apply NoDup_filter.
  - apply NoDup_app. split; [assumption |]. split; [| apply NoDup_singleton].
    intros x Hx ->%list_elem_of_singleton. contradiction.
Qed.

(** How often the heart of [x] was clicked. *)
Definition clicks (x : A) (ids : list A) : nat :=
  length (filter (fun y => y = x) ids).

Lemma fold_toggle (ids : list A) (prev : list A) :
  NoDup prev ->
  let after := fold_left (fun prev id => toggleWishlist id prev) ids prev in
  NoDup after /\
  forall x, x ∈ after <-> (x ∈ prev <-> Nat.even (clicks x ids) = true).
Proof.
  revert prev. induction ids as [| id ids IH]; intros prev Hnd; cbn [fold_left].
  - split; [assumption |]. intros x. unfold clicks. cbn. tauto.
  - destruct (IH (toggleWishlist id prev) (toggleWishlist_NoDup id prev Hnd))
      as [Hnd' Hmem].
    split; [exact Hnd' |]. intros x. rewrite Hmem, toggleWishlist_elem.
    unfold clicks. rewrite filter_cons.
    destruct (decide (id = x)) as [-> | Hne].
    + cbn [length]. rewrite Nat.even_succ, <- Nat.negb_even.
      destruct (Nat.even _); destruct (decide (x ∈ prev)); cbn;
        intuition congruence.
    + destruct (Nat.even _); intuition congruence.
Qed.

(** X3.  The wishlist never holds an id twice, and after any sequence of
    clicks on hearts an id is in the wishlist exactly when its heart was
    clicked an odd number of times; a click on a heart changes the
    membership of that id only. *)
Theorem wishlist_spec (ids : list A) :
  NoDup (wishlist ids) /\
  (forall x, x ∈ wishlist ids <-> Nat.odd (clicks x ids) = true) /\
  (forall (id x : A) (prev : list A),
     x <> id -> (x ∈ toggleWishlist id prev <-> x ∈ prev)) /\
  (forall (id : A) (prev : list A),
     id ∈ toggleWishlist id prev <-> id ∉ prev).
Proof.
  destruct (fold_toggle ids [] (NoDup_nil_2 (A:=A))) as [Hnd Hmem].
  split; [exact Hnd |]. split; [| split].
  - intros x. unfold wishlist. rewrite Hmem, <- Nat.negb_even.
    destruct (Nat.even _); cbn; split; try congruence.
    + intros Hx. exfalso. by apply (not_elem_of_nil x), Hx.
    + intros _. split; [by intros ?%not_elem_of_nil | congruence].
  - intros id x prev Hne. rewrite toggleWishlist_elem. tauto.
  - intros id prev. rewrite toggleWishlist_elem. tauto.
Qed.

End Wishlist.

(** ** Adding to the cart and the header's badge *)

Ltac answer_cases :=
  repeat match goal with
         | |- context [match ?answers ?k with
                       | Eff.Resolved _ => _
                       | Eff.Rejected _ => _
                       end] =>
             destruct (answers k); cbn -[Eff.path Eff.first_text]
         | |- context [match Eff.path ?p ?v with Some _ => _ | None => _ end] =>
             destruct (Eff.path p v) as [[] |]; cbn -[Eff.path Eff.first_text]
         end.

Section AddToCartBadge.
Variable authed : bool.
Variable ls : gmap string string.
Variable answers : nat -> Eff.response.

(** What the answer to the addToCart mutation makes of the badge [c]:
    the server's count when the answer has one, one more when the
    mutation resolved without a numeric count, [c] when it failed. *)
Definition badge_expected (c : Z) : Z :=
  match answers 0%nat with
  | Eff.Resolved res =>
      match Eff.path (CartHandlers.itemCount_path "addToCart") (Some res) with
      | Some (JNum n) => n
      | _ => c + 1
      end
  | Eff.Rejected _ => c
  end.

(** The badge of the header once the handler [h] has run. *)
Definition badge_once (h : Eff.M unit) (c : Z) : Z :=
  Header.badge_after authed c
    (Header.cart_updated (Eff.log (snd (h (Eff.start ls answers))))).

(** X4.  With a badge that is not negative, the add-to-cart handler of
    the laptops section and the buy-now handler of the NewIphones page
    leave the header's badge at the item count the server answered
    with, at one more than before when the mutation resolved without a
    numeric count, and as it was when the mutation failed; buy-now on an
    item without a product id sends no request and leaves the badge as
    it was. *)
Theorem add_to_cart_badge (c : Z) :
  0 <= c ->
  (forall productId productName,
     badge_once (CartHandlers.handleAddToCart productId productName) c
     = badge_expected c) /\
  (forall item,
     Value.truthy_opt (item ≫= NewIphonesCards.product_id) = true ->
     badge_once (NewIphonesCards.handleBuyNow item) c = badge_expected c) /\
  (forall item,
     Value.truthy_opt (item ≫= NewIphonesCards.product_id) = false ->
     badge_once (NewIphonesCards.handleBuyNow item) c = c /\
     Eff.requests (snd (NewIphonesCards.handleBuyNow item (Eff.start ls answers)))
     = []).
Proof.
  intros Hc. unfold badge_once, badge_expected. split; [| split].
  - intros productId productName.
    unfold CartHandlers.handleAddToCart. run_handler.
    answer_cases; cbn; try reflexivity; lia.
  - intros item Hav. unfold NewIphonesCards.handleBuyNow.
    destruct item as [it |]; [| discriminate]. cbn in Hav. rewrite Hav.
    run_handler. answer_cases; cbn; try reflexivity; lia.
  - intros item Hav. unfold NewIphonesCards.handleBuyNow.
    destruct item as [it |]; cbn in Hav; [rewrite Hav |]; by run_handler.
Qed.

End AddToCartBadge.

(** A sale: the badge shows 2, the server answers the mutation with the
    count 3. *)
Lemma add_to_cart_badge_witness :
  Header.badge_after true 2
    (Header.cart_updated
       (Eff.log
          (snd (CartHandlers.handleAddToCart (JNum 41) "Laptop"
                  (Eff.start ∅
                     (fun _ => Eff.Resolved
                        (JObj [("data",
                           JObj [("addToCart",
                             JObj [("cart",
                               JObj [("contents",
                                 JObj [("itemCount", JNum 3)])])])])])))))))
  = 3.
Proof.
  pose proof (add_to_cart_badge true ∅
                (fun _ => Eff.Resolved
                   (JObj [("data",
                      JObj [("addToCart",
                        JObj [("cart",
                          JObj [("contents",
                            JObj [("itemCount", JNum 3)])])])])]))
                2 ltac:(lia)) as [H _].
  exact (H (JNum 41) "Laptop").
Defined.

(** ** The flags that disable a button while its request is under way *)

(** X5.  Whatever the server answers, the last thing that the
    add-to-cart handler of the laptops section, the buy-now handler of
    the NewIphones page (for an item with a product id) and the cart
    page's [onInc], [onDec] and [onRemove] do is to clear the flag they
    set for their row, also when the handler ends by throwing. *)
Theorem busy_flag_cleared (ls : gmap string string)
                          (answers : nat -> Eff.response) :
  (forall productId productName,
     last (Eff.log (snd (CartHandlers.handleAddToCart productId productName
                           (Eff.start ls answers))))
     = Some (Eff.SetState "setAddingMap" [productId])) /\
  (forall it,
     Value.truthy_opt (NewIphonesCards.product_id it) = true ->
     last (Eff.log (snd (NewIphonesCards.handleBuyNow (Some it)
                           (Eff.start ls answers))))
     = Some (Eff.SetState "setAddingMap"
               [JStr (Value.to_string_opt (NewIphonesCards.item_id it))])) /\
  (forall itemCount key qty,
     last (Eff.log (snd (CartHandlers.onInc itemCount key qty
                           (Eff.start ls answers))))
     = Some (Eff.SetState "setBusyKeys" [JStr key; JBool false])) /\
  (forall itemCount key qty,
     last (Eff.log (snd (CartHandlers.onDec itemCount key qty
                           (Eff.start ls answers))))
     = Some (Eff.SetState "setBusyKeys" [JStr key; JBool false])) /\
  (forall itemCount key,
     last (Eff.log (snd (CartHandlers.onRemove itemCount key
                           (Eff.start ls answers))))
     = Some (Eff.SetState "setBusyKeys" [JStr key; JBool false])).
Proof.
  split; [| split; [| split; [| split]]].
  - intros productId productName.
    unfold CartHandlers.handleAddToCart. run_handler.
    answer_cases; reflexivity.
  - intros it Hav. unfold NewIphonesCards.handleBuyNow. rewrite Hav.
    run_handler. answer_cases; reflexivity.
  - intros itemCount key qty.
    unfold CartHandlers.onInc, CartHandlers.setBusy, CartHandlers.refetch,
      CartHandlers.updateQty, CartHandlers.broadcastCount.
    run_handler. answer_cases; reflexivity.
  - intros itemCount key qty.
    unfold CartHandlers.onDec, CartHandlers.setBusy, CartHandlers.refetch,
      CartHandlers.updateQty, CartHandlers.removeItems,
      CartHandlers.broadcastCount.
    destruct (bool_decide (qty - 1 <= 0)); run_handler;
      answer_cases; reflexivity.
  - intros itemCount key.
    unfold CartHandlers.onRemove, CartHandlers.setBusy, CartHandlers.refetch,
      CartHandlers.removeItems, CartHandlers.broadcastCount.
    run_handler. answer_cases; reflexivity.
Qed.

(** ** The outcomes of the login form *)

Section LoginOutcomes.
Variable JSON_stringify : json -> string.
Variable identifier password : string.
Variable ls : gmap string string.
Variable answers : nat -> Eff.response.

(** [data?.login] of the answer to the login mutation. *)
Definition login_payload : option json :=
  match answers 0%nat with
  | Eff.Resolved result => Eff.path ["data"; "login"] (Some result)
  | Eff.Rejected _ => None
  end.

(** Both fields are filled in and the server has answered with a token. *)
Definition granted : bool :=
  negb (String.eqb identifier "") && negb (String.eqb password "")
  && match answers 0%nat with
     | Eff.Resolved _ =>
         Value.truthy_opt (Eff.path ["authToken"] login_payload)
     | Eff.Rejected _ => false
     end.

(** X6.  The login form always returns, and sends the login mutation
    once when both fields are filled in and not at all otherwise.  It
    writes the session under "wpjwt", tells the application about the
    user and goes to "/" exactly when both fields are filled in and the
    mutation resolves with a truthy [authToken]; in every other case the
    storage is left as it was, nothing is announced, the page stays, and
    one error toast is shown, which for an answer without a token reads
    "Login failed. No token returned.". *)
Theorem login_outcomes :
  let run := Auth.handleSubmit JSON_stringify identifier password
               (Eff.start ls answers) in
  let w := snd run in
  fst run = Eff.Returned tt /\
  Eff.requests w
  = (if String.eqb identifier "" || String.eqb password "" then []
     else [Eff.Request "login" [("username", JStr identifier);
                                ("password", JStr password)]]) /\
  (granted = true ->
   Eff.storage w
   = <["wpjwt" := JSON_stringify (session_object login_payload)]> ls /\
   Header.navigations (Eff.log w) = ["/"] /\
   Eff.toasts w = [Eff.ToastSuccess "Login successful!"] /\
   In (Eff.AuthChangedEvent (Eff.path ["user"] login_payload)) (Eff.log w)) /\
  (granted = false ->
   Eff.storage w = ls /\
   Header.navigations (Eff.log w) = [] /\
   (exists msg, Eff.toasts w = [Eff.ToastError msg]) /\
   (forall e, In e (Eff.log w) ->
      match e with
      | Eff.AuthChangedEvent _ | Eff.OnSuccess _ => False
      | _ => True
      end) /\
   (forall result,
      identifier <> "" -> password <> "" ->
      answers 0%nat = Eff.Resolved result ->
      Eff.toasts w = [Eff.ToastError "Login failed. No token returned."])).
Proof.
  unfold granted, login_payload, Auth.handleSubmit, session_object.
  destruct (String.eqb_spec identifier "") as [Hi | Hi];
    [| destruct (String.eqb_spec password "") as [Hp | Hp]];
    cbn [orb negb andb].
  1, 2: run_handler;
    (split; [reflexivity |]); (split; [reflexivity |]);
    (split; [discriminate |]); intros _;
    (split; [reflexivity |]); (split; [reflexivity |]);
    (split; [eexists; reflexivity |]);
    (split; [| intros; contradiction]);
    intros e He; cbn in He; intuition (subst; exact I).
  run_handler. destruct (answers 0%nat) as [result | err];
    cbn -[Eff.path Eff.first_text].
  - destruct (Value.truthy_opt
                (Eff.path ["authToken"] (Eff.path ["data"; "login"] (Some result))))
      eqn:Htok; cbn -[Eff.path Eff.first_text].
    + split; [reflexivity |]. split; [reflexivity |].
      split; [| discriminate]. intros _.
      split; [reflexivity |]. split; [reflexivity |]. split; [reflexivity |].
      cbn -[Eff.path]. tauto.
    + split; [reflexivity |]. split; [reflexivity |].
      split; [discriminate |]. intros _.
      split; [reflexivity |]. split; [reflexivity |].
      split; [eexists; reflexivity |]. split.
      * intros e He. cbn in He. intuition (subst; exact I).
      * intros result' _ _ _. reflexivity.
  - split; [reflexivity |]. split; [reflexivity |].
    split; [discriminate |]. intros _.
    split; [reflexivity |]. split; [reflexivity |].
    split; [eexists; reflexivity |]. split.
    + intros e He. cbn in He. intuition (subst; exact I).
    + intros result' _ _ H. discriminate.
Qed.

End LoginOutcomes.

(** ** Query parameters written with [encodeURIComponent] *)

Lemma encodeURIComponent_char_plain c :
  Str.all plain (Url.percent_encode_char Url.uri_component_unescaped c) = true.
Proof. destruct c as [[] [] [] [] [] [] [] []]; reflexivity. Qed.

Lemma encodeURIComponent_plain s :
  Str.all plain (Url.encodeURIComponent s) = true.
Proof.
  unfold Url.encodeURIComponent. induction s as [| c s IH]; [reflexivity |].
  by rewrite percent_encode_cons, all_app, encodeURIComponent_char_plain, IH.
Qed.

Lemma decode_encodeURIComponent_char c rest :
  Url.percent_decode
    (Url.percent_encode_char Url.uri_component_unescaped c ++ rest)
  = String c (Url.percent_decode rest).
Proof. destruct c as [[] [] [] [] [] [] [] []]; reflexivity. Qed.

(** Decoding undoes [encodeURIComponent], for every text. *)
Lemma percent_decode_encodeURIComponent s :
  Url.percent_decode (Url.encodeURIComponent s) = s.
Proof.
  unfold Url.encodeURIComponent. induction s as [| c s IH]; [reflexivity |].
  by rewrite percent_encode_cons, decode_encodeURIComponent_char, IH.
Qed.

Lemma URLSearchParams_one n v :
  n <> "" -> Str.all plain n = true -> plain_opt v = true ->
  Url.URLSearchParams (String "?" (piece n v))
  = [(Url.percent_decode n, Url.percent_decode (default "" v))].
Proof.
  intros Hne Hn Hv. unfold Url.URLSearchParams.
  rewrite split_on_none by (by apply piece_plain_amp).
  cbn [List.filter]. rewrite piece_nonempty by assumption. cbn [negb List.map].
  rewrite split_first_piece by assumption.
  rewrite !plus_to_space_plain; try assumption; [reflexivity |].
  by destruct v.
Qed.

(** What a page reads under [name] from the address
    [base?name=encodeURIComponent(v)]. *)
Lemma reads_encoded_param base name v :
  Str.all (fun c => negb (Url.one_of "?#" c)) base = true ->
  name <> "" -> Str.all Url.unreserved name = true ->
  Url.get name
    (Url.URLSearchParams
       (Url.location_search
          (base ++ String "?" (piece name (Some (Url.encodeURIComponent v))))))
  = Some v.
Proof.
  intros Hb Hne Hn.
  assert (Hplain : Str.all plain name = true).
  { revert Hn. apply all_impl.
    intros c Hc. destruct c as [[] [] [] [] [] [] [] []]; try reflexivity;
      discriminate. }
  assert (Henc : Str.all plain (Url.encodeURIComponent v) = true)
    by apply encodeURIComponent_plain.
  rewrite location_search_query; [| assumption | |].
  - rewrite URLSearchParams_one by assumption.
    change (default "" (Some (Url.encodeURIComponent v)))
      with (Url.encodeURIComponent v).
    cbn [Url.get].
    rewrite <- (rawurlencode_unreserved name Hn) at 1.
    rewrite percent_decode_rawurlencode, String.eqb_refl.
    by rewrite percent_decode_encodeURIComponent.
  - unfold piece. rewrite all_app.
    rewrite (all_impl plain _ name (plain_not_char "#" eq_refl) Hplain).
    cbn [andb Str.all]. change (not_char "#" "=") with true. cbn [andb].
    by apply (all_impl plain _ _ (plain_not_char "#" eq_refl)).
  - unfold piece. destruct name; [contradiction | discriminate].
Qed.

(** *** Trimming twice *)

Lemma rtrim_cons p c s :
  Url.rtrim p (String c s)
  = match Url.rtrim p s with
    | EmptyString => if p c then EmptyString else String c EmptyString
    | r => String c r
    end.
Proof. reflexivity. Qed.

Lemma rtrim_rtrim p s : Url.rtrim p (Url.rtrim p s) = Url.rtrim p s.
Proof.
  induction s as [| c s IH]; [reflexivity |].
  rewrite rtrim_cons. destruct (Url.rtrim p s) as [| d r] eqn:E.
  - destruct (p c) eqn:Hc; [reflexivity |]. cbn [Url.rtrim]. by rewrite Hc.
  - by rewrite rtrim_cons, IH.
Qed.

(** The text is empty or begins with a character that is not stripped. *)
Definition clean_start (p : ascii -> bool) (s : string) : Prop :=
  match s with
  | EmptyString => True
  | String c _ => p c = false
  end.

Lemma ltrim_clean_start p s : clean_start p (Url.ltrim p s).
Proof.
  induction s as [| c s IH]; [exact I |].
  cbn [Url.ltrim]. destruct (p c) eqn:Hc; [exact IH | exact Hc].
Qed.

Lemma rtrim_clean_start p s : clean_start p s -> clean_start p (Url.rtrim p s).
Proof.
  destruct s as [| c s]; [intros _; exact I |].
  cbn [clean_start Url.rtrim]. intros Hc.
  destruct (Url.rtrim p s); [by rewrite Hc | exact Hc].
Qed.

Lemma ltrim_of_clean_start p s : clean_start p s -> Url.ltrim p s = s.
Proof.
  destruct s as [| c s]; [reflexivity |].
  cbn [clean_start Url.ltrim]. by intros ->.
Qed.

Lemma trim_trim p s : Url.trim p (Url.trim p s) = Url.trim p s.
Proof.
  unfold Url.trim.
  rewrite (ltrim_of_clean_start p (Url.rtrim p (Url.ltrim p s))).
  - apply rtrim_rtrim.
  - apply rtrim_clean_start, ltrim_clean_start.
Qed.

(** [s.trim()] on a text of ASCII characters: tab, line feed, vertical
    tab, form feed, carriage return and space are stripped. *)
Definition trim_ascii (s : string) : string :=
  Url.trim (fun c => existsb (Nat.eqb (nat_of_ascii c)) [9; 10; 11; 12; 13; 32]%nat)
           s.

(** ** From the search box to the search results page *)

Section Search.
Variable trim : string -> string.
Hypothesis trim_idempotent : forall s, trim (trim s) = trim s.

(** X7.  The header's search handler does nothing when the trimmed text
    of the search box is empty; otherwise it navigates exactly once, to
    an address from which the search results page reads the trimmed
    text as its query, whatever characters that text contains, and the
    page does not skip its search. *)
Theorem search_round_trip (query : string) (w : Eff.world) :
  let run := Header.goSearch trim query w in
  (trim query = "" -> run = (Eff.Returned tt, w)) /\
  (trim query <> "" ->
   exists to,
     Header.navigations (Eff.log (snd run))
     = (Header.navigations (Eff.log w) ++ [to])%list /\
     SearchResults.q trim (Url.location_search to) = trim query /\
     SearchResults.skip trim (Url.location_search to) = false).
Proof.
  cbn zeta. unfold Header.goSearch. split.
  - intros ->. reflexivity.
  - intros Hne. destruct (String.eqb_spec (trim query) ""); [contradiction |].
    exists ("/search?q=" ++ Url.encodeURIComponent (trim query)). split.
    + run_handler. unfold Header.navigations.
      rewrite <- app_assoc, omap_app. reflexivity.
    + assert (Hq : SearchResults.q trim
                     (Url.location_search
                        ("/search?q=" ++ Url.encodeURIComponent (trim query)))
                   = trim query).
      { unfold SearchResults.q.
        change ("/search?q=" ++ Url.encodeURIComponent (trim query))
          with ("/search"
                ++ String "?" (piece "q" (Some (Url.encodeURIComponent (trim query))))).
        rewrite reads_encoded_param by (reflexivity || discriminate).
        apply trim_idempotent. }
      split; [exact Hq |]. unfold SearchResults.skip.
      fold (SearchResults.q trim). rewrite Hq. by apply String.eqb_neq.
Qed.

End Search.

(** A search for "galaxy a15 & case", typed with blanks around it. *)
Lemma search_round_trip_witness :
  exists to,
    Header.navigations
      (Eff.log (snd (Header.goSearch trim_ascii "  galaxy a15 & case "
                       (Eff.start ∅ (fun _ => Eff.Resolved JNull)))))
    = [to] /\
    SearchResults.q trim_ascii (Url.location_search to) = "galaxy a15 & case".
Proof.
  destruct (search_round_trip trim_ascii (trim_trim _)
              "  galaxy a15 & case "
              (Eff.start ∅ (fun _ => Eff.Resolved JNull))) as [_ H].
  destruct (H ltac:(discriminate)) as (to & Hnav & Hq & _).
  exists to. split; [exact Hnav | exact Hq].
Defined.

(** ** The outcomes of the reset-password form *)

(** X8.  The reset-password form always returns, leaves the storage as
    it is and shows exactly one toast.  It sends the reset mutation
    exactly when the two passwords are equal (once, with the key and the
    login of the address and the password typed), and it leaves the page
    exactly when that mutation resolves: it then goes to the login page
    with the login as the [username] parameter, encoded so that a reader
    of the parameter gets the login back. *)
Theorem reset_submit_outcomes (search pwd confirm : string)
                              (ls : gmap string string)
                              (answers : nat -> Eff.response) :
  let run := ResetPassword.submit search pwd confirm (Eff.start ls answers) in
  let w := snd run in
  fst run = Eff.Returned tt /\
  Eff.storage w = ls /\
  length (Eff.toasts w) = 1%nat /\
  (pwd <> confirm ->
   Eff.requests w = [] /\ Header.navigations (Eff.log w) = [] /\
   Eff.toasts w = [Eff.ToastError "Passwords do not match"]) /\
  (pwd = confirm ->
   Eff.requests w
   = [Eff.Request "resetUserPassword"
        [("key", JStr (ResetPassword.key search));
         ("login", JStr (ResetPassword.login search));
         ("password", JStr pwd)]] /\
   (forall e, answers 0%nat = Eff.Rejected e ->
      Header.navigations (Eff.log w) = []) /\
   (forall result, answers 0%nat = Eff.Resolved result ->
      exists to,
        Header.navigations (Eff.log w) = [to] /\
        Url.get "username" (Url.URLSearchParams (Url.location_search to))
        = Some (ResetPassword.login search))).
Proof.
  cbn zeta. unfold ResetPassword.submit.
  destruct (String.eqb_spec pwd confirm) as [<- | Hne]; cbn [negb].
  - run_handler. destruct (answers 0%nat) as [result | err];
      cbn -[Eff.first_text ResetPassword.key ResetPassword.login
            Url.encodeURIComponent];
      (split; [reflexivity |]); (split; [reflexivity |]);
      (split; [reflexivity |]); (split; [intros H; by destruct H |]);
      intros _; (split; [reflexivity |]); split;
      try (intros; discriminate); try (intros; reflexivity).
    intros result' _.
    exists ("/login?username="
            ++ Url.encodeURIComponent (ResetPassword.login search)).
    split; [reflexivity |].
    change ("/login?username="
            ++ Url.encodeURIComponent (ResetPassword.login search))
      with ("/login"
            ++ String "?"
                 (piece "username"
                    (Some (Url.encodeURIComponent (ResetPassword.login search))))).
    apply reads_encoded_param; reflexivity || discriminate.
  - run_handler.
    split; [reflexivity |]. split; [reflexivity |]. split; [reflexivity |].
    split; [intros _; by repeat split | intros H; contradiction].
Qed.

(** ** src/auth.js and the readers of the session *)

Section AuthJs.
Variable JSON_parse : string -> option json.
Variable JSON_stringify : json -> string.

Hypothesis JSON_parse_empty : JSON_parse "" = None.
Hypothesis JSON_parse_null : JSON_parse "null" = Some JNull.

(** The object that [saveAuth] stores. *)
Definition saved_object (authToken refreshToken : option json) (now : Z)
  : json :=
  Auth.object_literal
    [("authToken", authToken); ("refreshToken", refreshToken);
     ("savedAt", Some (JNum now))].

Lemma getAuth_readJWT (ls : gmap string string) :
  AuthStore.getAuth JSON_parse ls = Auth.readJWT JSON_parse ls.
Proof.
  unfold AuthStore.getAuth, Auth.readJWT, AuthStore.KEY.
  destruct (ls !! "wpjwt") as [raw |]; [| by rewrite JSON_parse_null].
  destruct (String.eqb raw ""); [by rewrite JSON_parse_null | reflexivity].
Qed.

Lemma saved_object_fields authToken refreshToken now :
  Value.truthy_opt authToken = true ->
  Value.prop "authToken" (saved_object authToken refreshToken now) = authToken /\
  Value.prop "user" (saved_object authToken refreshToken now) = None.
Proof.
  unfold saved_object, Auth.object_literal.
  destruct authToken as [t |]; [| discriminate]. intros _.
  destruct refreshToken; by cbn.
Qed.

(** X9.  [getAuth] of src/auth.js reads what the header's [readJWT]
    reads, for every content of the storage.  After [saveAuth], where
    the stored text parses back to the stored object, [getAuth] returns
    the object {authToken, refreshToken, savedAt}, the request link
    sends the saved token as "Bearer <token>" and the header finds the
    token but no user; a session written by the login form is returned
    by [getAuth] as it was written; and after [clearAuth] of src/auth.js
    [getAuth] is [null] and the header and the request link find no
    token. *)
Theorem auth_js_spec (ls : gmap string string)
                     (answers : nat -> Eff.response) :
  (forall ls', AuthStore.getAuth JSON_parse ls' = Auth.readJWT JSON_parse ls') /\
  (forall authToken refreshToken now,
     let obj := saved_object authToken refreshToken now in
     let after :=
       Eff.storage (snd (AuthStore.saveAuth JSON_stringify authToken
                           refreshToken now (Eff.start ls answers))) in
     JSON_parse (JSON_stringify obj) = Some obj ->
     AuthStore.getAuth JSON_parse after = obj /\
     (forall k, k <> "wpjwt" -> after !! k = ls !! k) /\
     (Value.truthy_opt authToken = true ->
      Auth.getAuthToken JSON_parse after = authToken /\
      Auth.getAccessToken JSON_parse after = authToken /\
      Auth.getUser JSON_parse after = None /\
      forall t, authToken = Some t ->
        Auth.authLink JSON_parse after None !! "Authorization"
        = Some ("Bearer " ++ Value.to_string t))) /\
  (forall obj,
     JSON_parse (JSON_stringify obj) = Some obj ->
     AuthStore.getAuth JSON_parse (<["wpjwt" := JSON_stringify obj]> ls) = obj) /\
  (let after := Eff.storage (snd (AuthStore.clearAuth (Eff.start ls answers))) in
   after = delete "wpjwt" ls /\
   AuthStore.getAuth JSON_parse after = JNull /\
   Auth.getAccessToken JSON_parse after = None /\
   Auth.getAuthToken JSON_parse after = None).
Proof.
  split; [apply getAuth_readJWT |]. split; [| split].
  - intros authToken refreshToken now obj after Hrt.
    assert (Hafter : after = <["wpjwt" := JSON_stringify obj]> ls) by reflexivity.
    assert (Hne : JSON_stringify obj <> "").
    { intros E. rewrite E in Hrt. congruence. }
    split; [| split].
    + rewrite getAuth_readJWT, Hafter. by apply readJWT_stored.
    + intros k Hk. rewrite Hafter. by apply lookup_insert_ne.
    + intros Htok.
      destruct (saved_object_fields authToken refreshToken now Htok)
        as [Ht Hu]. fold obj in Ht, Hu.
      assert (Hget : Auth.getAuthToken JSON_parse after = authToken).
      { unfold Auth.getAuthToken. rewrite Hafter, lookup_insert_eq.
        destruct (String.eqb_spec (JSON_stringify obj) ""); [contradiction |].
        by rewrite Hrt, Ht, Htok. }
      split; [exact Hget |]. split; [| split].
      * unfold Auth.getAccessToken.
        rewrite Hafter, (readJWT_stored _ _ JSON_parse_empty) by assumption.
        by rewrite Ht, Htok.
      * unfold Auth.getUser.
        rewrite Hafter, (readJWT_stored _ _ JSON_parse_empty) by assumption.
        by rewrite Hu.
      * intros t ->. unfold Auth.authLink. rewrite Hget.
        apply lookup_insert_eq.
  - intros obj Hrt. rewrite getAuth_readJWT. by apply readJWT_stored.
  - cbn zeta.
    assert (Hafter : Eff.storage (snd (AuthStore.clearAuth (Eff.start ls answers)))
                     = delete "wpjwt" ls) by reflexivity.
    rewrite Hafter. split; [reflexivity |].
    assert (Hnone : delete "wpjwt" ls !! "wpjwt" = None) by apply lookup_delete_eq.
    split; [| split].
    + rewrite getAuth_readJWT. unfold Auth.readJWT.
      by rewrite Hnone, JSON_parse_null.
    + unfold Auth.getAccessToken, Auth.readJWT.
      by rewrite Hnone, JSON_parse_null.
    + unfold Auth.getAuthToken. by rewrite Hnone.
Qed.

End AuthJs.

(** A token saved by src/auth.js in a storage that holds a theme, and
    what the request link then sends. *)
Lemma auth_js_witness :
  let after :=
    Eff.storage
      (snd (AuthStore.saveAuth MiniJSON.stringify
              (Some (JStr "eyJ0eXAiOiJKV1Qi")) (Some (JStr "r3fr3sh"))
              1730419200000
              (Eff.start {["theme" := "dark"]} (fun _ => Eff.Resolved JNull)))) in
  Auth.authLink MiniJSON.parse after None !! "Authorization"
  = Some "Bearer eyJ0eXAiOiJKV1Qi" /\
  Auth.getUser MiniJSON.parse after = None.
Proof.
  pose proof (auth_js_spec MiniJSON.parse MiniJSON.stringify eq_refl eq_refl
                {["theme" := "dark"]} (fun _ => Eff.Resolved JNull))
    as (_ & Hsave & _).
  specialize (Hsave (Some (JStr "eyJ0eXAiOiJKV1Qi")) (Some (JStr "r3fr3sh"))
                1730419200000 ltac:(vm_compute; reflexivity)).
  destruct Hsave as (_ & _ & Htok).
  destruct (Htok eq_refl) as (_ & _ & Huser & Hlink).
  split; [exact (Hlink _ eq_refl) | exact Huser].
Defined.

(** ** What the cart page tells the header *)

(** X10.  When the cart query has delivered, the events that the cart
    page broadcasts leave the header's badge at the sum of the
    quantities of the cart lines it fetched (each coerced to a number, 0
    by default), whatever the badge showed before and whatever item
    count the server reported; the same holds for a snapshot broadcast
    on its own, which counts 0 for a missing list; while the query is
    loading, or without cart contents, nothing is broadcast. *)
Theorem cart_page_badge (authed : bool) (c : Z) :
  (forall contents,
     Header.badge_after authed c
       (CartPage.cart_updated (CartPage.onData false (Some contents)))
     = fold_left Z.add
         (List.map CartBadge.item_quantity
                   (default [] (CartPage.nodes contents))) 0) /\
  (forall items,
     Header.badge_after authed c
       (CartPage.cart_updated (CartPage.broadcastSnapshot items))
     = fold_left Z.add
         (List.map CartBadge.item_quantity (default [] items)) 0) /\
  (forall contents, CartPage.onData true contents = []) /\
  (forall loading, CartPage.onData loading None = []).
Proof.
  split; [| split; [| split]].
  - intros [count nodes]. cbn -[CartBadge.derived].
    destruct (CartHandlers.coalesce count (JNum 0)); cbn -[CartBadge.derived];
      unfold CartBadge.derived; apply fold_quantities_sum.
  - intros [its |]; cbn -[CartBadge.derived]; [| reflexivity].
    unfold CartBadge.derived. apply fold_quantities_sum.
  - by intros [c' |].
  - by intros [].
Qed.

(** ** The checkout form *)

Section CheckoutNames.

Lemma concat_cons_cons sep (a b : string) (l : list string) :
  String.concat sep (a :: b :: l) = a ++ sep ++ String.concat sep (b :: l).
Proof. reflexivity. Qed.

Lemma split_on_first sep s :
  exists first rest,
    Url.split_on sep s = first :: rest /\
    Str.all (not_char sep) first = true /\
    (rest = [] <-> Str.all (not_char sep) s = true).
Proof.
  induction s as [| c s (first & rest & Hs & Hf & Hr)].
  - exists "", []. by repeat split.
  - cbn [Url.split_on Str.all]. unfold not_char at 2.
    destruct (Ascii.eqb_spec c sep) as [-> | Hne]; cbn [negb andb].
    + exists "", (Url.split_on sep s). repeat split; try discriminate.
      rewrite Hs. discriminate.
    + rewrite Hs. exists (String c first), rest. repeat split.
      * cbn [Str.all]. rewrite Hf. unfold not_char.
        by apply Ascii.eqb_neq in Hne as ->.
      * apply Hr.
      * apply Hr.
Qed.

(** Joining the pieces of a split with the separator gives the text
    back. *)
Lemma concat_split_on sep s :
  String.concat (String sep "") (Url.split_on sep s) = s.
Proof.
  induction s as [| c s IH]; [reflexivity |].
  cbn [Url.split_on].
  destruct (split_on_first sep s) as (p & ps & E & _ & _).
  rewrite E in *. destruct (Ascii.eqb_spec c sep) as [-> | Hne].
  - rewrite concat_cons_cons, IH. reflexivity.
  - destruct ps as [| q qs].
    + cbn in IH. subst s. reflexivity.
    + rewrite concat_cons_cons in *. rewrite append_cons. by rewrite IH.
Qed.

(** X11.  The checkout form splits the full name at its first space
    without losing anything: the first name has no space; a full name
    without a space is the first name, with an empty last name; and a
    full name with a space is the first name, a space and the last
    name. *)
Theorem checkout_name_split (s : Checkout.shipping) :
  Str.all (not_char " ") (Checkout.firstName s) = true /\
  (Str.all (not_char " ") (Checkout.full_name s) = true ->
   Checkout.firstName s = Checkout.full_name s /\ Checkout.lastName s = "") /\
  (Str.all (not_char " ") (Checkout.full_name s) = false ->
   Checkout.full_name s
   = Checkout.firstName s ++ " " ++ Checkout.lastName s).
Proof.
  unfold Checkout.firstName, Checkout.lastName, Checkout.split_spaces.
  pose proof (concat_split_on " " (Checkout.full_name s)) as Hjoin.
  destruct (split_on_first " " (Checkout.full_name s))
    as (first & rest & Hs & Hf & Hr).
  rewrite Hs in *.
  change (take 1 (first :: rest)) with [first].
  change (drop 1 (first :: rest)) with rest.
  change (String.concat "" [first]) with first.
  split; [exact Hf |]. split.
  - intros Hall. apply Hr in Hall. subst rest. cbn in Hjoin. by split.
  - intros Hall. destruct rest as [| r rest].
    + destruct Hr as [Hr _]. rewrite Hr in Hall by reflexivity. discriminate.
    + rewrite concat_cons_cons in Hjoin. by rewrite Hjoin.
Qed.

End CheckoutNames.

Section CheckoutOrder.
Variable trim : string -> string.

(** X12.  [placeOrder] always returns and never writes to the storage.
    It sends the checkout mutation exactly when no checkout is under
    way and the full name, phone, first address line, city and country
    are all non-empty as typed (a field of blanks passes, and is sent
    trimmed), once, with the trimmed fields as input.  When the mutation
    fails it logs the error and sets the error text of the form, shows
    no toast and stays on the page; when it resolves it shows one
    success toast and goes to an address under /order-confirmation. *)
Theorem placeOrder_outcomes (checkingOut : bool) (s : Checkout.shipping)
                            (paymentMethod : string) (now : Z)
                            (ls : gmap string string)
                            (answers : nat -> Eff.response) :
  let run := Checkout.placeOrder trim checkingOut s paymentMethod now
               (Eff.start ls answers) in
  let w := snd run in
  fst run = Eff.Returned tt /\
  Eff.storage w = ls /\
  Eff.requests w
  = (if negb checkingOut && Checkout.complete s
     then [Eff.Request "checkout"
             [("input",
               Checkout.input trim s paymentMethod
                 (default "" (ls !! "userEmail")) now)]]
     else []) /\
  (checkingOut = true -> Eff.log w = []) /\
  (checkingOut = false -> Checkout.complete s = false ->
   Eff.log w
   = [Eff.SetState "setError"
        [JStr "Please complete your shipping details."]]) /\
  (checkingOut = false -> Checkout.complete s = true ->
   (forall e, answers 0%nat = Eff.Rejected e ->
      Eff.toasts w = [] /\ Header.navigations (Eff.log w) = [] /\
      In (Eff.ConsoleError e) (Eff.log w) /\
      In (Eff.SetState "setError"
            [JStr (Eff.first_text [Eff.graphQLErrors_message e; Eff.message e]
                                  "Failed to place order.")])
         (Eff.log w)) /\
   (forall result, answers 0%nat = Eff.Resolved result ->
      Eff.toasts w
      = [Eff.ToastSuccess
           "Order placed — check your email for confirmation (if enabled)."] /\
      exists to,
        Header.navigations (Eff.log w) = [to] /\
        Str.startsWith to "/order-confirmation" = true)).
Proof.
  cbn zeta. unfold Checkout.placeOrder.
  destruct checkingOut; cbn [negb andb].
  { repeat split; try reflexivity; intros; discriminate || reflexivity. }
  destruct (Checkout.complete s); cbn [negb]; cycle 1.
  { run_handler.
    repeat split; try reflexivity; intros; discriminate || reflexivity. }
  unfold Eff.getStorage. run_handler.
  destruct (answers 0%nat) as [result | err];
    cbn -[Eff.path Eff.first_text Checkout.input Value.or].
  - destruct (Value.truthy_opt _) eqn:Hid;
      cbn -[Eff.path Eff.first_text Checkout.input Value.or];
      (split; [reflexivity |]); (split; [reflexivity |]);
      (split; [reflexivity |]); (split; [discriminate |]);
      (split; [discriminate |]); intros _ _;
      (split; [intros; discriminate |]); intros result' _;
      (split; [reflexivity |]); eexists; (split; [reflexivity |]);
      reflexivity.
  - split; [reflexivity |]. split; [reflexivity |]. split; [reflexivity |].
    split; [discriminate |]. split; [discriminate |]. intros _ _.
    split; [| intros; discriminate].
    intros e [= <-]. split; [reflexivity |]. split; [reflexivity |].
    cbn -[Eff.first_text]. tauto.
Qed.

End CheckoutOrder.

(** ** The bootstrap script: the wait loop, unset variables, plugins *)

Lemma filter_none {A} (f : A -> bool) (l : list A) :
  (forall x, In x l -> f x = false) -> List.filter f l = [].
Proof.
  induction l as [| x l IH]; [reflexivity |]. intros H. cbn [List.filter].
  rewrite (H x) by (by left). apply IH. intros y Hy. apply H. by right.
Qed.

Lemma fst_then (m k : Bootstrap.Sh unit) :
  ok m = true -> fst (m ;; k) = (fst m ++ fst k)%list.
Proof. intros H. by rewrite then_unfold, H. Qed.

Section BootstrapEdges.
Import Bootstrap.
Variable env : gmap string string.
Variable w : world.

(** One round of the wait loop that finds the database down. *)
Definition failed_round : list cmd :=
  [PhpProbe (env !! "WORDPRESS_DB_HOST"); Sleep 2].

Lemma wait_for_db_down fuel k :
  (forall i, (i < fuel)%nat -> probe env w (k + i) = false) ->
  wait_for_db env w fuel k
  = (concat (replicate fuel failed_round), inr Waiting).
Proof.
  revert k. induction fuel as [| fuel IH]; intros k Hdown; [reflexivity |].
  cbn [wait_for_db]. rewrite then_unfold, ok_run.
  pose proof (Hdown 0%nat ltac:(lia)) as H0. rewrite Nat.add_0_r in H0.
  rewrite H0, then_unfold, ok_run, IH.
  - reflexivity.
  - intros i Hi. replace (S k + i)%nat with (k + S i)%nat by lia.
    apply Hdown. lia.
Qed.

Lemma wait_for_db_up fuel k j :
  (j < fuel)%nat -> probe env w (k + j) = true ->
  (forall i, (i < j)%nat -> probe env w (k + i) = false) ->
  wait_for_db env w fuel k
  = ((concat (replicate j failed_round)
      ++ [PhpProbe (env !! "WORDPRESS_DB_HOST")])%list, inl tt).
Proof.
  revert k j. induction fuel as [| fuel IH]; intros k j Hj Hup Hdown; [lia |].
  cbn [wait_for_db]. rewrite then_unfold, ok_run.
  destruct j as [| j].
  - rewrite Nat.add_0_r in Hup. by rewrite Hup.
  - pose proof (Hdown 0%nat ltac:(lia)) as H0. rewrite Nat.add_0_r in H0.
    rewrite H0, then_unfold, ok_run, (IH (S k) j).
    + reflexivity.
    + lia.
    + by replace (S k + j)%nat with (k + S j)%nat by lia.
    + intros i Hi. replace (S k + i)%nat with (k + S i)%nat by lia.
      apply Hdown. lia.
Qed.

(** X13.  While the database does not answer, the script does nothing
    but probe and sleep: observed for [fuel] probes that all fail, it
    has printed its announcement and then run [fuel] times a probe
    followed by [sleep 2], and it is still waiting.  When the probe
    number [j] (counted from 0) is the first to succeed, the loop has
    run [j] failed probes, each followed by [sleep 2], and then the
    successful probe, and the whole run is the same for every length of
    observation above [j]. *)
Theorem wait_loop_spec (fuel : nat) :
  ((forall i, (i < fuel)%nat -> probe env w i = false) ->
   script env w fuel
   = (Echo "[bootstrap] Waiting for DB..."
        :: concat (replicate fuel failed_round), inr Waiting)) /\
  (forall j,
     (j < fuel)%nat -> probe env w j = true ->
     (forall i, (i < j)%nat -> probe env w i = false) ->
     wait_for_db env w fuel 0
     = ((concat (replicate j failed_round)
         ++ [PhpProbe (env !! "WORDPRESS_DB_HOST")])%list, inl tt) /\
     script env w fuel = script env w (S j)).
Proof.
  split.
  - intros Hdown. unfold script.
    rewrite (wait_for_db_down fuel 0) by exact Hdown. reflexivity.
  - intros j Hj Hup Hdown.
    assert (Hw : forall f, (j < f)%nat ->
              wait_for_db env w f 0
              = ((concat (replicate j failed_round)
                  ++ [PhpProbe (env !! "WORDPRESS_DB_HOST")])%list, inl tt)).
    { intros f Hf. by apply (wait_for_db_up f 0 j). }
    split; [by apply Hw |].
    unfold script. by rewrite (Hw fuel Hj), (Hw (S j) ltac:(lia)).
Qed.

(** The variables that [wp config create] is given. *)
Definition database_variables : list string :=
  ["WORDPRESS_DB_NAME"; "WORDPRESS_DB_USER"; "WORDPRESS_DB_PASSWORD";
   "WORDPRESS_DB_HOST"].

Definition announce_install : cmd :=
  Echo "[bootstrap] No WordPress install detected. Creating wp-config...".

Lemma install_unset var :
  In var database_variables -> env !! var = None ->
  wp_status w ["core"; "is-installed"] = false ->
  install env w = ([announce_install], inr Aborted).
Proof.
  intros Hin Hvar Hnot. unfold install, expand. rewrite Hnot. cbn [negb].
  destruct (env !! "WORDPRESS_DB_NAME") eqn:E1; [| reflexivity].
  destruct (env !! "WORDPRESS_DB_USER") eqn:E2; [| reflexivity].
  destruct (env !! "WORDPRESS_DB_PASSWORD") eqn:E3; [| reflexivity].
  destruct (env !! "WORDPRESS_DB_HOST") eqn:E4; [| reflexivity].
  exfalso. unfold database_variables in Hin. cbn [In] in Hin.
  repeat (destruct Hin as [<- | Hin]); congruence || exact Hin.
Qed.

Lemma probe_unset k : env !! "WORDPRESS_DB_HOST" = None -> probe env w k = false.
Proof. intros H. unfold probe. by rewrite H. Qed.

(** X14.  When WordPress is not installed and one of the four database
    variables is unset, the script never reaches the hand-over: the only
    [wp] command it runs is the test [wp core is-installed], it never
    runs the original entrypoint, and, once the wait and the first
    [chown] have let it go on, it exits right after announcing the
    installation.  With WORDPRESS_DB_HOST unset it does not get that
    far: the probe cannot succeed and the script waits for ever. *)
Theorem bootstrap_unset_variable (fuel : nat) (var : string) :
  In var database_variables -> env !! var = None ->
  wp_status w ["core"; "is-installed"] = false ->
  outcome env w fuel <> Exec /\
  (forall args, In (Wp args) (trace env w fuel) ->
     args = ["core"; "is-installed"]) /\
  (forall argv, ~ In (ExecEntrypoint argv) (trace env w fuel)) /\
  (ok (wait_for_db env w fuel 0) = true -> chown_first w = true ->
   outcome env w fuel = Aborted /\
   last (trace env w fuel) = Some announce_install) /\
  (var = "WORDPRESS_DB_HOST" -> outcome env w fuel = Waiting).
Proof.
  intros Hin Hvar Hnot.
  pose proof (install_unset var Hin Hvar Hnot) as Hinstall.
  assert (Hno : ok (install env w) = false) by (by rewrite Hinstall).
  assert (Hearly : forall c, In c (trace env w fuel) ->
            (forall args, c = Wp args -> args = ["core"; "is-installed"]) /\
            (forall argv, c <> ExecEntrypoint argv)).
  { intros c Hc.
    destruct (trace_In env w fuel c Hc) as (i & s & Hi & Hs & Hall).
    destruct (decide (7 < i)%nat) as [Hlate | Hearly].
    - pose proof (before_ok env w fuel i 7 _ Hall Hlate eq_refl). congruence.
    - unfold steps in Hi.
      repeat (destruct i as [| i];
              [injection Hi as <-
              | cbn [lookup list_lookup] in Hi]);
        try discriminate; try lia.
      + apply In_run in Hs. subst c. split; intros; discriminate.
      + apply wait_for_db_In in Hs as [-> | ->]; split; intros; discriminate.
      + apply In_run in Hs. subst c. split; intros; discriminate.
      + cbn in Hs. destruct Hs as [<- | []]. split; intros; discriminate.
      + apply In_run in Hs. subst c. split; intros; discriminate.
      + apply In_run in Hs. subst c. split; intros; discriminate.
      + apply In_run in Hs. subst c. split; [| intros; discriminate].
        by intros args [= <-].
      + rewrite Hinstall in Hs. cbn in Hs. destruct Hs as [<- | []].
        split; intros; discriminate. }
  split; [| split; [| split; [| split]]].
  - intros Hexec. apply outcome_exec, steps_all_ok in Hexec.
    destruct Hexec as (_ & _ & Hok & _). congruence.
  - intros args Hc. by apply (Hearly _ Hc).
  - intros argv Hc. by apply (Hearly _ Hc) with argv.
  - intros Hwait Hchown. unfold outcome, trace. rewrite script_steps.
    change (steps env w fuel)
      with (take 7 (steps env w fuel) ++ drop 7 (steps env w fuel))%list.
    rewrite in_sequence_app, in_sequence_ok.
    + cbn [drop steps in_sequence fold_right]. rewrite Hinstall.
      cbn [mbind Sh_bind fst snd]. split; [reflexivity |].
      apply last_snoc.
    + cbn [take steps]. rewrite !Forall_cons, Forall_nil.
      rewrite !ok_run, Hwait. unfold checked, ok. rewrite Hchown. cbn. tauto.
  - intros ->. unfold outcome, script.
    rewrite (wait_for_db_down fuel 0)
      by (intros; by apply probe_unset).
    reflexivity.
Qed.

(** The commands [wp plugin activate ...]. *)
Definition is_activate (c : cmd) : bool :=
  match c with
  | Wp [a; b; _] => String.eqb a "plugin" && String.eqb b "activate"
  | _ => false
  end.

Lemma activate_each_filter slugs :
  List.filter is_activate (fst (activate_each w slugs))
  = List.map (fun slug => Wp ["plugin"; "activate"; slug])
      (List.filter (fun slug => wp_status w ["plugin"; "is-installed"; slug])
                   slugs).
Proof.
  induction slugs as [| slug slugs IH]; [reflexivity |].
  cbn [activate_each List.filter].
  rewrite fst_then by apply ok_run. rewrite fst_then.
  - rewrite !List.filter_app, IH.
    destruct (wp_status w ["plugin"; "is-installed"; slug]); reflexivity.
  - destruct (wp_status w _); [by rewrite ok_then, !ok_run | by rewrite ok_run].
Qed.

Lemma activate_plugins_filter :
  List.filter is_activate (fst (activate_plugins env w))
  = List.map (fun slug => Wp ["plugin"; "activate"; slug])
      (List.filter (fun slug => wp_status w ["plugin"; "is-installed"; slug])
                   (listed_plugins env)).
Proof.
  unfold activate_plugins, listed_plugins.
  destruct (String.eqb_spec (expand_default env "WP_PLUGINS" "") "") as [-> | _];
    cbn [negb]; [reflexivity |].
  rewrite fst_then by apply ok_run. rewrite List.filter_app.
  apply activate_each_filter.
Qed.

(** X15.  In a run that reaches the hand-over, the plugin activations
    are exactly these, in this order: one [wp plugin activate slug] for
    every word of WP_PLUGINS whose plugin is installed, in the order of
    the words and as often as the word is listed; a plugin that is not
    installed is skipped and does not stop the script. *)
Theorem activated_plugins_exact (fuel : nat) :
  outcome env w fuel = Exec ->
  List.filter is_activate (trace env w fuel)
  = List.map (fun slug => Wp ["plugin"; "activate"; slug])
      (List.filter (fun slug => wp_status w ["plugin"; "is-installed"; slug])
                   (words (expand_default env "WP_PLUGINS" ""))).
Proof.
  intros Hexec. rewrite (trace_full env w fuel Hexec).
  unfold full_trace, steps. cbn [List.map concat].
  rewrite !List.filter_app, activate_plugins_filter.
  rewrite (filter_none is_activate (fst (wait_for_db env w fuel 0))).
  2: { intros c Hc. by apply wait_for_db_In in Hc as [-> | ->]. }
  rewrite (filter_none is_activate (fst (install env w))).
  2: { intros c Hc.
       apply install_In in Hc as [[t ->] | [_ [args [-> | ->]]]];
         try reflexivity; by destruct args as [| ? [| ? ?]]. }
  rewrite !(filter_none is_activate (fst (sync_option env _ _))).
  2, 3: intros c Hc; by apply sync_option_In in Hc as [v ->].
  cbn. rewrite app_nil_r. reflexivity.
Qed.

End BootstrapEdges.

(** The run of the example: two of the three plugins asked for are
    installed. *)
Lemma activated_plugins_exact_witness :
  List.filter is_activate (Bootstrap.trace sample_env sample_world 5)
  = [Bootstrap.Wp ["plugin"; "activate"; "wp-graphql"];
     Bootstrap.Wp ["plugin"; "activate"; "headless-reset-link"]].
Proof.
  rewrite (activated_plugins_exact sample_env sample_world 5);
    [| vm_compute; reflexivity].
  vm_compute. reflexivity.
Defined.

(** A fresh site whose database user is not given. *)
Lemma bootstrap_unset_variable_witness :
  Bootstrap.outcome (delete "WORDPRESS_DB_USER" sample_env) sample_world 5
  = Bootstrap.Aborted.
Proof.
  destruct (bootstrap_unset_variable
              (delete "WORDPRESS_DB_USER" sample_env) sample_world 5
              "WORDPRESS_DB_USER")
    as (_ & _ & _ & H & _).
  - cbn. tauto.
  - apply lookup_delete_eq.
  - reflexivity.
  - apply H; vm_compute; reflexivity.
Defined.

(** ** The words of WP_PLUGINS *)

Section Words.
Import Bootstrap.

Definition not_blank (c : ascii) : bool := negb (is_blank c).

Lemma words_from_clean cur s :
  Str.all not_blank cur = true ->
  Forall (fun word => word <> "" /\ Str.all not_blank word = true)
         (words_from cur s).
Proof.
  revert cur. induction s as [| c s IH]; intros cur Hcur; cbn [words_from].
  - destruct (String.eqb_spec cur ""); [constructor |].
    constructor; [by split | constructor].
  - destruct (is_blank c) eqn:Hc.
    + destruct (String.eqb_spec cur "").
      * by apply IH.
      * constructor; [by split | by apply IH].
    + apply IH. rewrite all_app, Hcur. cbn. unfold not_blank. by rewrite Hc.
Qed.

Lemma words_from_run cur s :
  Str.all not_blank s = true -> cur ++ s <> "" ->
  words_from cur s = [cur ++ s].
Proof.
  revert cur. induction s as [| c s IH]; intros cur Hs Hne; cbn [words_from].
  - rewrite append_empty_r in *.
    by destruct (String.eqb_spec cur "").
  - cbn [Str.all] in Hs. apply andb_true_iff in Hs as [Hc Hs].
    unfold not_blank in Hc. apply negb_true_iff in Hc. rewrite Hc.
    rewrite IH; [| assumption |].
    + by rewrite append_assoc.
    + rewrite append_assoc. exact Hne.
Qed.

Lemma words_from_app cur a c b :
  is_blank c = true ->
  words_from cur (a ++ String c b) = (words_from cur a ++ words b)%list.
Proof.
  intros Hc. revert cur. induction a as [| d a IH]; intros cur.
  - rewrite append_nil. cbn [words_from]. rewrite Hc.
    by destruct (String.eqb cur "").
  - rewrite append_cons. cbn [words_from].
    destruct (is_blank d).
    + destruct (String.eqb cur ""); [apply IH |].
      rewrite IH. reflexivity.
    + apply IH.
Qed.

(** X16.  The words into which the script splits WP_PLUGINS: no word is
    empty and no word holds a space, a tab or a newline; a text without
    such a character is its own single word; and the words of two texts
    joined by such a character are the words of the first followed by
    the words of the second, so that blanks at the ends and runs of
    blanks yield no word. *)
Theorem words_spec :
  words "" = [] /\
  (forall s word,
     In word (words s) -> word <> "" /\ Str.all not_blank word = true) /\
  (forall s, s <> "" -> Str.all not_blank s = true -> words s = [s]) /\
  (forall a c b,
     is_blank c = true -> words (a ++ String c b) = (words a ++ words b)%list).
Proof.
  split; [reflexivity |]. split; [| split].
  - intros s word Hin.
    pose proof (words_from_clean "" s eq_refl) as H.
    rewrite Forall_forall in H. apply H. by apply list_elem_of_In.
  - intros s Hne Hs. unfold words. by rewrite words_from_run.
  - intros a c b Hc. by apply words_from_app.
Qed.

End Words.

(** ** Paging forward and coming back *)

Section PaginationExcursion.
Import JS Listing.
Variable c : component.

(** The events of paging: Next, Prev and the arrival of a page. *)
Definition paging (e : event) : bool :=
  match e with
  | GoNext | GoPrev | Receive _ => true
  | _ => false
  end.

(** Along the events [es], from the state [t], only paging happens and
    the page number does not drop below [p]. *)
Fixpoint stays_from (p : Z) (es : list event) (t : state) : Prop :=
  match es with
  | [] => True
  | e :: es' =>
      paging e = true /\ p <= page (fst (step c e t)) /\
      stays_from p es' (fst (step c e t))
  end.

Lemma paging_below (p : Z) (e : event) (t : state) :
  inv t -> paging e = true -> 1 <= p <= page t ->
  forall j, (j < Z.to_nat p)%nat ->
    endCursorStack (fst (step c e t)) !! j = endCursorStack t !! j.
Proof.
  intros Hinv He Hp j Hj. destruct e as [| | v | v | v | d]; try discriminate.
  - cbn [step]. destruct (hasNext t) eqn:Hn.
    + destruct (goNext_spec t Hinv Hn) as (_ & _ & _ & Hbelow & _).
      apply Hbelow. lia.
    + by rewrite goNext_noop.
  - cbn [step]. unfold goPrev. by destruct (hasPrev t).
  - reflexivity.
Qed.

Lemma excursion (p : Z) (es : list event) (t s : state) :
  inv t -> 1 <= p <= page t ->
  (forall j, (j < Z.to_nat p)%nat ->
     endCursorStack t !! j = endCursorStack s !! j) ->
  stays_from p es t ->
  inv (run c es t) /\
  forall j, (j < Z.to_nat p)%nat ->
    endCursorStack (run c es t) !! j = endCursorStack s !! j.
Proof.
  revert t. induction es as [| e es IH]; intros t Hinv Hp Hsame Hstay.
  - by split.
  - cbn [stays_from] in Hstay. destruct Hstay as (He & Hpage & Hstay).
    change (run c (e :: es) t) with (run c es (fst (step c e t))).
    apply IH; try assumption.
    + by apply inv_step.
    + lia.
    + intros j Hj. rewrite <- (Hsame j Hj).
      by apply (paging_below p).
Qed.

(** X17.  From any reachable state on page p, let the user page forward
    and back in any way, pages arriving in between, without changing
    search, ordering or filter and without going below page p.  Then
    the cursors stored for the pages up to p are as they were; whenever
    the user is on page p again the products query has the [after]
    cursor it had at the start; and on page p + 1 a click on Prev
    refetches with that cursor. *)
Theorem pagination_excursion (s : state) (es : list event) :
  reachable c s -> stays_from (page s) es s ->
  let s' := run c es s in
  (forall j, (j < Z.to_nat (page s))%nat ->
     endCursorStack s' !! j = endCursorStack s !! j) /\
  (page s' = page s -> query_after s' = query_after s) /\
  (page s' = page s + 1 ->
   snd (goPrev s') = [Refetch (query_after s)] /\
   page (fst (goPrev s')) = page s /\
   query_after (fst (goPrev s')) = query_after s).
Proof.
  intros Hr Hstay s'.
  pose proof (reachable_inv c s Hr) as Hinv.
  assert (Hp : 1 <= page s <= page s) by (destruct Hinv; lia).
  destruct (excursion (page s) es s s Hinv Hp (fun _ _ => eq_refl) Hstay)
    as [Hinv' Hsame].
  fold s' in Hinv', Hsame.
  pose proof (query_after_slot s Hinv) as Hq.
  split; [exact Hsame |]. split.
  - intros Hpage. pose proof (query_after_slot s' Hinv') as Hq'.
    rewrite Hpage, Hsame in Hq' by lia. congruence.
  - intros Hpage.
    assert (Hgt : 1 < page s') by lia.
    destruct (goPrev_spec s' Hinv' Hgt) as (Hreq & Hslot & Hp2 & _ & Hq2).
    assert (Hcur : or_null (get (endCursorStack s') (page s' - 2))
                   = query_after s).
    { replace (page s' - 2) with (page s - 1) in * by lia.
      rewrite Hsame in Hslot by lia. congruence. }
    rewrite Hcur in *. repeat split; [assumption | lia | assumption].
Qed.

End PaginationExcursion.

(** From page 2 of the run above: forward to page 3 and to page 4, back
    to page 3, and the click on Prev that leads back to page 2. *)
Lemma pagination_excursion_witness :
  let s := Listing.run Listing.NewIphonesPage pagination_run Listing.init in
  let es := [Listing.GoNext;
             Listing.Receive (Some (Listing.PageInfo true (JS.Cursor "YXJyOjM2")));
             Listing.GoNext;
             Listing.Receive (Some (Listing.PageInfo false JS.Null));
             Listing.GoPrev;
             Listing.Receive (Some (Listing.PageInfo true (JS.Cursor "YXJyOjM2")))] in
  snd (Listing.goPrev (Listing.run Listing.NewIphonesPage es s))
  = [Listing.Refetch (JS.Cursor "YXJyOjEy")].
Proof.
  intros s es.
  destruct (pagination_excursion Listing.NewIphonesPage s es
              (reachable_run _ _ _ (Listing.reach_init _))) as (_ & _ & H).
  - cbn [stays_from]. repeat split; try reflexivity; vm_compute; discriminate.
  - destruct (H eq_refl) as (Hreq & _). exact Hreq.
Defined.

(** ** The grid of the BudgetSmartphoneDeals page *)

Section BudgetGrid.
Import BudgetCards.
Variable toLocaleString : Q -> string.
Variable trim : string -> string.

Lemma In_filter_map {A B} (f : B -> bool) (g : A -> B) (l : list A) (x : B) :
  In x (List.filter f (List.map g l))
  <-> exists a, In a l /\ x = g a /\ f x = true.
Proof.
  rewrite filter_In, in_map_iff. split.
  - intros [(a & <- & Ha) Hf]. by exists a.
  - intros (a & Ha & -> & Hf). split; [by exists a | assumption].
Qed.

Lemma badgeOk_derived (tags : list (option string)) (p : BudgetSmartphoneDeals.item) :
  BudgetSmartphoneDeals.badge p = deriveBadge tags ->
  BudgetSmartphoneDeals.badgeOk "All" p = true /\
  (BudgetSmartphoneDeals.badgeOk "OPEN" p = true
   <-> tagged tags "OPEN" /\ ~ tagged tags "OPEN HOT") /\
  (BudgetSmartphoneDeals.badgeOk "OPEN HOT" p = true
   <-> tagged tags "OPEN HOT").
Proof.
  intros Hb. unfold BudgetSmartphoneDeals.badgeOk. rewrite Hb.
  pose proof (includes_names_tagged tags "OPEN HOT" eq_refl ltac:(discriminate)) as Hh.
  pose proof (includes_names_tagged tags "OPEN" eq_refl ltac:(discriminate)) as Ho.
  unfold deriveBadge.
  destruct (Tags.includes (Tags.names tags) "OPEN HOT");
    destruct (Tags.includes (Tags.names tags) "OPEN");
    (split; [reflexivity |]); split;
    cbv -[tagged]; intuition congruence.
Qed.

(** X18.  On the BudgetSmartphoneDeals page, whatever the brand select
    and the search box hold: the badge select "All" leaves the choice to
    them; "OPEN HOT" shows a product exactly when one of its tags is
    named open hot in any letter case; "OPEN" shows it exactly when one
    of its tags is named open and none is named open hot.  A product
    without a brand of its own (none, or only blanks) is listed under
    the brand "Unbranded". *)
Theorem Budget_shown_by_badge (nodes : list node) (brand_sel search : string)
                              (x : BudgetSmartphoneDeals.item) :
  let fields := fun n => filtered_fields (normalize toLocaleString trim n) in
  let tags := fun n => default [] (productTags_nodes n) in
  let passes := fun n =>
    In n nodes /\ x = fields n /\
    BudgetSmartphoneDeals.brandOk brand_sel x = true /\
    BudgetSmartphoneDeals.searchOk search x = true in
  (In x (shown toLocaleString trim brand_sel "All" search nodes)
   <-> exists n, passes n) /\
  (In x (shown toLocaleString trim brand_sel "OPEN" search nodes)
   <-> exists n, passes n /\
                 tagged (tags n) "OPEN" /\ ~ tagged (tags n) "OPEN HOT") /\
  (In x (shown toLocaleString trim brand_sel "OPEN HOT" search nodes)
   <-> exists n, passes n /\ tagged (tags n) "OPEN HOT") /\
  (forall n,
     BudgetSmartphoneDeals.brandOk "Unbranded" (fields n) = true
     <-> match meta_brand n with
         | None => True
         | Some b => trim b = "" \/ ci_equal (trim b) "Unbranded"
         end).
Proof.
  intros fields tags passes.
  assert (Hshown : forall sel,
            In x (shown toLocaleString trim brand_sel sel search nodes)
            <-> exists n, In n nodes /\ x = fields n /\
                  BudgetSmartphoneDeals.brandOk brand_sel x
                  && BudgetSmartphoneDeals.badgeOk sel x
                  && BudgetSmartphoneDeals.searchOk search x = true).
  { intros sel. unfold shown, BudgetSmartphoneDeals.filtered, items.
    rewrite List.map_map.
    apply (In_filter_map
             (fun p => BudgetSmartphoneDeals.brandOk brand_sel p
                       && BudgetSmartphoneDeals.badgeOk sel p
                       && BudgetSmartphoneDeals.searchOk search p)
             fields nodes x). }
  assert (Hbadge : forall n, x = fields n ->
            BudgetSmartphoneDeals.badge x = deriveBadge (tags n)).
  { intros n ->. reflexivity. }
  split; [| split; [| split]].
  - rewrite Hshown. split.
    + intros (n & Hn & Hx & Hf). exists n.
      apply andb_true_iff in Hf as [Hf Hs]. apply andb_true_iff in Hf as [Hb _].
      by repeat split.
    + intros (n & Hn & Hx & Hb & Hs). exists n.
      repeat split; try assumption.
      destruct (badgeOk_derived (tags n) x (Hbadge n Hx)) as (Hall & _).
      by rewrite Hb, Hall, Hs.
  - rewrite Hshown. split.
    + intros (n & Hn & Hx & Hf). exists n.
      apply andb_true_iff in Hf as [Hf Hs]. apply andb_true_iff in Hf as [Hb Hg].
      destruct (badgeOk_derived (tags n) x (Hbadge n Hx)) as (_ & Hopen & _).
      apply Hopen in Hg as [Ho Hnh]. unfold passes. by repeat split.
    + intros (n & (Hn & Hx & Hb & Hs) & Ht). exists n.
      repeat split; try assumption.
      destruct (badgeOk_derived (tags n) x (Hbadge n Hx)) as (_ & Hopen & _).
      apply Hopen in Ht. by rewrite Hb, Ht, Hs.
  - rewrite Hshown. split.
    + intros (n & Hn & Hx & Hf). exists n.
      apply andb_true_iff in Hf as [Hf Hs]. apply andb_true_iff in Hf as [Hb Hg].
      destruct (badgeOk_derived (tags n) x (Hbadge n Hx)) as (_ & _ & Hhot).
      apply Hhot in Hg. unfold passes. by repeat split.
    + intros (n & (Hn & Hx & Hb & Hs) & Ht). exists n.
      repeat split; try assumption.
      destruct (badgeOk_derived (tags n) x (Hbadge n Hx)) as (_ & _ & Hhot).
      apply Hhot in Ht. by rewrite Hb, Ht, Hs.
  - intros n. unfold fields, BudgetSmartphoneDeals.brandOk.
    cbn [normalize filtered_fields BudgetSmartphoneDeals.brand].
    unfold NewIphonesCards.trimmed_or.
    change ("Unbranded" =? "All")%string with false. cbn [orb].
    destruct (meta_brand n) as [b |]; [| by split].
    destruct (String.eqb_spec (trim b) "") as [E | E].
    + split; [intros _; by left | reflexivity].
    + rewrite String.eqb_eq. unfold ci_equal. split.
      * intros H. by right.
      * intros [H | H]; [contradiction | assumption].
Qed.

End BudgetGrid.

(** ** Tags of the form "Key: value" in the laptops section *)

Section LaptopTagValues.
Variable trim : string -> string.

(** The test of [tags.find(...)]. *)
Definition names_key (key : string) (t : option string) : bool :=
  Str.startsWith (Str.toLowerCase (default "" t)) (Str.toLowerCase key ++ ":").

Lemma find_first {A} (f : A -> bool) (before after : list A) (x : A) :
  (forall y, In y before -> f y = false) -> f x = true ->
  List.find f (before ++ x :: after) = Some x.
Proof.
  intros Hb Hx. induction before as [| y before IH]; cbn.
  - by rewrite Hx.
  - rewrite (Hb y) by (by left). apply IH. intros z Hz. apply Hb. by right.
Qed.

Lemma toLowerCase_app a b :
  Str.toLowerCase (a ++ b) = Str.toLowerCase a ++ Str.toLowerCase b.
Proof.
  unfold Str.toLowerCase. induction a as [| c a IH]; [reflexivity |].
  rewrite append_cons. cbn [Str.map]. by rewrite IH.
Qed.

Lemma lower_keeps_colons s :
  Str.all (not_char ":") (Str.toLowerCase s) = Str.all (not_char ":") s.
Proof.
  unfold Str.toLowerCase. induction s as [| c s IH]; [reflexivity |].
  cbn [Str.map Str.all]. rewrite IH. f_equal.
  destruct c as [[] [] [] [] [] [] [] []]; reflexivity.
Qed.

Lemma split_on_head sep s :
  nth 0 (Url.split_on sep s) "" = fst (Url.split_first sep s).
Proof.
  induction s as [| c s IH]; [reflexivity |].
  cbn [Url.split_on Url.split_first]. destruct (Ascii.eqb c sep); [reflexivity |].
  destruct (Url.split_first sep s) as [before after].
  destruct (Url.split_on sep s) as [| p ps]; cbn in *; by rewrite ?IH.
Qed.

(** X19.  For a key without a colon, [firstTagValue] is [null] exactly
    when no tag's name begins with the key and a colon, up to letter
    case; otherwise it reads the first such tag, and of a name
    "key:rest" it returns, trimmed, the part of the rest up to its first
    colon (all of it when it has none). *)
Theorem firstTagValue_spec (key : string) (tags : list (option string)) :
  Str.all (not_char ":") key = true ->
  (LaptopTags.firstTagValue trim tags key = None
   <-> forall t, In t tags -> names_key key t = false) /\
  (forall (before : list (option string)) (k rest : string) after,
     tags = (before ++ Some (k ++ ":" ++ rest)%string :: after)%list ->
     (forall t, In t before -> names_key key t = false) ->
     ci_equal k key ->
     LaptopTags.firstTagValue trim tags key
     = Some (trim (fst (Url.split_first ":" rest)))).
Proof.
  intros Hkey. unfold LaptopTags.firstTagValue. fold (names_key key). split.
  - destruct (List.find (names_key key) tags) as [row |] eqn:E.
    + split; [discriminate |]. intros Hnone.
      apply find_some in E as [Hin Hrow]. rewrite (Hnone row Hin) in Hrow.
      discriminate.
    + split; [| reflexivity]. intros _ t Hin.
      by apply (find_none _ _ E).
  - intros before k rest after -> Hbefore Hci.
    assert (Hk : Str.all (not_char ":") k = true).
    { rewrite <- lower_keeps_colons. unfold ci_equal in Hci. rewrite Hci.
      by rewrite lower_keeps_colons. }
    rewrite (find_first (names_key key) before after
               (Some (k ++ ":" ++ rest)) Hbefore).
    + change (default "" (Some (k ++ ":" ++ rest))) with (k ++ ":" ++ rest).
      change (k ++ ":" ++ rest) with (k ++ String ":" rest).
      rewrite split_on_app by assumption.
      change (nth 1 (k :: Url.split_on ":" rest) "")
        with (nth 0 (Url.split_on ":" rest) "").
      by rewrite split_on_head.
    + unfold names_key.
      change (default "" (Some (k ++ ":" ++ rest))) with (k ++ ":" ++ rest).
      rewrite !toLowerCase_app. unfold ci_equal in Hci. rewrite Hci.
      apply startsWith_spec. exists (Str.toLowerCase rest).
      by rewrite append_assoc.
Qed.

End LaptopTagValues.

(** The tags of a laptop, with the brand in second place. *)
Lemma firstTagValue_witness :
  LaptopTags.firstTagValue trim_ascii
    [Some "Gaming"; Some "brand: Lenovo "; Some "Discount: 10%"] "Brand"
  = Some "Lenovo".
Proof.
  destruct (firstTagValue_spec trim_ascii "Brand"
              [Some "Gaming"; Some "brand: Lenovo "; Some "Discount: 10%"]
              eq_refl) as [_ H].
  apply (H [Some "Gaming"] "brand" " Lenovo " [Some "Discount: 10%"]);
    [reflexivity | | reflexivity].
  intros t [<- | []]. reflexivity.
Defined.

(** ** Prices that arrive as numbers *)

Section NumericPrices.

Lemma pretty_N_char_digit (m : N) :
  (m < 10)%N ->
  Str.is_digit (pretty_N_char m) = true /\
  Num.digit_value (pretty_N_char m) = Z.of_N m.
Proof.
  intros Hm.
  assert (H : m = 0%N \/ m = 1%N \/ m = 2%N \/ m = 3%N \/ m = 4%N \/ m = 5%N
              \/ m = 6%N \/ m = 7%N \/ m = 8%N \/ m = 9%N) by lia.
  repeat destruct H as [-> | H]; try subst m; by split.
Qed.

Lemma strip_cons_digit c s :
  Str.is_digit c = true -> Num.strip (String c s) = String c (Num.strip s).
Proof.
  intros Hc. unfold Num.strip. cbn [Str.filter].
  unfold Num.is_digit_or_dot at 1. by rewrite Hc.
Qed.

Lemma split_dot_cons_digit acc c s :
  Str.is_digit c = true ->
  Num.split_dot acc (String c s) = Num.split_dot (10 * acc + Num.digit_value c) s.
Proof.
  intros Hc. cbn [Num.split_dot].
  destruct (Ascii.eqb_spec c ".") as [-> | _]; [discriminate | reflexivity].
Qed.

(** The numeral of [x] in front of [s] is left as it is by the filter
    and read back as [x]. *)
Lemma pretty_N_go_read (x : N) :
  forall s,
    Num.strip (pretty_N_go x s) = pretty_N_go x (Num.strip s) /\
    exists m, forall acc,
      Num.split_dot acc (pretty_N_go x s)
      = Num.split_dot (acc * m + Z.of_N x) s.
Proof.
  induction (N.lt_wf_0 x) as [x _ IH]. intros s.
  destruct (decide (x = 0%N)) as [-> | Hx].
  - rewrite !pretty_N_go_0. split; [reflexivity |].
    exists 1. intros acc. f_equal. lia.
  - assert (Hpos : (0 < x)%N) by lia.
    assert (Hlt : (x `div` 10 < x)%N) by (apply N.div_lt; lia).
    assert (Hmod : (x `mod` 10 < 10)%N) by (apply N.mod_lt; lia).
    destruct (pretty_N_char_digit _ Hmod) as [Hd Hv].
    rewrite !(pretty_N_go_step x) by assumption.
    destruct (IH _ Hlt (String (pretty_N_char (x `mod` 10)) s))
      as [Hstrip [m Hread]].
    split.
    + by rewrite Hstrip, strip_cons_digit.
    + exists (10 * m). intros acc.
      rewrite Hread, split_dot_cons_digit by assumption.
      f_equal. rewrite Hv.
      pose proof (N.div_mod x 10 ltac:(lia)) as Hdm.
      lia.
Qed.

Lemma of_stripped_pretty_N (x : N) :
  Num.strip (pretty x) = pretty x /\
  Num.of_stripped (pretty x) = Some (inject_Z (Z.of_N x)).
Proof.
  unfold pretty, pretty_N. destruct (decide (x = 0%N)) as [-> | Hx].
  - by split.
  - destruct (pretty_N_go_read x "") as [Hstrip [m Hread]].
    split; [exact Hstrip |].
    unfold Num.of_stripped. rewrite (Hread 0). cbn [Num.split_dot].
    repeat f_equal; lia.
Qed.

Lemma number_of_integer (n : Z) :
  Num.of_stripped (Num.strip (Value.to_string (JNum n)))
  = Some (inject_Z (Z.abs n)).
Proof.
  cbn [Value.to_string]. destruct n as [| p | p].
  - reflexivity.
  - change (pretty (Z.pos p)) with (pretty (N.pos p)).
    destruct (of_stripped_pretty_N (N.pos p)) as [-> ->]. reflexivity.
  - change (pretty (Z.neg p)) with ("-" ++ pretty (N.pos p)).
    change (Num.strip ("-" ++ pretty (N.pos p)))
      with (Num.strip (pretty (N.pos p))).
    destruct (of_stripped_pretty_N (N.pos p)) as [-> ->]. reflexivity.
Qed.

(** X20.  A price that arrives as an integer (below 10^21 in size, where
    JavaScript writes a number in full) is read back from its text as
    its absolute value: [toNumber] of the NewIphones page returns it,
    the laptops section shows "Ksh " and the number, the
    BudgetSmartphoneDeals page the number and " KSh".  A negative
    number loses its sign, and 0 is shown as 0, not as no price. *)
Theorem numeric_price (toLocaleString : Q -> string) (n : Z) :
  Z.abs n < 10 ^ 21 ->
  NewIphonesCards.toNumber (Some (JNum n)) = Some (inject_Z (Z.abs n)) /\
  Laptops.money toLocaleString (Some (JNum n))
  = "Ksh " ++ toLocaleString (inject_Z (Z.abs n)) /\
  BudgetSmartphoneDeals.money toLocaleString (Some (JNum n))
  = Some (toLocaleString (inject_Z (Z.abs n)) ++ " KSh").
Proof.
  intros _. pose proof (number_of_integer n) as H.
  split; [exact H |]. split.
  - unfold Laptops.money.
    assert (Hshown : negb (Value.truthy_opt (Some (JNum n)))
                     && negb match Some (JNum n) with
                             | Some (JNum 0) => true
                             | _ => false
                             end = false).
    { destruct n; reflexivity. }
    rewrite Hshown.
    change (Value.to_string_opt (Some (JNum n))) with (Value.to_string (JNum n)).
    by rewrite H.
  - unfold BudgetSmartphoneDeals.money. by rewrite H.
Qed.

End NumericPrices.

(** A refund of 1500 shillings, sent as the number -1500. *)
Lemma numeric_price_witness :
  NewIphonesCards.toNumber (Some (JNum (-1500))) = Some (inject_Z 1500).
Proof. exact (proj1 (numeric_price (fun _ => "") (-1500) ltac:(lia))). Defined.

(** ** The cart page's handlers: what is asked, and the badge *)

Section CartPageHandlers.
Variable authed : bool.
Variable ls : gmap string string.
Variable answers : nat -> Eff.response.
Variable itemCount : json.
Variable key : string.

(** The badge that was [c], once the mutation [mutation] has been
    answered: the count of the answer, or the count of the cart as last
    fetched when the answer has none (0 when that is missing as well),
    where that is a number; [c] when it is not a number, or when the
    mutation failed. *)
Definition cart_badge_expected (mutation : string) (c : Z) : Z :=
  match answers 0%nat with
  | Eff.Resolved res =>
      match CartHandlers.coalesce
              (Eff.path (CartHandlers.itemCount_path mutation) (Some res))
              itemCount with
      | JNum n => n
      | JNull => 0
      | _ => c
      end
  | Eff.Rejected _ => c
  end.

Definition update_request (quantity : Z) : Eff.effect :=
  Eff.Request "updateItemQuantities"
    [("items", JArr [JObj [("key", JStr key); ("quantity", JNum quantity)]])].

Definition remove_request : Eff.effect :=
  Eff.Request "removeItemsFromCart" [("keys", JArr [JStr key])].

(** X21.  The cart page's handlers never write to the storage.  [onInc]
    first asks for the quantity plus one; [onDec] asks for the quantity
    minus one when that is at least 1 and for the removal of the line
    otherwise, so that it never asks for a quantity below 1; [onRemove]
    asks for the removal.  Afterwards the header's badge shows the item
    count of the mutation's answer, or, when the answer has none, the
    count of the cart as last fetched (0 when that is missing as well);
    a failed mutation leaves the badge as it was. *)
Theorem cart_handlers_outcomes (c qty : Z) :
  let after := fun (h : Eff.M unit) => snd (h (Eff.start ls answers)) in
  let badge := fun (h : Eff.M unit) =>
    Header.badge_after authed c (Header.cart_updated (Eff.log (after h))) in
  (Eff.storage (after (CartHandlers.onInc itemCount key qty)) = ls /\
   Eff.storage (after (CartHandlers.onDec itemCount key qty)) = ls /\
   Eff.storage (after (CartHandlers.onRemove itemCount key)) = ls) /\
  (head (Eff.requests (after (CartHandlers.onInc itemCount key qty)))
   = Some (update_request (qty + 1)) /\
   head (Eff.requests (after (CartHandlers.onDec itemCount key qty)))
   = Some (if bool_decide (qty - 1 <= 0) then remove_request
           else update_request (qty - 1)) /\
   head (Eff.requests (after (CartHandlers.onRemove itemCount key)))
   = Some remove_request) /\
  (forall q,
     In (update_request q)
        (Eff.log (after (CartHandlers.onDec itemCount key qty))) ->
     1 <= q) /\
  (badge (CartHandlers.onInc itemCount key qty)
   = cart_badge_expected "updateItemQuantities" c /\
   badge (CartHandlers.onDec itemCount key qty)
   = cart_badge_expected
       (if bool_decide (qty - 1 <= 0) then "removeItemsFromCart"
        else "updateItemQuantities") c /\
   badge (CartHandlers.onRemove itemCount key)
   = cart_badge_expected "removeItemsFromCart" c).
Proof.
  cbn zeta.
  unfold cart_badge_expected, update_request, remove_request,
    CartHandlers.onInc, CartHandlers.onDec, CartHandlers.onRemove,
    CartHandlers.setBusy, CartHandlers.refetch, CartHandlers.updateQty,
    CartHandlers.removeItems, CartHandlers.broadcastCount.
  split; [| split; [| split]].
  - repeat split.
    + run_handler. answer_cases; reflexivity.
    + destruct (bool_decide (qty - 1 <= 0)); run_handler;
        answer_cases; reflexivity.
    + run_handler. answer_cases; reflexivity.
  - repeat split.
    + run_handler. answer_cases; reflexivity.
    + destruct (bool_decide (qty - 1 <= 0)); run_handler;
        answer_cases; reflexivity.
    + run_handler. answer_cases; reflexivity.
  - intros q. destruct (bool_decide (qty - 1 <= 0)) eqn:Hq.
    + run_handler. answer_cases; cbn;
        intros H; repeat (destruct H as [H | H]; try discriminate);
        exact (False_ind _ H).
    + apply bool_decide_eq_false in Hq.
      run_handler. answer_cases; cbn;
        intros H; repeat (destruct H as [H | H]; try discriminate);
        try exact (False_ind _ H); injection H as <-; lia.
  - repeat split.
    + run_handler. destruct (answers 0%nat) as [res | e];
        cbn -[Eff.path CartHandlers.coalesce];
        [destruct (CartHandlers.coalesce _ itemCount) |];
        answer_cases; reflexivity.
    + destruct (bool_decide (qty - 1 <= 0)); run_handler;
        (destruct (answers 0%nat) as [res | e];
         cbn -[Eff.path CartHandlers.coalesce];
         [destruct (CartHandlers.coalesce _ itemCount) |];
         answer_cases; reflexivity).
    + run_handler. destruct (answers 0%nat) as [res | e];
        cbn -[Eff.path CartHandlers.coalesce];
        [destruct (CartHandlers.coalesce _ itemCount) |];
        answer_cases; reflexivity.
Qed.

End CartPageHandlers.
